(** * The workflow engine of task-scheduling-tools/stackstorm/workflow_engine.py

    A shallow embedding of the class [WorkflowEngine] and of the two HTTP
    handlers that read its execution history, followed by the properties of
    the engine that the specification states.

    Conventions of the embedding.
    - Python values that come out of [yaml.safe_load] or [request.json] are
      the type [value]: scalars, lists and dicts with string keys, in
      insertion order.  A float is the binary64 number it is; NaN and YAML
      timestamps are left out.  Clock readings ([time.time()]) are integers,
      in microseconds, and sleeps are integers, in nanoseconds.
    - The engine object ([self]) and the world outside it form the state that
      every method threads; a method is a computation in the monad [M], which
      returns, raises a Python exception, or runs out of the fuel that bounds
      the polling loop of [wait_for_workflow_completion].
    - What the world answers (the clock, the commands run by [subprocess],
      the HTTP peer, what other threads did to the history while this one
      was blocked) is the record [Env]; every theorem holds for every [Env]
      unless it says otherwise.  What [load_workflows] meets on the disk is
      a [Directory].
    - Strings of bytes and strings of characters are both the type
      [string].
    - Where the builtins differ between versions of CPython (the conversion
      and the messages of [time.sleep], the messages of the codecs), the
      model follows CPython 3.11 on Linux.
    - All exceptions of the model derive from Python's [Exception]
      ([KeyboardInterrupt] and [SystemExit] never reach a worker thread).
    - Calls to [logger] write to the log file only and are left out. *)

From stdpp Require Import base option list gmap strings pretty.
From Stdlib Require Import ZArith String Ascii Lia.
From Stdlib Require SpecFloat.

Set Warnings "-register-all".

Local Open Scope string_scope.
Local Open Scope Z_scope.

(** ** Python values *)

(** A Python [float] other than a NaN: a zero, an infinity, or the binary64
    number [m * 2^e], each with its sign. *)
Inductive pyfloat : Type :=
  | FZero (negative : bool)
  | FInf (negative : bool)
  | FFinite (negative : bool) (m : positive) (e : Z).

Global Instance pyfloat_eq_dec : EqDecision pyfloat.
Proof. solve_decision. Defined.

Inductive scalar : Type :=
  | SNone
  | SBool (b : bool)
  | SInt (z : Z)
  | SStr (s : string)
  | SFloat (f : pyfloat).

Inductive value : Type :=
  | VS (s : scalar)
  | VList (l : list value)
  | VDict (d : list (string * value)).

Coercion VS : scalar >-> value.

Definition VNone : value := VS SNone.
Definition VStr (s : string) : value := VS (SStr s).
Definition VInt (z : Z) : value := VS (SInt z).
Definition VFloat (f : pyfloat) : value := VS (SFloat f).

(** The keys of a Python dict: hashable scalars up to Python's [==], under
    which [True == 1], [False == 0] and a float that is an integer equals
    that integer.  A float that is no integer is the key [m * 2^e] with [m]
    odd. *)
Inductive pykey : Type :=
  | KNone
  | KInt (z : Z)
  | KStr (s : string)
  | KFloat (negative : bool) (m : positive) (e : Z)
  | KInf (negative : bool).

Global Instance pykey_eq_dec : EqDecision pykey.
Proof. solve_decision. Defined.

Definition pykey_to_sum (k : pykey) : unit + (Z + (string + (bool * positive * Z + bool))) :=
  match k with
  | KNone => inl tt
  | KInt z => inr (inl z)
  | KStr s => inr (inr (inl s))
  | KFloat negative m e => inr (inr (inr (inl (negative, m, e))))
  | KInf negative => inr (inr (inr (inr negative)))
  end.

Definition pykey_of_sum (x : unit + (Z + (string + (bool * positive * Z + bool)))) : pykey :=
  match x with
  | inl _ => KNone
  | inr (inl z) => KInt z
  | inr (inr (inl s)) => KStr s
  | inr (inr (inr (inl (negative, m, e)))) => KFloat negative m e
  | inr (inr (inr (inr negative))) => KInf negative
  end.

Global Instance pykey_countable : Countable pykey.
Proof.
  apply (inj_countable' pykey_to_sum pykey_of_sum).
  by intros [].
Defined.

(** [m * 2^e] with the factors 2 of [m] moved to the exponent. *)
Fixpoint odd_part (m : positive) (e : Z) : positive * Z :=
  match m with
  | xO m' => odd_part m' (e + 1)
  | _ => (m, e)
  end.

Definition signed (negative : bool) (z : Z) : Z := if negative then - z else z.

Definition float_key (f : pyfloat) : pykey :=
  match f with
  | FZero _ => KInt 0
  | FInf negative => KInf negative
  | FFinite negative m e =>
      let (m', e') := odd_part m e in
      if (0 <=? e')%Z then KInt (signed negative (Z.pos m' * 2 ^ e')) else KFloat negative m' e'
  end.

Definition key_of (s : scalar) : pykey :=
  match s with
  | SNone => KNone
  | SBool b => KInt (if b then 1 else 0)
  | SInt z => KInt z
  | SStr s => KStr s
  | SFloat f => float_key f
  end.

(** [a == b] on scalars. *)
Definition py_eq (a b : scalar) : bool := bool_decide (key_of a = key_of b).

(** [type(v).__name__] *)
Definition type_name (v : value) : string :=
  match v with
  | VS SNone => "NoneType"
  | VS (SBool _) => "bool"
  | VS (SInt _) => "int"
  | VS (SStr _) => "str"
  | VS (SFloat _) => "float"
  | VList _ => "list"
  | VDict _ => "dict"
  end.

(** [bool(v)], as used by [parameters or {}]. *)
Definition py_truthy (v : value) : bool :=
  match v with
  | VS SNone => false
  | VS (SBool b) => b
  | VS (SInt z) => negb (z =? 0)%Z
  | VS (SStr s) => negb (String.eqb s "")
  | VS (SFloat f) => match f with FZero _ => false | _ => true end
  | VList l => match l with [] => false | _ => true end
  | VDict d => match d with [] => false | _ => true end
  end.

(** A value used as a number: [int], [bool] which is a subclass of it, and
    [float]. *)
Inductive number : Type :=
  | NInt (z : Z)
  | NFloat (f : pyfloat).

Definition as_number (v : value) : option number :=
  match v with
  | VS (SInt z) => Some (NInt z)
  | VS (SBool b) => Some (NInt (if b then 1 else 0))
  | VS (SFloat f) => Some (NFloat f)
  | _ => None
  end.

(** ** Exceptions *)

Record exn : Type := mkExn { exn_class : string; exn_msg : string }.

Global Instance exn_eq_dec : EqDecision exn.
Proof. solve_decision. Defined.

Definition ValueError := mkExn "ValueError".
Definition TypeError := mkExn "TypeError".
Definition AttributeError := mkExn "AttributeError".
Definition KeyError := mkExn "KeyError".
Definition Exception := mkExn "Exception".
Definition OverflowError := mkExn "OverflowError".
Definition TimeoutExpired := mkExn "TimeoutExpired".

(** [str(e)] *)
Definition str_exn (e : exn) : string := exn_msg e.

(** ** Builtins on values *)

Fixpoint dict_lookup (d : list (string * value)) (k : string) : option value :=
  match d with
  | [] => None
  | (k', v) :: d' => if String.eqb k' k then Some v else dict_lookup d' k
  end.

(** [v.get(k, default)] *)
Definition py_get (v : value) (k : string) (default : value) : exn + value :=
  match v with
  | VDict d => inr (from_option id default (dict_lookup d k))
  | _ => inl (AttributeError ("'" +:+ type_name v +:+ "' object has no attribute 'get'"))
  end.

(** [iter(v)]: the items a [for] loop over [v] visits.  A string yields its
    characters, a dict its keys. *)
Fixpoint chars (s : string) : list value :=
  match s with
  | EmptyString => []
  | String c s' => VStr (String c EmptyString) :: chars s'
  end.

Definition py_iter (v : value) : exn + list value :=
  match v with
  | VList l => inr l
  | VDict d => inr (map (λ kv, VStr (fst kv)) d)
  | VS (SStr s) => inr (chars s)
  | _ => inl (TypeError ("'" +:+ type_name v +:+ "' object is not iterable"))
  end.

(** [hash(v)] as a dict key; lists and dicts are unhashable. *)
Definition py_hash (v : value) : exn + scalar :=
  match v with
  | VS s => inr s
  | _ => inl (TypeError ("unhashable type: '" +:+ type_name v +:+ "'"))
  end.

Fixpoint join (sep : string) (l : list string) : string :=
  match l with
  | [] => ""
  | [x] => x
  | x :: l' => x +:+ sep +:+ join sep l'
  end.

Section Repr.
(** [repr] of a [str] (the quoting and escaping rules of CPython) and of a
    [float] (the shortest decimal that reads back as the float) are taken
    from the interpreter. *)
Variable repr_str : string → string.
Variable repr_float : pyfloat → string.

Definition str_scalar (s : scalar) : string :=
  match s with
  | SNone => "None"
  | SBool b => if b then "True" else "False"
  | SInt z => pretty z
  | SStr s => s
  | SFloat f => repr_float f
  end.

Fixpoint py_repr (v : value) : string :=
  match v with
  | VS (SStr s) => repr_str s
  | VS s => str_scalar s
  | VList l => "[" +:+ join ", " (map py_repr l) +:+ "]"
  | VDict d =>
      "{" +:+ join ", " (map (λ kv, repr_str (fst kv) +:+ ": " +:+ py_repr (snd kv)) d) +:+ "}"
  end.

(** [str(v)], which is what an f-string inserts. *)
Definition py_str (v : value) : string :=
  match v with
  | VS s => str_scalar s
  | _ => py_repr v
  end.
End Repr.

(** ** The records of the engine *)

(** The dict that [execute_step] builds and returns. *)
Record StepResult : Type := mkStepResult {
  sr_name : value;
  sr_action : value;
  sr_start_time : string;
  sr_success : bool;
  sr_output : value;
  sr_error : string;
  sr_end_time : option string;      (* the key is absent until the step ends *)
}.

(** The three strings that are ever stored under the key ['status']. *)
Inductive Status : Type := running | completed | failed.

Global Instance Status_eq_dec : EqDecision Status.
Proof. solve_decision. Defined.

(** The dict that [execute_workflow] builds, appends to [self.executions]
    and keeps mutating. *)
Record Execution : Type := mkExecution {
  e_id : string;
  e_workflow_name : scalar;
  e_status : Status;
  e_start_time : string;
  e_parameters : value;
  e_steps : list StepResult;
  e_logs : list string;
  e_end_time : option string;       (* the key is absent while the run lasts *)
  e_error : option string;          (* the key is absent unless the run raised *)
}.

(** What [subprocess.run(..., capture_output=True, text=True)] returns. *)
Record CompletedProcess : Type := mkCompletedProcess {
  stdout : string;
  stderr : string;
  returncode : Z;
}.

(** What a command did under [subprocess.run]: it exited before the
    timeout with a return code, having written these bytes to its standard
    output and to its standard error; or it outlasted the timeout and was
    killed; or it was not started, because [Popen] raised. *)
Inductive ProcessOutcome : Type :=
  | Exited (code : Z) (out err : string)
  | TimedOut
  | NotStarted (e : exn).

(** The newlines of text mode: [data.replace("\r\n", "\n").replace("\r", "\n")]. *)
Fixpoint universal_newlines (s : string) : string :=
  match s with
  | EmptyString => EmptyString
  | String c s' =>
      if Ascii.eqb c "013" then
        match s' with
        | String c' s'' =>
            if Ascii.eqb c' "010" then String "010" (universal_newlines s'')
            else String "010" (universal_newlines s')
        | EmptyString => String "010" EmptyString
        end
      else String c (universal_newlines s')
  end.

(** What [load_workflows] meets on the disk: the exception that
    [mkdir(exist_ok=True)] raises, if it raises one; the files that the
    [glob] yields, each as what [yaml.safe_load] made of it or as the
    exception that opening or parsing it raised; and the exception that ends
    the [glob], if one does. *)
Record Directory : Type := mkDirectory {
  mkdir_raises : option exn;
  yielded : list (exn + value);
  glob_raises : option exn;
}.

(** What [requests.request] returns. *)
Record Response : Type := mkResponse {
  status_code : Z;
  headers : list (string * string);
  text : string;
}.

(** ** The world outside the engine *)

Record Env (W : Type) : Type := mkEnv {
  (** the reading of [time.time()], in microseconds *)
  clock : W → Z;
  (** the string [datetime.now().isoformat()] *)
  isoformat_now : W → string;
  (** the world after a reading of the clock *)
  tick : W → W;
  (** a sleep of [ns >= 0] nanoseconds: the exception that the call of the
      system raises, if it raises one, and the world after the sleep *)
  sleep : Z → W → option exn * W;
  (** the message of the [OverflowError] of [time.sleep] *)
  sleep_overflow : string;
  (** [Thread.start()]: the exception it raises when the thread cannot be
      started, if it raises, and the world once the call is over *)
  thread_start : W → option exn * W;
  (** the command run by the shell under the timeout [t]:
      [Popen(command, shell=True, ...)] and [communicate(timeout=t)], up to
      the bytes read from the pipes *)
  run_command : value → Z → W → ProcessOutcome * W;
  (** [bytes.decode] in the encoding of the locale, which [text=True]
      applies to these bytes *)
  decode : string → exn + string;
  (** [requests.request(method, url, headers, json, timeout=t)] *)
  requests_request : string → value → value → value → Z → W → (exn + Response) * W;
  (** what the runs of other threads did to [self.executions] while this
      thread was blocked in a sleep, a command, a request or the start of a
      thread *)
  concurrently : W → list Execution → list Execution;
  (** [repr] of a string and of a float, and [str.upper] *)
  repr_str : string → string;
  repr_float : pyfloat → string;
  str_upper : string → string;
}.

Arguments clock {W}.
Arguments isoformat_now {W}.
Arguments tick {W}.
Arguments sleep {W}.
Arguments sleep_overflow {W}.
Arguments thread_start {W}.
Arguments run_command {W}.
Arguments decode {W}.
Arguments requests_request {W}.
Arguments concurrently {W}.
Arguments repr_str {W}.
Arguments repr_float {W}.
Arguments str_upper {W}.

(** The engine object and the world: [self.workflows], [self.executions],
    the threads started so far (target and parameters of each), the world. *)
Record Engine (W : Type) : Type := mkEngine {
  workflows : gmap pykey value;
  executions : list Execution;
  threads : list (value * value);
  world : W;
}.

Arguments mkEngine {W}.
Arguments workflows {W}.
Arguments executions {W}.
Arguments threads {W}.
Arguments world {W}.

(** ** The monad of methods *)

Inductive outcome (A : Type) : Type :=
  | Ret (a : A)
  | Raise (e : exn)
  | OutOfFuel.

Arguments Ret {A}.
Arguments Raise {A}.
Arguments OutOfFuel {A}.

Definition M (W A : Type) : Type := Engine W → outcome A * Engine W.

Definition ret {W A} (a : A) : M W A := λ st, (Ret a, st).

Definition raise {W A} (e : exn) : M W A := λ st, (Raise e, st).

Definition out_of_fuel {W A} : M W A := λ st, (OutOfFuel, st).

Definition bind {W A B} (m : M W A) (k : A → M W B) : M W B :=
  λ st,
    match m st with
    | (Ret a, st') => k a st'
    | (Raise e, st') => (Raise e, st')
    | (OutOfFuel, st') => (OutOfFuel, st')
    end.

(** [try: m  except Exception as e: h e] *)
Definition try_except {W A} (m : M W A) (h : exn → M W A) : M W A :=
  λ st,
    match m st with
    | (Raise e, st') => h e st'
    | r => r
    end.

(** [try: m  except C: h], for a class [C] that has no subclass. *)
Definition try_except_only {W A} (class : string) (m : M W A) (h : M W A) : M W A :=
  λ st,
    match m st with
    | (Raise e, st') => if String.eqb (exn_class e) class then h st' else (Raise e, st')
    | r => r
    end.

(** A builtin that returns or raises. *)
Definition lift {W A} (r : exn + A) : M W A :=
  match r with
  | inl e => raise e
  | inr a => ret a
  end.

Declare Scope py_scope.
Delimit Scope py_scope with py.
Notation "x <- m ;; k" := (bind m (λ x, k))
  (at level 100, m at next level, right associativity) : py_scope.
Notation "m ;;; k" := (bind m (λ _, k))
  (at level 100, right associativity) : py_scope.
Local Open Scope py_scope.

(** ** The class [WorkflowEngine] *)

Definition with_world {W} (w : W) (st : Engine W) : Engine W :=
  mkEngine (workflows st) (executions st) (threads st) w.

Definition with_executions {W} (exs : list Execution) (st : Engine W) : Engine W :=
  mkEngine (workflows st) exs (threads st) (world st).

Definition with_threads {W} (ts : list (value * value)) (st : Engine W) : Engine W :=
  mkEngine (workflows st) (executions st) ts (world st).

(** An Execution is a dict that [self.executions] and the running method
    share: the methods hold a reference to it, which is its position in
    [self.executions] (nothing is ever removed from that list), and every
    assignment to one of its keys is an update in place. *)
Definition set_status (s : Status) (e : Execution) : Execution :=
  mkExecution (e_id e) (e_workflow_name e) s (e_start_time e) (e_parameters e)
    (e_steps e) (e_logs e) (e_end_time e) (e_error e).

Definition set_end_time (t : string) (e : Execution) : Execution :=
  mkExecution (e_id e) (e_workflow_name e) (e_status e) (e_start_time e) (e_parameters e)
    (e_steps e) (e_logs e) (Some t) (e_error e).

Definition set_error (msg : string) (e : Execution) : Execution :=
  mkExecution (e_id e) (e_workflow_name e) (e_status e) (e_start_time e) (e_parameters e)
    (e_steps e) (e_logs e) (e_end_time e) (Some msg).

Definition append_step (r : StepResult) (e : Execution) : Execution :=
  mkExecution (e_id e) (e_workflow_name e) (e_status e) (e_start_time e) (e_parameters e)
    (e_steps e ++ [r]) (e_logs e) (e_end_time e) (e_error e).

Definition append_log (line : string) (e : Execution) : Execution :=
  mkExecution (e_id e) (e_workflow_name e) (e_status e) (e_start_time e) (e_parameters e)
    (e_steps e) (e_logs e ++ [line]) (e_end_time e) (e_error e).

Definition finish_step (r : StepResult) (success : bool) (output : value) (error : string)
    : StepResult :=
  mkStepResult (sr_name r) (sr_action r) (sr_start_time r) success output error (sr_end_time r).

Definition set_step_end_time (t : string) (r : StepResult) : StepResult :=
  mkStepResult (sr_name r) (sr_action r) (sr_start_time r) (sr_success r) (sr_output r)
    (sr_error r) (Some t).

(** [v == s] for a string literal [s]. *)
Definition is_str (v : value) (s : string) : bool :=
  match v with
  | VS (SStr s') => String.eqb s' s
  | _ => false
  end.

(** [e['workflow_name'] == target] *)
Definition named (target : value) (e : Execution) : bool :=
  match target with
  | VS t => py_eq (e_workflow_name e) t
  | _ => false
  end.

(** [max(first :: rest, key=...)]: the first of the items whose key is
    largest, since the running maximum is replaced only by a strictly
    larger key. *)
Fixpoint py_max {A} (key : A → string) (best : A) (rest : list A) : A :=
  match rest with
  | [] => best
  | x :: rest' => py_max key (if String.ltb (key best) (key x) then x else best) rest'
  end.

(** The lookup inside the polling loop: the executions of the target, and
    the latest of them by ['start_time']. *)
Definition latest_execution (exs : list Execution) (target : value) : option Execution :=
  match List.filter (named target) exs with
  | [] => None
  | first :: rest => Some (py_max e_start_time first rest)
  end.

(** [elapsed < t] for an elapsed time in microseconds and a number [t] of
    seconds: [m * 2^e] seconds are [m * 2^e * 10^6] microseconds. *)
Definition micros_lt (elapsed : Z) (t : number) : bool :=
  match t with
  | NInt z => (elapsed <? z * 1000000)%Z
  | NFloat (FZero _) => (elapsed <? 0)%Z
  | NFloat (FInf negative) => negb negative
  | NFloat (FFinite negative m e) =>
      if (0 <=? e)%Z then (elapsed <? signed negative (Z.pos m * 2 ^ e) * 1000000)%Z
      else (elapsed * 2 ^ (- e) <? signed negative (Z.pos m) * 1000000)%Z
  end.

(** [time.time() - start_time < timeout_seconds], the elapsed time in
    microseconds. *)
Definition elapsed_lt (elapsed : Z) (timeout_seconds : value) : exn + bool :=
  match as_number timeout_seconds with
  | Some t => inr (micros_lt elapsed t)
  | None =>
      inl (TypeError ("'<' not supported between instances of 'float' and '"
                      +:+ type_name timeout_seconds +:+ "'"))
  end.

(** The most seconds whose nanoseconds fit a C [int64]:
    [9223372036 * 10^9 <= 2^63 - 1 < 9223372037 * 10^9]. *)
Definition sleep_max : Z := 9223372036.

Definition int64_min : Z := - 2 ^ 63.

Definition to_spec (f : pyfloat) : SpecFloat.spec_float :=
  match f with
  | FZero negative => SpecFloat.S754_zero negative
  | FInf negative => SpecFloat.S754_infinity negative
  | FFinite negative m e => SpecFloat.S754_finite negative m e
  end.

(** The integer next to [m * 2^e] away from zero. *)
Definition round_up (m : positive) (e : Z) : Z :=
  if (0 <=? e)%Z then Z.pos m * 2 ^ e else (Z.pos m + 2 ^ (- e) - 1) / 2 ^ (- e).

(** The nanoseconds that [time.sleep] makes of its argument, or [None] when
    it raises [OverflowError].  The seconds of an [int] are multiplied in
    a C [int64].  The seconds of a [float] are multiplied by [1e9] in
    binary64, rounded away from zero to an integer and, from [-2^63] to
    [2^63], cast to [int64]; the cast of [2^63] itself gives [-2^63]. *)
Definition sleep_nanoseconds (n : number) : option Z :=
  match n with
  | NInt z =>
      if ((z <? - sleep_max) || (sleep_max <? z))%Z then None else Some (z * 1000000000)%Z
  | NFloat f =>
      match SpecFloat.SFmul 53 1024 (to_spec f) (SpecFloat.S754_finite false 1000000000 0) with
      | SpecFloat.S754_zero _ => Some 0%Z
      | SpecFloat.S754_finite negative m e =>
          let d := signed negative (round_up m e) in
          if ((d <? int64_min) || (- int64_min <? d))%Z then None
          else if (d =? - int64_min)%Z then Some int64_min
          else Some d
      | _ => None
      end
  end.

Section WorkflowEngine.
Context {W : Type} (env : Env W).

(** [str(v)] *)
Definition str (v : value) : string := py_str (repr_str env) (repr_float env) v.

Definition gets {A} (f : Engine W → A) : M W A := λ st, (Ret (f st), st).

(** [time.time()] *)
Definition time_time : M W Z :=
  λ st, (Ret (clock env (world st)), with_world (tick env (world st)) st).

(** [datetime.now().isoformat()] *)
Definition datetime_now : M W string :=
  λ st, (Ret (isoformat_now env (world st)), with_world (tick env (world st)) st).

(** The thread was blocked until the world was [w]; other threads ran. *)
Definition blocked (w : W) : M W unit :=
  λ st, (Ret tt, with_world w (with_executions (concurrently env w (executions st)) st)).

(** [time.sleep(d)]: the seconds are converted to nanoseconds, which can
    overflow; the sign is tested after the conversion; then the system is
    asked to sleep, which it can refuse. *)
Definition time_sleep (d : value) : M W unit :=
  match as_number d with
  | None =>
      raise (TypeError ("'" +:+ type_name d +:+ "' object cannot be interpreted as an integer"))
  | Some n =>
      match sleep_nanoseconds n with
      | None => raise (OverflowError (sleep_overflow env))
      | Some ns =>
          if (ns <? 0)%Z then raise (ValueError "sleep length must be non-negative")
          else
            λ st,
              match sleep env ns (world st) with
              | (None, w) => blocked w st
              | (Some e, w) => (blocked w;;; raise e) st
              end
      end
  end.

(** [self.executions.append(execution)]; the result is the reference. *)
Definition append_execution (e : Execution) : M W nat :=
  λ st, (Ret (List.length (executions st)), with_executions (executions st ++ [e]) st).

(** An assignment to a key of the Execution behind the reference. *)
Definition mutate (execution : nat) (f : Execution → Execution) : M W unit :=
  λ st, (Ret tt, with_executions (alter f execution (executions st)) st).

(** [threading.Thread(target=...).start()]: the call returns once the new
    thread runs, and the new thread and the others may have run by then; or
    it raises, and there is no new thread. *)
Definition start_thread (target parameters : value) : M W unit :=
  λ st,
    match thread_start env (world st) with
    | (None, w) => blocked w (with_threads (threads st ++ [(target, parameters)]) st)
    | (Some e, w) => (blocked w;;; raise e) st
    end.

(** [subprocess.run(command, shell=True, capture_output=True, text=True,
    timeout=t)]: the output of a command that has exited is decoded, the
    standard output first. *)
Definition subprocess_run (command : value) (t : Z) : M W CompletedProcess :=
  λ st,
    match run_command env command t (world st) with
    | (Exited code out err, w) =>
        (blocked w;;;
         out <- lift (decode env out);;
         err <- lift (decode env err);;
         ret (mkCompletedProcess (universal_newlines out) (universal_newlines err) code)) st
    | (TimedOut, w) =>
        (blocked w;;;
         raise (TimeoutExpired ("Command '" +:+ str command +:+ "' timed out after "
                                +:+ pretty t +:+ " seconds"))) st
    | (NotStarted e, w) => (blocked w;;; raise e) st
    end.

Definition execute_shell_command (command : value) : M W value :=
  try_except_only "TimeoutExpired"
    (result <- subprocess_run command 30;;
     ret (VDict [("stdout", VStr (stdout result));
                 ("stderr", VStr (stderr result));
                 ("returncode", VInt (returncode result))]))
    (raise (Exception "Command timed out")).

Definition execute_http_request (step : value) : M W value :=
  url <- lift (py_get step "url" VNone);;
  m <- lift (py_get step "method" (VStr "GET"));;
  method <- match m with
            | VS (SStr s) => ret (str_upper env s)
            | _ => raise (AttributeError
                            ("'" +:+ type_name m +:+ "' object has no attribute 'upper'"))
            end;;
  hdrs <- lift (py_get step "headers" (VDict []));;
  data <- lift (py_get step "data" (VDict []));;
  let json :=
    if existsb (String.eqb method) ["POST"; "PUT"; "PATCH"] then data else VNone in
  response <- (λ st,
    match requests_request env method url hdrs json 30 (world st) with
    | (inr response, w) => (blocked w;;; ret response) st
    | (inl e, w) => (blocked w;;; raise e) st
    end);;
  ret (VDict [("status_code", VInt (status_code response));
              ("headers", VDict (map (λ kv, (fst kv, VStr (snd kv))) (headers response)));
              ("body", VStr (substring 0 1000 (text response)))]).

(** The [while] loop of [wait_for_workflow_completion]; one unit of fuel
    per test of its condition. *)
Fixpoint wait_loop (fuel : nat) (target_workflow timeout_seconds check_interval : value)
    (start_time : Z) : M W value :=
  match fuel with
  | O => out_of_fuel
  | S fuel' =>
      now <- time_time;;
      inside <- lift (elapsed_lt (now - start_time) timeout_seconds);;
      if inside : bool then
        exs <- gets executions;;
        found <- match latest_execution exs target_workflow with
                 | Some latest_execution =>
                     match e_status latest_execution with
                     | completed =>
                         match e_end_time latest_execution with
                         | Some end_time =>
                             ret (Some (VStr ("Workflow '" +:+ str target_workflow
                                              +:+ "' completed successfully at " +:+ end_time)))
                         | None => raise (KeyError (repr_str env "end_time"))
                         end
                     | failed =>
                         raise (Exception ("Workflow '" +:+ str target_workflow +:+ "' failed"))
                     | running => ret None
                     end
                 | None => ret None
                 end;;
        match found with
        | Some result => ret result
        | None =>
            time_sleep check_interval;;;
            wait_loop fuel' target_workflow timeout_seconds check_interval start_time
        end
      else
        raise (Exception ("Timeout waiting for workflow '" +:+ str target_workflow
                          +:+ "' to complete"))
  end.

Definition wait_for_workflow_completion (fuel : nat) (step : value) : M W value :=
  target_workflow <- lift (py_get step "workflow_name" VNone);;
  timeout_seconds <- lift (py_get step "timeout" (VInt 300));;
  check_interval <- lift (py_get step "check_interval" (VInt 5));;
  start_time <- time_time;;
  wait_loop fuel target_workflow timeout_seconds check_interval start_time.

Definition trigger_workflow (step : value) : M W value :=
  target_workflow <- lift (py_get step "workflow_name" VNone);;
  parameters <- lift (py_get step "parameters" (VDict []));;
  name <- lift (py_hash target_workflow);;
  ws <- gets workflows;;
  match ws !! key_of name with
  | None => raise (ValueError ("Target workflow '" +:+ str target_workflow +:+ "' not found"))
  | Some _ =>
      start_thread target_workflow parameters;;;
      ret (VStr ("Triggered workflow '" +:+ str target_workflow
                 +:+ "' with parameters: " +:+ str parameters))
  end.

(** The [if]/[elif] chain of [execute_step]: the output of the step. *)
Definition dispatch (fuel : nat) (step action : value) : M W value :=
  if is_str action "shell" then
    command <- lift (py_get step "command" (VStr ""));;
    execute_shell_command command
  else if is_str action "http_request" then
    execute_http_request step
  else if is_str action "log" then
    lift (py_get step "message" (VStr "Log message"))
  else if is_str action "delay" then
    delay_seconds <- lift (py_get step "seconds" (VInt 1));;
    time_sleep delay_seconds;;;
    ret (VStr ("Delayed for " +:+ str delay_seconds +:+ " seconds"))
  else if is_str action "wait_for_workflow" then
    wait_for_workflow_completion fuel step
  else if is_str action "trigger_workflow" then
    trigger_workflow step
  else
    raise (ValueError ("Unknown action: " +:+ str action)).

Definition execute_step (fuel : nat) (step parameters : value) (execution : nat)
    : M W StepResult :=
  step_name <- lift (py_get step "name" (VStr "unnamed_step"));;
  action <- lift (py_get step "action" VNone);;
  mutate execution (append_log ("Executing step: " +:+ str step_name));;;
  start_time <- datetime_now;;
  let step_result := mkStepResult step_name action start_time false (VStr "") "" None in
  step_result <- try_except
                   (result <- dispatch fuel step action;;
                    ret (finish_step step_result true result ""))
                   (λ e, ret (finish_step step_result false (VStr "") (str_exn e)));;
  end_time <- datetime_now;;
  ret (set_step_end_time end_time step_result).

(** The [for] loop of [execute_workflow] and what follows it inside the
    [try]. *)
Fixpoint for_steps (fuel : nat) (steps : list value) (parameters : value) (execution : nat)
    : M W unit :=
  match steps with
  | step :: steps' =>
      step_result <- execute_step fuel step parameters execution;;
      mutate execution (append_step step_result);;;
      if sr_success step_result then for_steps fuel steps' parameters execution
      else
        mutate execution (set_status failed);;;
        end_time <- datetime_now;;
        mutate execution (set_end_time end_time)
  | [] =>
      mutate execution (set_status completed);;;
      end_time <- datetime_now;;
      mutate execution (set_end_time end_time)
  end.

(** The body of the [try] of [execute_workflow]. *)
Definition run_steps (fuel : nat) (workflow parameters : value) (execution : nat) : M W unit :=
  steps <- lift (py_get workflow "steps" (VList []));;
  steps <- lift (py_iter steps);;
  for_steps fuel steps parameters execution.

(** The [except Exception as e] of [execute_workflow]. *)
Definition run_failed (execution : nat) (e : exn) : M W unit :=
  mutate execution (set_status failed);;;
  mutate execution (set_error (str_exn e));;;
  end_time <- datetime_now;;
  mutate execution (set_end_time end_time).

(** The head of [execute_workflow] once the workflow is found: the id, the
    new Execution, and its append to [self.executions].  The result is the
    reference to the Execution. *)
Definition new_execution (workflow_name : value) (name : scalar) (parameters : value)
    : M W nat :=
  now <- time_time;;
  let execution_id := str workflow_name +:+ "_" +:+ pretty (now `quot` 1000000)%Z in
  start_time <- datetime_now;;
  append_execution
    (mkExecution execution_id name running start_time
       (if py_truthy parameters then parameters else VDict [])
       [] [] None None).

(** The result is the reference to the Execution of the run. *)
Definition execute_workflow (fuel : nat) (workflow_name parameters : value) : M W nat :=
  name <- lift (py_hash workflow_name);;
  ws <- gets workflows;;
  match ws !! key_of name with
  | None => raise (ValueError ("Workflow '" +:+ str workflow_name +:+ "' not found"))
  | Some workflow =>
      execution <- new_execution workflow_name name parameters;;
      try_except (run_steps fuel workflow parameters execution) (run_failed execution);;;
      ret execution
  end.

(** [v[k]] for a string [k]. *)
Definition py_getitem (v : value) (k : string) : exn + value :=
  match v with
  | VDict d =>
      match dict_lookup d k with
      | Some x => inr x
      | None => inl (KeyError (repr_str env k))
      end
  | VList _ => inl (TypeError "list indices must be integers or slices, not str")
  | VS (SStr _) => inl (TypeError "string indices must be integers, not 'str'")
  | _ => inl (TypeError ("'" +:+ type_name v +:+ "' object is not subscriptable"))
  end.

(** The body of the [for] loop of [load_workflows], for one file of
    [/app/workflows]: what [yaml.safe_load] made of it, or the exception
    that opening or parsing it raised. *)
Definition load_workflow_file (file : exn + value) : M W unit :=
  try_except
    (workflow_data <- lift file;;
     name <- lift (py_getitem workflow_data "name");;
     name <- lift (py_hash name);;
     (λ st, (Ret tt, mkEngine (<[key_of name := workflow_data]> (workflows st))
                       (executions st) (threads st) (world st))))
    (λ e, ret tt).

(** The [for] loop of [load_workflows] over the files that the [glob]
    yields. *)
Fixpoint for_files (files : list (exn + value)) : M W unit :=
  match files with
  | [] => ret tt
  | file :: files' => load_workflow_file file;;; for_files files'
  end.

(** A call that raises [e], if there is one. *)
Definition raising (e : option exn) : M W unit :=
  match e with
  | Some e => raise e
  | None => ret tt
  end.

(** [mkdir] and the [glob] are outside the [try]. *)
Definition load_workflows (dir : Directory) : M W unit :=
  raising (mkdir_raises dir);;;
  for_files (yielded dir);;;
  raising (glob_raises dir).
End WorkflowEngine.

(** ** The handlers that read the history *)

(** [engine.executions[-10:]], the body of [list_executions]. *)
Definition list_executions {W} (engine : Engine W) : list Execution :=
  drop (List.length (executions engine) - 10) (executions engine).

(** [get_execution]: the first Execution with the id, or the 404. *)
Definition get_execution {W} (engine : Engine W) (execution_id : string) : option Execution :=
  List.find (λ execution, String.eqb (e_id execution) execution_id) (executions engine).

(** ** The queries in the words of the specification *)

(** [recent(limit)]: the [limit] most recent Executions, most recent first.
    The history is in creation order, so these are its last [limit] items,
    reversed. *)
Definition recent (limit : nat) (history : list Execution) : list Execution :=
  take limit (reverse history).

(** ** Notions used by the statements *)

(** The six step kinds of the [if]/[elif] chain. *)
Definition known_action (action : value) : bool :=
  is_str action "shell" || is_str action "http_request" || is_str action "log"
  || is_str action "delay" || is_str action "wait_for_workflow"
  || is_str action "trigger_workflow".

(** No other thread touches the Execution behind the reference: Executions
    are mutated only by the run that created them. *)
Definition quiet {W} (env : Env W) (execution : nat) : Prop :=
  ∀ w exs, (execution < List.length exs)%nat →
    concurrently env w exs !! execution = exs !! execution.

(** A clock that does not run backwards, and a sleep that lasts as long as
    asked: a sleep of [ns] nanoseconds that returns takes the microseconds
    in them. *)
Definition steady {W} (env : Env W) : Prop :=
  (∀ w, clock env w ≤ clock env (tick env w))
  ∧ (∀ ns w, 0 ≤ ns → (sleep env ns w).1 = None →
       clock env w + ns `div` 1000 ≤ clock env (sleep env ns w).2).

(** No Execution of the target enters the history while the step waits. *)
Definition absent {W} (env : Env W) (target : value) : Prop :=
  ∀ w exs, List.filter (named target) exs = [] →
    List.filter (named target) (concurrently env w exs) = [].

(** [time.sleep(d)] asks the system for a sleep of [ns] nanoseconds. *)
Definition sleeps (d : value) (ns : Z) : Prop :=
  ∃ n, as_number d = Some n ∧ sleep_nanoseconds n = Some ns ∧ 0 ≤ ns.

(** The window of a finite timeout of [t] seconds, in microseconds: the
    least elapsed time that is not less than [t] seconds.  An infinite
    timeout has none. *)
Definition window (t : number) : option Z :=
  match t with
  | NInt z => Some (z * 1000000)
  | NFloat (FZero _) => Some 0
  | NFloat (FInf _) => None
  | NFloat (FFinite negative m e) =>
      if (0 <=? e)%Z then Some (signed negative (Z.pos m * 2 ^ e) * 1000000)
      else Some ((signed negative (Z.pos m) * 1000000 + 2 ^ (- e) - 1) `div` 2 ^ (- e))
  end.

(** The sleep of [ns] nanoseconds that follows a test of the polling loop
    in the state [st] returns. *)
Definition rests {W} (env : Env W) (ns : Z) (st : Engine W) : Prop :=
  (sleep env ns (tick env (world st))).1 = None.

(** The target has no execution yet, or the latest of them is still
    running: the polling loop goes on. *)
Definition pending (target : value) (exs : list Execution) : Prop :=
  match latest_execution exs target with
  | Some latest => e_status latest = running
  | None => True
  end.

(** The engine at the next test of the condition of the polling loop, after
    a test in the state [st] that found the target pending: the clock was
    read, and the thread slept [ns] nanoseconds while the other threads
    ran. *)
Definition next_poll {W} (env : Env W) (ns : Z) (st : Engine W) : Engine W :=
  let w := (sleep env ns (tick env (world st))).2 in
  with_world w (with_executions (concurrently env w (executions st)) st).

(** The engine at the test number [n] of the loop, counted from 0 at [st]. *)
Fixpoint poll_state {W} (env : Env W) (ns : Z) (n : nat) (st : Engine W) : Engine W :=
  match n with
  | O => st
  | S n' => poll_state env ns n' (next_poll env ns st)
  end.

(** The iterations of the [for] loop of [execute_workflow] over [steps], as
    long as every step returns a successful StepResult: these StepResults
    and the state after the last append, or [None] when a step fails, raises
    or does not return. *)
Fixpoint run_prefix {W} (env : Env W) (fuel : nat) (steps : list value) (parameters : value)
    (execution : nat) (st : Engine W) : option (list StepResult * Engine W) :=
  match steps with
  | [] => Some ([], st)
  | step :: steps' =>
      match execute_step env fuel step parameters execution st with
      | (Ret r, st1) =>
          if sr_success r then
            match run_prefix env fuel steps' parameters execution
                    (mutate execution (append_step r) st1).2 with
            | Some (rs, st2) => Some (r :: rs, st2)
            | None => None
            end
          else None
      | _ => None
      end
  end.

(** The key under which [load_workflow_file] stores a file, if it does: the
    file parsed to a dict that has a hashable ['name']. *)
Definition loads_as {W} (env : Env W) (file : exn + value) : option pykey :=
  match file with
  | inr workflow_data =>
      match py_getitem env workflow_data "name" with
      | inr name =>
          match py_hash name with
          | inr name => Some (key_of name)
          | inl _ => None
          end
      | inl _ => None
      end
  | inl _ => None
  end.


(** A method keeps [P] true of the history. *)
Definition keeps {W A} (P : list Execution → Prop) (m : M W A) : Prop :=
  ∀ st, P (executions st) → P (executions (m st).2).

(** The state in which [execute_step] dispatches: the log line of the step
    appended, the start time of the step read. *)
Definition step_begun {W} (env : Env W) (step_name : value) (execution : nat) (st : Engine W)
    : Engine W :=
  with_world (tick env (world st))
    (with_executions
       (alter (append_log ("Executing step: " +:+ str env step_name)) execution
          (executions st)) st).

(** The state in which the loop of [execute_workflow] leaves the engine when
    the StepResult [r], returned in state [st], is a failure: [r] appended,
    the status and the end time set. *)
Definition halted {W} (env : Env W) (execution : nat) (r : StepResult) (st : Engine W)
    : Engine W :=
  with_executions
    (alter (set_end_time (isoformat_now env (world st))) execution
       (alter (set_status failed) execution
          (alter (append_step r) execution (executions st))))
    (with_world (tick env (world st)) st).

(** The engine once [execute_workflow] has appended the Execution of the
    run, before the [try]. *)
Definition created {W} (env : Env W) (workflow_name : scalar) (parameters : value)
    (st : Engine W) : Engine W :=
  (new_execution env workflow_name workflow_name parameters st).2.

(** Two Executions that the polling loop cannot tell apart. *)
Definition alike (e e' : Execution) : Prop :=
  e_workflow_name e' = e_workflow_name e ∧ e_start_time e' = e_start_time e
  ∧ e_status e' = e_status e ∧ e_end_time e' = e_end_time e.

(** An Execution without its log lines. *)
Definition erase_logs (e : Execution) : Execution :=
  mkExecution (e_id e) (e_workflow_name e) (e_status e) (e_start_time e) (e_parameters e)
    (e_steps e) [] (e_end_time e) (e_error e).

(** ** A sample world and sample workflows

    A world whose state is the clock: a reading takes a microsecond, a
    sleep that would end after the last nanosecond of a C [int64] is refused
    by the system, the command ["exit 3"] returns 3, the command
    ["sleep 60"] outlasts its timeout, the command ["printf '\377'"] writes
    the byte 255 and returns 0, any other command string is not found by
    the shell, and a command that is a number, a bool or [None] is not
    started; the encoding of the locale is UTF-8; no HTTP peer answers and
    no other thread runs. *)
Module Sample.
Definition continuation (c : ascii) : bool :=
  ((128 <=? N_of_ascii c) && (N_of_ascii c <? 192))%N.

(** The first error of the UTF-8 decoder in [raw], if there is one: the
    first byte of the sequence that cannot be decoded, its position, the
    position after the last byte that belongs to the error, and the
    reason. *)
Fixpoint utf8_scan (position : Z) (raw : string) : option (ascii * Z * Z * string) :=
  match raw with
  | EmptyString => None
  | String c rest =>
      let ch := N_of_ascii c in
      let invalid_start := Some (c, position, position + 1, "invalid start byte") in
      let invalid_continuation (k : Z) :=
        Some (c, position, position + k, "invalid continuation byte") in
      let unexpected_end (k : Z) :=
        Some (c, position, position + k, "unexpected end of data") in
      if (ch <? 128)%N then utf8_scan (position + 1) rest
      else if (ch <? 194)%N then invalid_start
      else if (ch <? 224)%N then
        match rest with
        | EmptyString => unexpected_end 1
        | String c2 rest2 =>
            if continuation c2 then utf8_scan (position + 2) rest2
            else invalid_continuation 1
        end
      else if (ch <? 240)%N then
        match rest with
        | EmptyString => unexpected_end 1
        | String c2 rest2 =>
            if negb (continuation c2)
               || (if (N_of_ascii c2 <? 160)%N then (ch =? 224)%N else (ch =? 237)%N)
            then invalid_continuation 1
            else
              match rest2 with
              | EmptyString => unexpected_end 2
              | String c3 rest3 =>
                  if continuation c3 then utf8_scan (position + 3) rest3
                  else invalid_continuation 2
              end
        end
      else if (ch <? 245)%N then
        match rest with
        | EmptyString => unexpected_end 1
        | String c2 rest2 =>
            if negb (continuation c2)
               || (if (N_of_ascii c2 <? 144)%N then (ch =? 240)%N else (ch =? 244)%N)
            then invalid_continuation 1
            else
              match rest2 with
              | EmptyString => unexpected_end 2
              | String c3 rest3 =>
                  if negb (continuation c3) then invalid_continuation 2
                  else
                    match rest3 with
                    | EmptyString => unexpected_end 3
                    | String c4 rest4 =>
                        if continuation c4 then utf8_scan (position + 4) rest4
                        else invalid_continuation 3
                    end
              end
        end
      else invalid_start
  end.

Definition hex_digit (n : N) : string := substring (N.to_nat n) 1 "0123456789abcdef".

(** [raw.decode('utf-8')]; a text is the bytes of its UTF-8 encoding. *)
Definition utf8_decode (raw : string) : exn + string :=
  match utf8_scan 0 raw with
  | None => inr raw
  | Some (c, start, stop, reason) =>
      inl (mkExn "UnicodeDecodeError"
             (if (stop =? start + 1)%Z then
                "'utf-8' codec can't decode byte 0x" +:+ hex_digit (N_of_ascii c / 16)
                +:+ hex_digit (N_of_ascii c mod 16) +:+ " in position " +:+ pretty start
                +:+ ": " +:+ reason
              else
                "'utf-8' codec can't decode bytes in position " +:+ pretty start +:+ "-"
                +:+ pretty (stop - 1) +:+ ": " +:+ reason))
  end.

(** The [k] decimal digits of [n], the most significant first. *)
Fixpoint digits (k : nat) (n : Z) : string :=
  match k with
  | O => EmptyString
  | S k' => digits k' (n / 10) +:+ pretty (n mod 10)
  end.

(** [n / 10^k] without its trailing zeros, but for one digit. *)
Fixpoint fraction (k : nat) (n : Z) : string :=
  match k with
  | O => EmptyString
  | S k' =>
      match k' with
      | O => digits k n
      | S _ => if (n mod 10 =? 0)%Z then fraction k' (n / 10) else digits k n
      end
  end.

(** The decimal expansion of a float, which is what [repr] prints for the
    floats of the samples: they have few digits and are neither large nor
    small. *)
Definition decimal (f : pyfloat) : string :=
  match f with
  | FZero negative => if negative then "-0.0" else "0.0"
  | FInf negative => if negative then "-inf" else "inf"
  | FFinite negative m e =>
      (if negative then "-" else "")
      +:+ (if (0 <=? e)%Z then pretty (Z.pos m * 2 ^ e) +:+ ".0"
           else
             let k := Z.to_nat (- e) in
             pretty (Z.pos m / 2 ^ (- e)) +:+ "."
             +:+ fraction k ((Z.pos m mod 2 ^ (- e)) * 5 ^ (- e)))
  end.

Definition env : Env Z := {|
  clock w := w;
  isoformat_now w := "T+" +:+ pretty w;
  tick w := w + 1;
  sleep ns w :=
    if (9223372036854775807 <? w * 1000 + ns)%Z
    then (Some (mkExn "OSError" "[Errno 22] Invalid argument"), w)
    else (None, w + ns / 1000);
  sleep_overflow := "timestamp too large to convert to C _PyTime_t";
  thread_start w := (None, w + 100);
  run_command command t w :=
    match command with
    | VS (SStr s) =>
        if String.eqb s "exit 3" then (Exited 3 "" "", w + 1000)
        else if String.eqb s "sleep 60" then (TimedOut, w + t * 1000000)
        else if String.eqb s "printf '\377'" then (Exited 0 (String "255" "") "", w + 1000)
        else (Exited 127 "" ("/bin/sh: 1: " +:+ s +:+ ": not found" +:+ String "010" ""),
              w + 1000)
    | VS _ =>
        (NotStarted (TypeError ("'" +:+ type_name command +:+ "' object is not iterable")), w)
    | _ => (Exited 127 "" "", w + 1000)
    end;
  decode := utf8_decode;
  requests_request method url hdrs json t w :=
    (inl (mkExn "ConnectionError" "connection refused"), w + 1000);
  concurrently w exs := exs;
  repr_str s := "'" +:+ s +:+ "'";
  repr_float := decimal;
  str_upper s := s;
|}.

Definition step (name action : string) (keys : list (string * value)) : value :=
  VDict (("name", VStr name) :: ("action", VStr action) :: keys).

(** Three steps, the second of an unknown kind. *)
Definition deploy : value :=
  VDict [("name", VStr "deploy");
         ("steps", VList [step "announce" "log" [("message", VStr "starting")];
                          step "build" "compile" [];
                          step "done" "log" []])].

(** A step that is a string, not a mapping. *)
Definition broken : value :=
  VDict [("name", VStr "broken"); ("steps", VList [VStr "echo hello"])].

(** A document with a name and an empty step list, and one without a name. *)
Definition idle : value := VDict [("name", VStr "idle"); ("steps", VList [])].
Definition nameless : value := VDict [("steps", VList [step "s" "log" []])].

Definition files : list (exn + value) :=
  [inr deploy; inr nameless; inl (mkExn "ScannerError" "mapping values are not allowed here");
   inr broken].

Definition directory : Directory := mkDirectory None files None.

Definition empty : Engine Z := mkEngine ∅ [] [] 1700000000000000.

(** The engine after [load_workflows]. *)
Definition engine : Engine Z := (load_workflows env directory empty).2.

Definition run (name : string) (status : Status) (start_time : string)
    (end_time : option string) : Execution :=
  mkExecution (name +:+ "_1700000000") (SStr name) status start_time (VDict []) [] []
    end_time None.

Definition wait (keys : list (string * value)) : value :=
  step "gate" "wait_for_workflow" (("workflow_name", VStr "deploy") :: keys).

(** The engine with one run of ["deploy"] begun, and with one run of it
    completed. *)
Definition started : Engine Z := created env (SStr "deploy") (VDict []) engine.
Definition deployed : Engine Z :=
  with_executions [run "deploy" completed "2024-05-01T10:00:00.250000"
                     (Some "2024-05-01T10:00:02.500000")] engine.
End Sample.

(** ** The construction of the engine and the lookup of a definition *)

(** [WorkflowEngine.__init__] in a world [w]: an empty catalog, an empty
    history, then [load_workflows]; what [load_workflows] raises,
    [__init__] raises, and then there is no engine. *)
Definition init {W} (env : Env W) (dir : Directory) (w : W) : outcome unit * Engine W :=
  load_workflows env dir (mkEngine ∅ [] [] w).

(** [get_workflow]: the definition under the name of the URL, or the 404. *)
Definition get_workflow {W} (engine : Engine W) (workflow_name : string) : option value :=
  workflows engine !! KStr workflow_name.

(** ** More notions used by the statements *)

(** The document of the last of the files that load under the key [k]. *)
Fixpoint last_loaded {W} (env : Env W) (k : pykey) (files : list (exn + value))
    : option value :=
  match files with
  | [] => None
  | file :: files' =>
      match last_loaded env k files' with
      | Some d => Some d
      | None =>
          match file with
          | inr d => if decide (loads_as env file = Some k) then Some d else None
          | inl _ => None
          end
      end
  end.

(** A method leaves the catalog as it is. *)
Definition keeps_catalog {W A} (m : M W A) : Prop :=
  ∀ st, workflows (m st).2 = workflows st.

(** No other thread runs. *)
Definition alone {W} (env : Env W) : Prop :=
  ∀ w exs, concurrently env w exs = exs.

(** What an Execution is created with: its id, the name of its workflow,
    its start time and its parameters. *)
Definition identity (e : Execution) : string * scalar * string * value :=
  (e_id e, e_workflow_name e, e_start_time e, e_parameters e).

(** The StepResults all succeeded. *)
Definition all_succeeded (rs : list StepResult) : Prop :=
  Forall (λ r, sr_success r = true) rs.

(** More samples: a workflow of two log steps, one without steps, one whose
    steps are null, and an engine built from their files. *)
Module Demo.
Definition notify : value :=
  VDict [("name", VStr "notify");
         ("steps", VList [Sample.step "hello" "log" [("message", VStr "build started")];
                          Sample.step "bye" "log" []])].

Definition bare : value := VDict [("name", VStr "bare")].

Definition hollow : value := VDict [("name", VStr "hollow"); ("steps", VNone)].

Definition numbered : value := VDict [("name", VInt 7); ("steps", VList [])].

Definition files : list (exn + value) :=
  [inr notify; inr bare; inr hollow; inr numbered; inr Sample.deploy; inr Sample.broken].

Definition directory : Directory := mkDirectory None files None.

Definition engine : Engine Z := (init Sample.env directory 1700000000000000).2.

(** A world like the sample one, but with an HTTP peer that answers the
    URL ["http://localhost:9101/flood"] with 1200 characters and every other
    request with a 404, and with the upper case of ASCII letters. *)
Definition upper_ascii (c : ascii) : ascii :=
  let n := nat_of_ascii c in
  if ((97 <=? n) && (n <=? 122))%nat then ascii_of_nat (n - 32) else c.

Fixpoint upper (s : string) : string :=
  match s with
  | EmptyString => EmptyString
  | String c s' => String (upper_ascii c) (upper s')
  end.

Fixpoint copies (n : nat) (s : string) : string :=
  match n with
  | O => EmptyString
  | S n' => s +:+ copies n' s
  end.

Definition flood : string := copies 600 "ab".

Definition online : Env Z := {|
  clock := clock Sample.env;
  isoformat_now := isoformat_now Sample.env;
  tick := tick Sample.env;
  sleep := sleep Sample.env;
  sleep_overflow := sleep_overflow Sample.env;
  thread_start := thread_start Sample.env;
  run_command := run_command Sample.env;
  decode := decode Sample.env;
  requests_request method url hdrs json t w :=
    if is_str url "http://localhost:9101/flood" then
      (inr (mkResponse 200 [("Content-Type", "text/plain")] flood), w + 2000)
    else (inr (mkResponse 404 [("Content-Type", "text/plain")] "no such page"), w + 2000);
  concurrently := concurrently Sample.env;
  repr_str := repr_str Sample.env;
  repr_float := repr_float Sample.env;
  str_upper := upper;
|}.

(** A world like the sample one, but with another thread that completes
    the runs of ["deploy"] one second after the sample engine was made. *)
Definition finishing : Env Z := {|
  clock := clock Sample.env;
  isoformat_now := isoformat_now Sample.env;
  tick := tick Sample.env;
  sleep := sleep Sample.env;
  sleep_overflow := sleep_overflow Sample.env;
  thread_start := thread_start Sample.env;
  run_command := run_command Sample.env;
  decode := decode Sample.env;
  requests_request := requests_request Sample.env;
  concurrently w exs :=
    if (1700000001000000 <=? w)%Z then
      map (λ e, if named (VStr "deploy") e
                then set_end_time "T+1700000001000000" (set_status completed e) else e) exs
    else exs;
  repr_str := repr_str Sample.env;
  repr_float := repr_float Sample.env;
  str_upper := str_upper Sample.env;
|}.
End Demo.

(** * Properties *)

Local Open Scope list_scope.

(** ** The order on strings that [max] uses *)

Lemma ascii_compare_refl (c : ascii) : Ascii.compare c c = Eq.
Proof. unfold Ascii.compare. apply N.compare_refl. Qed.

Lemma ascii_compare_lt_trans (a b c : ascii) :
  Ascii.compare a b = Lt → Ascii.compare b c = Lt → Ascii.compare a c = Lt.
Proof.
  unfold Ascii.compare. rewrite !N.compare_lt_iff. intros. etrans; eauto.
Qed.

Lemma string_compare_refl (s : string) : String.compare s s = Eq.
Proof. induction s as [|c s IH]; simpl; [done|]. by rewrite ascii_compare_refl. Qed.

Lemma string_compare_eq (s t : string) : String.compare s t = Eq ↔ s = t.
Proof.
  split; [apply String.compare_eq_iff|]. intros ->. apply string_compare_refl.
Qed.

Lemma string_compare_lt_trans (s t u : string) :
  String.compare s t = Lt → String.compare t u = Lt → String.compare s u = Lt.
Proof.
  revert t u. induction s as [|a s IH]; intros [|b t] [|c u]; simpl; try done.
  destruct (Ascii.compare a b) eqn:Hab; try done.
  - apply Ascii.compare_eq_iff in Hab as ->.
    destruct (Ascii.compare b c); try done. apply IH.
  - intros _. destruct (Ascii.compare b c) eqn:Hbc; try done.
    + apply Ascii.compare_eq_iff in Hbc as <-. by rewrite Hab.
    + by rewrite (ascii_compare_lt_trans a b c).
Qed.

Lemma string_ltb_lt (s t : string) : String.ltb s t = true ↔ String.compare s t = Lt.
Proof. unfold String.ltb. destruct (String.compare s t); naive_solver. Qed.

Lemma string_ltb_trans (s t u : string) :
  String.ltb s t = true → String.ltb t u = true → String.ltb s u = true.
Proof. rewrite !string_ltb_lt. apply string_compare_lt_trans. Qed.

Lemma string_ltb_irrefl (s : string) : String.ltb s s = false.
Proof. unfold String.ltb. by rewrite string_compare_refl. Qed.

(** [t <= s] and [s < u] give [t < u]. *)
Lemma string_nlt_lt_trans (s t u : string) :
  String.ltb s t = false → String.ltb s u = true → String.ltb t u = true.
Proof.
  rewrite !string_ltb_lt. unfold String.ltb.
  destruct (String.compare s t) eqn:Hst; try done; intros _ Hsu.
  - apply string_compare_eq in Hst. by subst.
  - apply (string_compare_lt_trans t s u); [|done].
    rewrite (String.compare_antisym t s). rewrite Hst. done.
Qed.

Lemma string_nlt_leb (s t : string) : String.ltb s t = false ↔ String.leb t s = true.
Proof.
  unfold String.ltb, String.leb. rewrite (String.compare_antisym t s).
  destruct (String.compare s t); simpl; naive_solver.
Qed.

(** ** [max]: the first of the largest *)

Lemma py_max_first {A} (key : A → string) (before : list A) (best : A) (between rest : list A) :
  Forall (λ x, String.ltb (key x) (key best) = true) before →
  Forall (λ x, String.ltb (key best) (key x) = false) between →
  ∃ l1 l2,
    before ++ best :: between ++ rest = l1 ++ py_max key best rest :: l2
    ∧ Forall (λ x, String.ltb (key x) (key (py_max key best rest)) = true) l1
    ∧ Forall (λ x, String.ltb (key (py_max key best rest)) (key x) = false) l2.
Proof.
  revert before best between.
  induction rest as [|x rest IH]; intros before best between Hbefore Hbetween; simpl.
  - exists before, between. by rewrite app_nil_r.
  - destruct (String.ltb (key best) (key x)) eqn:Hlt.
    + destruct (IH (before ++ best :: between) x []) as (l1 & l2 & Heq & H1 & H2).
      * apply Forall_app. split; [|apply Forall_cons; split; [done|]].
        -- eapply Forall_impl; [exact Hbefore|]. simpl. intros y Hy.
           by apply (string_ltb_trans _ (key best)).
        -- eapply Forall_impl; [exact Hbetween|]. simpl. intros y Hy.
           by apply (string_nlt_lt_trans (key best)).
      * constructor.
      * exists l1, l2. split; [|done]. rewrite <- Heq. by rewrite <- !app_assoc.
    + destruct (IH before best (between ++ [x])) as (l1 & l2 & Heq & H1 & H2).
      * done.
      * apply Forall_app. split; [done|]. by apply Forall_singleton.
      * exists l1, l2. split; [|done]. rewrite <- Heq. by rewrite <- !app_assoc.
Qed.

(** ** The latest execution of a workflow *)

Lemma latest_execution_none (exs : list Execution) (target : value) :
  latest_execution exs target = None ↔ List.filter (named target) exs = [].
Proof. unfold latest_execution. destruct (List.filter _ _); naive_solver. Qed.

(** C7, as the code has it: among the executions of the target, the lookup
    of the wait step picks one whose start time no other exceeds, and every
    execution appended before the picked one has a strictly smaller start
    time: on equal start times the one appended first wins.  Without an
    execution of the target there is no latest one. *)
Theorem latest_execution_first_of_latest (exs : list Execution) (target : value) :
  match latest_execution exs target with
  | Some latest =>
      ∃ earlier later,
        List.filter (named target) exs = earlier ++ latest :: later
        ∧ Forall (λ e, String.ltb (e_start_time e) (e_start_time latest) = true) earlier
        ∧ Forall (λ e, String.leb (e_start_time e) (e_start_time latest) = true) later
  | None => List.filter (named target) exs = []
  end.
Proof.
  unfold latest_execution. destruct (List.filter _ _) as [|first rest]; [done|].
  destruct (py_max_first e_start_time [] first [] rest) as (l1 & l2 & Heq & H1 & H2);
    [constructor..|].
  exists l1, l2. split; [done|]. split; [done|].
  eapply Forall_impl; [exact H2|]. intros e. apply string_nlt_leb.
Qed.

(** C7, the tie: two executions of one workflow with the same start time;
    the lookup returns the one appended first, not the one appended last. *)
Lemma latest_execution_tie_counterexample :
  let first := Sample.run "deploy" failed "2024-05-01T10:00:00.250000"
                 (Some "2024-05-01T10:00:00.900000") in
  let second := Sample.run "deploy" completed "2024-05-01T10:00:00.250000"
                  (Some "2024-05-01T10:00:00.700000") in
  e_start_time first = e_start_time second
  ∧ latest_execution [first; second] (VStr "deploy") = Some first
  ∧ latest_execution [first; second] (VStr "deploy") ≠ Some second.
Proof. repeat split. intros H. discriminate H. Qed.

(** ** The list of recent executions *)

(** C6, as the code has it: the handler takes no limit; it returns the last
    ten Executions of the history, or all of them when there are fewer, in
    the order of the history, the oldest of them first: the reverse of what
    [recent 10] asks for. *)
Theorem list_executions_last_ten {W} (engine : Engine W) :
  list_executions engine = reverse (recent 10 (executions engine))
  ∧ List.length (list_executions engine) = (10 `min` List.length (executions engine))%nat
  ∧ ∃ older, executions engine = older ++ list_executions engine.
Proof.
  unfold list_executions, recent. split; [|split].
  - by rewrite take_reverse, reverse_involutive.
  - rewrite length_drop. lia.
  - exists (take (List.length (executions engine) - 10) (executions engine)).
    by rewrite take_drop.
Qed.

(** C6, the order and the limit: on a history of two Executions the handler
    answers with both, the older first, which is [recent limit] of the
    history for no [limit]. *)
Lemma list_executions_counterexample :
  let older := Sample.run "deploy" completed "2024-05-01T10:00:00" (Some "2024-05-01T10:00:02") in
  let newer := Sample.run "idle" completed "2024-05-01T11:00:00" (Some "2024-05-01T11:00:01") in
  let engine := with_executions [older; newer] Sample.engine in
  list_executions engine = [older; newer]
  ∧ recent 1 (executions engine) = [newer]
  ∧ ∀ limit, list_executions engine ≠ recent limit (executions engine).
Proof.
  repeat split. intros [|[|[|limit]]] H; discriminate H.
Qed.

(** ** Running a workflow that is not in the catalog *)

Section Engine.
Context {W : Type} (env : Env W).

(** C8: a run of a name that is not a key of [self.workflows] raises the
    [ValueError] that says so and leaves the engine as it was: the history
    of executions, in particular, is the same as before the call. *)
Theorem execute_workflow_unknown_name (fuel : nat) (workflow_name : scalar)
    (parameters : value) (st : Engine W) :
  workflows st !! key_of workflow_name = None →
  execute_workflow env fuel workflow_name parameters st
  = (Raise (ValueError ("Workflow '" +:+ str env workflow_name +:+ "' not found")), st).
Proof.
  intros Hnone. unfold execute_workflow, bind, lift, gets, py_hash, ret. simpl.
  by rewrite Hnone.
Qed.

(** ** Loading the catalog *)

Lemma load_workflow_file_loaded (file : exn + value) (d : value) (k : pykey)
    (st : Engine W) :
  file = inr d → loads_as env file = Some k →
  load_workflow_file env file st
  = (Ret tt, mkEngine (<[k := d]> (workflows st)) (executions st) (threads st) (world st)).
Proof.
  intros -> Hk. unfold loads_as in Hk. unfold load_workflow_file, try_except, bind, lift. simpl.
  destruct (py_getitem env d "name") as [e|name]; [done|]. simpl.
  destruct (py_hash name) as [e|name']; [done|]. simpl. by simplify_eq.
Qed.

Lemma load_workflow_file_skipped (file : exn + value) (st : Engine W) :
  loads_as env file = None → load_workflow_file env file st = (Ret tt, st).
Proof.
  intros Hk. unfold loads_as in Hk. unfold load_workflow_file, try_except, bind, lift.
  destruct file as [e|d]; simpl; [done|].
  destruct (py_getitem env d "name") as [e|name]; [done|]. simpl.
  destruct (py_hash name) as [e|name']; [done|]. done.
Qed.

Lemma for_files_cons (file : exn + value) (files : list (exn + value)) (st : Engine W) :
  for_files env (file :: files) st
  = for_files env files (load_workflow_file env file st).2.
Proof.
  simpl. unfold bind.
  destruct (loads_as env file) as [k|] eqn:Hk.
  - destruct file as [e|d]; [done|].
    by rewrite (load_workflow_file_loaded (inr d) d k).
  - by rewrite load_workflow_file_skipped.
Qed.

Lemma for_files_app (files1 files2 : list (exn + value)) (st : Engine W) :
  for_files env (files1 ++ files2) st
  = for_files env files2 (for_files env files1 st).2.
Proof.
  revert st. induction files1 as [|file files1 IH]; intros st; [done|].
  rewrite <- app_comm_cons, !for_files_cons. apply IH.
Qed.

Lemma for_files_returns (files : list (exn + value)) (st : Engine W) :
  (for_files env files st).1 = Ret tt
  ∧ executions (for_files env files st).2 = executions st
  ∧ threads (for_files env files st).2 = threads st
  ∧ world (for_files env files st).2 = world st.
Proof.
  revert st. induction files as [|file files IH]; intros st; [done|].
  rewrite for_files_cons.
  destruct (IH (load_workflow_file env file st).2) as (-> & -> & -> & ->).
  destruct (loads_as env file) as [k|] eqn:Hk.
  - destruct file as [e|d]; [done|].
    by rewrite (load_workflow_file_loaded (inr d) d k).
  - by rewrite load_workflow_file_skipped.
Qed.

(** A key once loaded stays in the catalog, under a document of that key. *)
Lemma for_files_keeps (files : list (exn + value)) (k : pykey) (d : value)
    (st : Engine W) (known : list (exn + value)) :
  workflows st !! k = Some d → inr d ∈ known → loads_as env (inr d) = Some k →
  ∃ d', inr d' ∈ known ++ files ∧ loads_as env (inr d') = Some k
        ∧ workflows (for_files env files st).2 !! k = Some d'.
Proof.
  revert st d known. induction files as [|file files IH]; intros st d known Hd Hin Hk.
  - exists d. rewrite app_nil_r. done.
  - rewrite for_files_cons.
    destruct (loads_as env file) as [k'|] eqn:Hk'.
    + destruct file as [e|d0]; [done|].
      rewrite (load_workflow_file_loaded (inr d0) d0 k') by done. simpl.
      destruct (decide (k' = k)) as [->|Hne].
      * destruct (IH (mkEngine (<[k:=d0]> (workflows st)) (executions st) (threads st) (world st))
                    d0 (known ++ [inr d0])) as (d' & Hin' & Hk'' & Hl).
        -- simpl. apply lookup_insert_eq.
        -- set_solver.
        -- done.
        -- exists d'. by rewrite <- app_assoc in Hin'.
      * destruct (IH (mkEngine (<[k':=d0]> (workflows st)) (executions st) (threads st) (world st))
                    d (known ++ [inr d0])) as (d' & Hin' & Hk'' & Hl).
        -- simpl. by rewrite lookup_insert_ne.
        -- set_solver.
        -- done.
        -- exists d'. by rewrite <- app_assoc in Hin'.
    + rewrite load_workflow_file_skipped by done.
      destruct (IH st d (known ++ [file]) Hd) as (d' & Hin' & Hk'' & Hl); [set_solver|done|].
      exists d'. by rewrite <- app_assoc in Hin'.
Qed.

(** When the directory cannot be made nothing is read; otherwise the loop
    runs over all the files and only the [glob] can raise. *)
Lemma load_workflows_not_made (dir : Directory) (e : exn) (st : Engine W) :
  mkdir_raises dir = Some e → load_workflows env dir st = (Raise e, st).
Proof. intros Hmade. unfold load_workflows, bind, raising. by rewrite Hmade. Qed.

Lemma load_workflows_made (dir : Directory) (st : Engine W) :
  mkdir_raises dir = None →
  load_workflows env dir st
  = (match glob_raises dir with Some e => Raise e | None => Ret tt end,
     (for_files env (yielded dir) st).2).
Proof.
  intros Hmade. unfold load_workflows, bind, raising. rewrite Hmade. simpl.
  destruct (for_files_returns (yielded dir) st) as (Hret & _).
  destruct (for_files env (yielded dir) st) as [o st']. simpl in *. subst o.
  by destruct (glob_raises dir).
Qed.

(** C9, as the code has it: [load_workflows] raises what [mkdir] or the
    [glob] raise, which are outside the [try], and nothing else: no file
    makes it raise; when [mkdir] raises, nothing is read.  The load touches
    nothing but the catalog.  A file that does not parse, or whose document
    has no ['name'], is skipped, and removing it from the directory changes
    nothing; every file of a directory that could be made whose document has
    a hashable ['name'] ends up in the catalog under that name, whatever its
    ['steps'] are, an empty list included, and whatever the other files are
    (the entry is the document of a file of that name). *)
Theorem load_workflows_skips_unnamed_only (dir : Directory) (st : Engine W) :
  ((load_workflows env dir st).1
   = match mkdir_raises dir, glob_raises dir with
     | Some e, _ => Raise e
     | None, Some e => Raise e
     | None, None => Ret tt
     end
   ∧ executions (load_workflows env dir st).2 = executions st
   ∧ (is_Some (mkdir_raises dir) → (load_workflows env dir st).2 = st))
  ∧ (∀ e, loads_as env (inl e) = None)
  ∧ (∀ d, dict_lookup d "name" = None → loads_as env (inr (VDict d)) = None)
  ∧ (∀ d (name : scalar), dict_lookup d "name" = Some (VS name) →
       loads_as env (inr (VDict d)) = Some (key_of name))
  ∧ (∀ before file after, yielded dir = before ++ file :: after → loads_as env file = None →
       load_workflows env dir st
       = load_workflows env
           (mkDirectory (mkdir_raises dir) (before ++ after) (glob_raises dir)) st)
  ∧ (∀ d k, mkdir_raises dir = None → inr d ∈ yielded dir → loads_as env (inr d) = Some k →
       ∃ d', inr d' ∈ yielded dir ∧ loads_as env (inr d') = Some k
             ∧ workflows (load_workflows env dir st).2 !! k = Some d').
Proof.
  split; [|split; [|split; [|split; [|split]]]].
  - destruct (mkdir_raises dir) as [e|] eqn:Hmade.
    + rewrite (load_workflows_not_made dir e st Hmade). done.
    + rewrite (load_workflows_made dir st Hmade). simpl.
      split; [done|]. split; [apply for_files_returns|]. by intros [e He].
  - done.
  - intros d Hd. unfold loads_as, py_getitem. by rewrite Hd.
  - intros d name Hd. unfold loads_as, py_getitem. by rewrite Hd.
  - intros before file after Hfiles Hk.
    destruct (mkdir_raises dir) as [e|] eqn:Hmade.
    + by rewrite !(load_workflows_not_made _ e).
    + rewrite !load_workflows_made by done. simpl. rewrite Hfiles.
      rewrite !for_files_app, for_files_cons.
      by rewrite load_workflow_file_skipped.
  - intros d k Hmade Hin Hk. rewrite load_workflows_made by done. simpl.
    remember (yielded dir) as files eqn:Hfiles. clear Hfiles.
    apply list_elem_of_split in Hin as (before & after & ->).
    rewrite for_files_app, for_files_cons.
    rewrite (load_workflow_file_loaded (inr d) d k) by done. simpl.
    destruct (for_files_keeps after k d
                (mkEngine (<[k:=d]> (workflows (for_files env before st).2))
                   (executions (for_files env before st).2)
                   (threads (for_files env before st).2)
                   (world (for_files env before st).2))
                (before ++ [inr d])) as (d' & Hin' & Hk' & Hl).
    + simpl. apply lookup_insert_eq.
    + set_solver.
    + done.
    + exists d'. rewrite <- app_assoc in Hin'. done.
Qed.
End Engine.

(** C9, the empty step list: a document with a name and no steps is loaded
    into the catalog like any other. *)
Lemma load_workflows_empty_steps_counterexample :
  py_get Sample.idle "steps" VNone = inr (VList [])
  ∧ load_workflows Sample.env (mkDirectory None [inr Sample.idle] None) Sample.empty
    = (Ret tt, mkEngine {[ KStr "idle" := Sample.idle ]} [] [] 1700000000000000)
  ∧ workflows
      (load_workflows Sample.env (mkDirectory None [inr Sample.idle] None) Sample.empty).2
    !! KStr "idle"
    = Some Sample.idle.
Proof. split; [done|]. split; [|done]. vm_compute. reflexivity. Qed.

(** C8 on the sample engine: nobody loaded a workflow ["nightly"]. *)
Lemma execute_workflow_unknown_name_witness :
  workflows Sample.engine !! key_of (SStr "nightly") = None
  ∧ execute_workflow Sample.env 1 (VStr "nightly") (VDict []) Sample.engine
    = (Raise (ValueError "Workflow 'nightly' not found"), Sample.engine).
Proof.
  assert (H : workflows Sample.engine !! key_of (SStr "nightly") = None) by (vm_compute; reflexivity).
  split; [exact H|].
  exact (execute_workflow_unknown_name Sample.env 1 (SStr "nightly") (VDict []) Sample.engine H).
Defined.

(** ** Stepping through methods *)

Section Steps.
Context {W : Type} (env : Env W).

Lemma bind_ret {A B} (m : M W A) (k : A → M W B) (st st1 : Engine W) (a : A) :
  m st = (Ret a, st1) → bind m k st = k a st1.
Proof. unfold bind. by intros ->. Qed.

Lemma bind_raise {A B} (m : M W A) (k : A → M W B) (st st1 : Engine W) (e : exn) :
  m st = (Raise e, st1) → bind m k st = (Raise e, st1).
Proof. unfold bind. by intros ->. Qed.

Lemma bind_out_of_fuel {A B} (m : M W A) (k : A → M W B) (st st1 : Engine W) :
  m st = (OutOfFuel, st1) → bind m k st = (OutOfFuel, st1).
Proof. unfold bind. by intros ->. Qed.

Lemma execute_step_dict (fuel : nat) (d : list (string * value)) (parameters : value)
    (execution : nat) (st : Engine W) :
  let step_name := from_option id (VStr "unnamed_step") (dict_lookup d "name") in
  let action := from_option id VNone (dict_lookup d "action") in
  let r0 := mkStepResult step_name action (isoformat_now env (world st)) false (VStr "") ""
              None in
  execute_step env fuel (VDict d) parameters execution st
  = match dispatch env fuel (VDict d) action (step_begun env step_name execution st) with
    | (Ret result, st1) =>
        (Ret (set_step_end_time (isoformat_now env (world st1)) (finish_step r0 true result "")),
         with_world (tick env (world st1)) st1)
    | (Raise e, st1) =>
        (Ret (set_step_end_time (isoformat_now env (world st1))
                (finish_step r0 false (VStr "") (str_exn e))),
         with_world (tick env (world st1)) st1)
    | (OutOfFuel, st1) => (OutOfFuel, st1)
    end.
Proof.
  intros step_name action r0.
  unfold execute_step, bind, lift, try_except, mutate, datetime_now, ret, py_get. simpl.
  fold step_name action. unfold step_begun, with_world, with_executions. simpl.
  destruct (dispatch _ _ _ _ _) as [[result|e|] st1]; done.
Qed.

Lemma execute_step_not_dict (fuel : nat) (step parameters : value) (execution : nat)
    (st : Engine W) :
  (∀ d, step ≠ VDict d) →
  execute_step env fuel step parameters execution st
  = (Raise (AttributeError ("'" +:+ type_name step +:+ "' object has no attribute 'get'")), st).
Proof.
  intros Hd. unfold execute_step, bind, lift, py_get.
  destruct step as [s|l|d]; try done. by destruct (Hd d).
Qed.

(** A step that returns a failed StepResult is one whose dispatch raised,
    and the StepResult carries the message of the exception. *)
Lemma execute_step_failed (fuel : nat) (step parameters : value) (execution : nat)
    (st st' : Engine W) (r : StepResult) :
  execute_step env fuel step parameters execution st = (Ret r, st') →
  sr_success r = false →
  ∃ d e st1,
    step = VDict d
    ∧ dispatch env fuel step (sr_action r) (step_begun env (sr_name r) execution st) = (Raise e, st1)
    ∧ sr_error r = str_exn e ∧ sr_output r = VStr "".
Proof.
  destruct step as [s|l|d].
  - rewrite execute_step_not_dict; [done|]. intros d. done.
  - rewrite execute_step_not_dict; [done|]. intros d. done.
  - rewrite execute_step_dict. simpl.
    destruct (dispatch _ _ _ _ _) as [[result|e|] st1] eqn:Hd; intros [= <- <-]; simpl; [done|].
    intros _. exists d, e, st1. done.
Qed.
End Steps.

(** ** What a method keeps true of the history *)

Section Keeps.
Context {W : Type} (env : Env W).
Variable P : list Execution → Prop.

(** [P] survives what other threads do, and the log line of a step. *)
Hypothesis P_concurrently : ∀ w exs, P exs → P (concurrently env w exs).
Variable execution : nat.
Hypothesis P_append_log : ∀ line exs, P exs → P (alter (append_log line) execution exs).

Lemma keeps_ret {A} (a : A) : keeps P (ret (W:=W) a).
Proof. by intros st. Qed.

Lemma keeps_raise {A} (e : exn) : keeps P (raise (W:=W) (A:=A) e).
Proof. by intros st. Qed.

Lemma keeps_lift {A} (r : exn + A) : keeps P (lift (W:=W) r).
Proof. by destruct r; intros st. Qed.

Lemma keeps_bind {A B} (m : M W A) (k : A → M W B) :
  keeps P m → (∀ a, keeps P (k a)) → keeps P (bind m k).
Proof.
  intros Hm Hk st HP. unfold bind. specialize (Hm st HP).
  destruct (m st) as [[a|e|] st1]; simpl in *; [by apply Hk|done..].
Qed.

Lemma keeps_try_except {A} (m : M W A) (h : exn → M W A) :
  keeps P m → (∀ e, keeps P (h e)) → keeps P (try_except m h).
Proof.
  intros Hm Hh st HP. unfold try_except. specialize (Hm st HP).
  destruct (m st) as [[a|e|] st1]; simpl in *; [done|by apply Hh|done].
Qed.

Lemma keeps_time_time : keeps P (time_time env).
Proof. by intros st. Qed.

Lemma keeps_blocked (w : W) : keeps P (blocked env w).
Proof. intros st HP. simpl. by apply P_concurrently. Qed.

Lemma keeps_try_except_only {A} (class : string) (m h : M W A) :
  keeps P m → keeps P h → keeps P (try_except_only class m h).
Proof.
  intros Hm Hh st HP. unfold try_except_only. specialize (Hm st HP).
  destruct (m st) as [[a|e|] st1]; simpl in *; [done| |done].
  destruct (String.eqb _ _); [by apply Hh|done].
Qed.

Lemma keeps_time_sleep (d : value) : keeps P (time_sleep env d).
Proof.
  unfold time_sleep. destruct (as_number d) as [n|]; [|by intros st].
  destruct (sleep_nanoseconds n) as [ns|]; [|by intros st].
  destruct (ns <? 0); [by intros st|]. intros st HP.
  destruct (sleep env ns (world st)) as [[e|] w]; simpl; by apply P_concurrently.
Qed.

Lemma keeps_subprocess_run (command : value) (t : Z) :
  keeps P (subprocess_run env command t).
Proof.
  intros st HP. unfold subprocess_run.
  destruct (run_command env command t (world st)) as [[code out err| |e] w];
    unfold bind, blocked, lift; simpl; [|by apply P_concurrently..].
  destruct (decode env out); simpl; [by apply P_concurrently|].
  destruct (decode env err); simpl; by apply P_concurrently.
Qed.

Lemma keeps_execute_shell_command (command : value) :
  keeps P (execute_shell_command env command).
Proof.
  unfold execute_shell_command. apply keeps_try_except_only; [|by intros st].
  apply keeps_bind; [apply keeps_subprocess_run|by intros ? st].
Qed.

Lemma keeps_execute_http_request (step : value) : keeps P (execute_http_request env step).
Proof.
  unfold execute_http_request.
  repeat (apply keeps_bind; [try apply keeps_lift|intros ?]).
  - destruct a0 as [[]| |]; by intros st.
  - intros st HP. cbv beta.
    destruct (requests_request env _ _ _ _ _ (world st)) as [[e|response] w];
      simpl; by apply P_concurrently.
  - by intros st.
Qed.

Lemma keeps_wait_loop (fuel : nat) (target timeout_seconds check_interval : value)
    (start_time : Z) :
  keeps P (wait_loop env fuel target timeout_seconds check_interval start_time).
Proof.
  induction fuel as [|fuel IH]; simpl; [by intros st|].
  apply keeps_bind; [apply keeps_time_time|intros now].
  apply keeps_bind; [apply keeps_lift|intros [|]]; [|by intros st].
  apply keeps_bind; [by intros st|intros exs].
  apply keeps_bind.
  - destruct (latest_execution exs target) as [latest|]; [|by intros st].
    destruct (e_status latest); [by intros st| |by intros st].
    destruct (e_end_time latest); by intros st.
  - intros [result|]; [by intros st|].
    apply keeps_bind; [apply keeps_time_sleep|intros _; apply IH].
Qed.

Lemma keeps_dispatch (fuel : nat) (step action : value) :
  keeps P (dispatch env fuel step action).
Proof.
  unfold dispatch.
  repeat match goal with |- keeps _ (if ?b then _ else _) => destruct b end.
  - apply keeps_bind; [apply keeps_lift|intros ?; apply keeps_execute_shell_command].
  - apply keeps_execute_http_request.
  - apply keeps_lift.
  - apply keeps_bind; [apply keeps_lift|intros ?].
    apply keeps_bind; [apply keeps_time_sleep|intros ?; by intros st].
  - unfold wait_for_workflow_completion.
    repeat (apply keeps_bind; [try apply keeps_lift|intros ?]).
    + apply keeps_time_time.
    + apply keeps_wait_loop.
  - unfold trigger_workflow.
    repeat (apply keeps_bind; [try apply keeps_lift|intros ?]).
    + by intros st.
    + destruct (_ !! _); [|by intros st].
      apply keeps_bind; [|by intros ? st].
      intros st HP. unfold start_thread.
      destruct (thread_start env (world st)) as [[e|] w]; simpl; by apply P_concurrently.
  - by intros st.
Qed.

Lemma keeps_execute_step (fuel : nat) (step parameters : value) :
  keeps P (execute_step env fuel step parameters execution).
Proof.
  unfold execute_step.
  repeat (apply keeps_bind; [try apply keeps_lift|intros ?]).
  - intros st HP. simpl. by apply P_append_log.
  - by intros st.
  - apply keeps_try_except; [|by intros e st].
    apply keeps_bind; [apply keeps_dispatch|by intros result st].
  - by intros st.
  - by intros st.
Qed.
End Keeps.

Section KeepsRun.
Context {W : Type} (env : Env W).
Variable P : list Execution → Prop.
Variable execution : nat.

(** [P] survives what other threads do, and what the run writes to its
    Execution. *)
Hypothesis P_concurrently : ∀ w exs, P exs → P (concurrently env w exs).
Hypothesis P_alter : ∀ f exs, P exs → P (alter f execution exs).

Lemma keeps_for_steps (fuel : nat) (steps : list value) (parameters : value) :
  keeps P (for_steps env fuel steps parameters execution).
Proof.
  induction steps as [|step steps IH]; simpl.
  - intros st HP. simpl. by repeat apply P_alter.
  - apply keeps_bind; [apply keeps_execute_step; auto|intros r].
    apply keeps_bind; [intros st HP; simpl; by apply P_alter|intros _].
    destruct (sr_success r); [done|].
    intros st HP. simpl. by repeat apply P_alter.
Qed.

Lemma keeps_run_steps (fuel : nat) (workflow parameters : value) :
  keeps P (run_steps env fuel workflow parameters execution).
Proof.
  unfold run_steps.
  apply keeps_bind; [apply keeps_lift|intros steps].
  apply keeps_bind; [apply keeps_lift|intros items]. apply keeps_for_steps.
Qed.
End KeepsRun.

(** ** The loop over the steps *)

Section Loop.
Context {W : Type} (env : Env W).

Lemma for_steps_failed (fuel : nat) (step : value) (steps : list value) (parameters : value)
    (execution : nat) (st st1 : Engine W) (r : StepResult) :
  execute_step env fuel step parameters execution st = (Ret r, st1) →
  sr_success r = false →
  for_steps env fuel (step :: steps) parameters execution st
  = (Ret tt, halted env execution r st1).
Proof.
  intros Hstep Hr. simpl. rewrite (bind_ret _ _ _ _ _ Hstep).
  unfold bind, mutate, datetime_now. simpl. by rewrite Hr.
Qed.

Lemma for_steps_succeeded (fuel : nat) (step : value) (steps : list value)
    (parameters : value) (execution : nat) (st st1 : Engine W) (r : StepResult) :
  execute_step env fuel step parameters execution st = (Ret r, st1) →
  sr_success r = true →
  for_steps env fuel (step :: steps) parameters execution st
  = for_steps env fuel steps parameters execution
      (mutate execution (append_step r) st1).2.
Proof.
  intros Hstep Hr. simpl. rewrite (bind_ret _ _ _ _ _ Hstep).
  unfold bind at 1. simpl. by rewrite Hr.
Qed.

Lemma for_steps_prefix (fuel : nat) (before rest : list value) (parameters : value)
    (execution : nat) (st st1 : Engine W) (rs : list StepResult) :
  run_prefix env fuel before parameters execution st = Some (rs, st1) →
  for_steps env fuel (before ++ rest) parameters execution st
  = for_steps env fuel rest parameters execution st1.
Proof.
  revert st rs. induction before as [|step before IH]; intros st rs; simpl run_prefix.
  - by intros [= <- <-].
  - destruct (execute_step _ _ _ _ _ _) as [[r| |] st'] eqn:Hstep; try done.
    destruct (sr_success r) eqn:Hr; [|done].
    destruct (run_prefix _ _ _ _ _ _) as [[rs' st2]|] eqn:Hrest; [|done].
    intros [= <- <-]. rewrite <- app_comm_cons.
    rewrite (for_steps_succeeded _ _ _ _ _ _ _ _ Hstep Hr). by eapply IH.
Qed.

(** The Execution of the run, its log lines apart, is out of the reach of
    a step and of the other threads. *)
Lemma execute_step_view (fuel : nat) (step parameters : value) (execution : nat)
    (v : Execution) :
  quiet env execution →
  keeps (λ exs, erase_logs <$> exs !! execution = Some v)
    (execute_step env fuel step parameters execution).
Proof.
  intros Hquiet. apply keeps_execute_step.
  - intros w exs Hv. cbv beta in *. rewrite Hquiet; [done|].
    apply lookup_lt_is_Some. destruct (exs !! execution); [by eexists|done].
  - intros line exs Hv. cbv beta in *. rewrite list_lookup_alter_eq.
    destruct (exs !! execution) as [e|]; [|done]. simpl in *. by destruct e.
Qed.

Lemma run_prefix_view (fuel : nat) (before : list value) (parameters : value)
    (execution : nat) (st st1 : Engine W) (rs : list StepResult) (v : Execution) :
  quiet env execution →
  erase_logs <$> executions st !! execution = Some v →
  run_prefix env fuel before parameters execution st = Some (rs, st1) →
  erase_logs <$> executions st1 !! execution
  = Some (mkExecution (e_id v) (e_workflow_name v) (e_status v) (e_start_time v)
            (e_parameters v) (e_steps v ++ rs) [] (e_end_time v) (e_error v))
  ∧ Forall (λ r, sr_success r = true) rs
  ∧ List.length rs = List.length before.
Proof.
  intros Hquiet. revert st rs v.
  induction before as [|step before IH]; intros st rs v Hv; simpl run_prefix.
  - intros [= <- <-]. rewrite app_nil_r. split; [|done].
    rewrite Hv. f_equal. destruct (executions st !! execution) as [e|]; [|done].
    simpl in Hv. injection Hv as <-. by destruct e.
  - destruct (execute_step _ _ _ _ _ _) as [[r| |] st'] eqn:Hstep; try done.
    destruct (sr_success r) eqn:Hr; [|done].
    destruct (run_prefix _ _ _ _ _ _) as [[rs' st2]|] eqn:Hrest; [|done].
    intros [= <- <-].
    pose proof (execute_step_view fuel step parameters execution v Hquiet st Hv) as Hv'.
    rewrite Hstep in Hv'. simpl in Hv'.
    assert (erase_logs <$> executions (mutate execution (append_step r) st').2 !! execution
            = Some (append_step r v)) as Hv''.
    { simpl. rewrite list_lookup_alter_eq.
      destruct (executions st' !! execution) as [e|]; [|done].
      simpl in *. injection Hv' as <-. by destruct e. }
    destruct (IH _ _ _ Hv'' Hrest) as (Hview & Hall & Hlen).
    split; [|split].
    + rewrite Hview. simpl. by rewrite <- app_assoc.
    + by constructor.
    + simpl. by rewrite Hlen.
Qed.
End Loop.

(** ** A run *)

Section Run.
Context {W : Type} (env : Env W).

Lemma new_execution_appends (workflow_name : scalar) (parameters : value) (st : Engine W) :
  ∃ e,
    new_execution env workflow_name workflow_name parameters st
    = (Ret (List.length (executions st)), created env workflow_name parameters st)
    ∧ executions (created env workflow_name parameters st) = executions st ++ [e]
    ∧ e_workflow_name e = workflow_name ∧ e_status e = running ∧ e_steps e = []
    ∧ e_end_time e = None ∧ e_error e = None
    ∧ e_id e = str env workflow_name +:+ "_" +:+ pretty (clock env (world st) `quot` 1000000).
Proof. eexists. unfold created, new_execution. by repeat split. Qed.

Lemma created_lookup (workflow_name : scalar) (parameters : value) (st : Engine W) :
  ∃ e, executions (created env workflow_name parameters st) !! List.length (executions st)
       = Some e
       ∧ erase_logs e = e ∧ e_status e = running ∧ e_steps e = []
       ∧ e_end_time e = None ∧ e_error e = None.
Proof.
  destruct (new_execution_appends workflow_name parameters st)
    as (e & _ & Hexs & _ & Hs & Hsteps & Hend & Herr & _).
  exists e. rewrite Hexs, list_lookup_middle by done. repeat split; try done.
  unfold created, new_execution in Hexs. simpl in Hexs.
  apply app_inv_head in Hexs. injection Hexs as <-. done.
Qed.

Lemma execute_workflow_found (fuel : nat) (workflow_name : scalar)
    (parameters workflow : value) (st : Engine W) :
  workflows st !! key_of workflow_name = Some workflow →
  execute_workflow env fuel workflow_name parameters st
  = match try_except (run_steps env fuel workflow parameters (List.length (executions st)))
            (run_failed env (List.length (executions st)))
            (created env workflow_name parameters st) with
    | (Ret _, st') => (Ret (List.length (executions st)), st')
    | (Raise e, st') => (Raise e, st')
    | (OutOfFuel, st') => (OutOfFuel, st')
    end.
Proof.
  intros Hwf. unfold execute_workflow. unfold bind at 1. simpl. unfold bind at 1. simpl.
  rewrite Hwf.
  destruct (new_execution_appends workflow_name parameters st) as (e & Hnew & _).
  rewrite (bind_ret _ _ _ _ _ Hnew). unfold bind, ret.
  by destruct (try_except _ _ _) as [[[]| |] st'].
Qed.

Lemma run_steps_for_steps (fuel : nat) (workflow steps parameters : value)
    (items : list value) (execution : nat) (st : Engine W) :
  py_get workflow "steps" (VList []) = inr steps →
  py_iter steps = inr items →
  run_steps env fuel workflow parameters execution st
  = for_steps env fuel items parameters execution st.
Proof.
  intros Hsteps Hitems. unfold run_steps, bind, lift. rewrite Hsteps. simpl.
  by rewrite Hitems.
Qed.

(** C1, as the code has it: in a run whose steps [before] all return
    successful StepResults and whose next step returns a failed one, the
    run returns, no later step is executed (the engine is left in the
    state the failing step left it in, but for the failing StepResult, the
    status and the end time written to the Execution), the Execution has
    the StepResults of [before] and the failed one, in this order and no
    other, and the status [failed].  The Execution gets no error of its
    own: the message of the exception that the step raised is the error of
    the failed StepResult. *)
Theorem first_failure_stops (fuel : nat) (workflow_name : scalar)
    (parameters workflow steps : value) (before after : list value) (step : value)
    (st st1 st2 : Engine W) (rs : list StepResult) (r : StepResult) :
  let execution := List.length (executions st) in
  workflows st !! key_of workflow_name = Some workflow →
  py_get workflow "steps" (VList []) = inr steps →
  py_iter steps = inr (before ++ step :: after) →
  quiet env execution →
  run_prefix env fuel before parameters execution (created env workflow_name parameters st)
  = Some (rs, st1) →
  execute_step env fuel step parameters execution st1 = (Ret r, st2) →
  sr_success r = false →
  execute_workflow env fuel workflow_name parameters st
  = (Ret execution, halted env execution r st2)
  ∧ ∃ e,
      executions (halted env execution r st2) !! execution = Some e
      ∧ e_steps e = rs ++ [r]
      ∧ Forall (λ r', sr_success r' = true) rs
      ∧ List.length rs = List.length before
      ∧ e_status e = failed
      ∧ is_Some (e_end_time e)
      ∧ e_error e = None
      ∧ ∃ exc st', dispatch env fuel step (sr_action r)
                     (step_begun env (sr_name r) execution st1) = (Raise exc, st')
                   ∧ sr_error r = str_exn exc.
Proof.
  intros execution Hwf Hsteps Hitems Hquiet Hprefix Hstep Hr.
  split.
  - rewrite (execute_workflow_found _ _ _ _ _ Hwf). unfold try_except.
    rewrite (run_steps_for_steps _ _ _ _ _ _ _ Hsteps Hitems).
    rewrite (for_steps_prefix _ _ _ _ _ _ _ _ _ Hprefix).
    by rewrite (for_steps_failed _ _ _ _ _ _ _ _ _ Hstep Hr).
  - destruct (created_lookup workflow_name parameters st)
      as (e0 & He0 & Herase & Hs0 & Hsteps0 & Hend0 & Herr0).
    assert (erase_logs <$> executions (created env workflow_name parameters st) !! execution
            = Some e0) as Hview0.
    { unfold execution. rewrite He0. simpl. by rewrite Herase. }
    destruct (run_prefix_view env fuel before parameters execution _ _ rs e0 Hquiet
                Hview0 Hprefix) as (Hview & Hall & Hlen).
    pose proof (execute_step_view env fuel step parameters execution _ Hquiet st1 Hview)
      as Hview2.
    rewrite Hstep in Hview2. simpl in Hview2.
    destruct (executions st2 !! execution) as [e2|] eqn:He2; [|done].
    simpl in Hview2. apply (inj Some) in Hview2.
    exists (set_end_time (isoformat_now env (world st2)) (set_status failed (append_step r e2))).
    split; [|split; [|split; [|split; [|split; [|split; [|split]]]]]].
    + unfold halted. simpl. rewrite !list_lookup_alter_eq, He2. done.
    + simpl. apply (f_equal e_steps) in Hview2. simpl in Hview2.
      by rewrite Hview2, Hsteps0.
    + done.
    + done.
    + done.
    + by eexists.
    + simpl. apply (f_equal e_error) in Hview2. simpl in Hview2. by rewrite Hview2.
    + destruct (execute_step_failed env fuel step parameters execution st1 st2 r Hstep Hr)
        as (d & exc & st' & _ & Hd & Herr & _).
      by exists exc, st'.
Qed.

(** C2: a run of a workflow of the catalog never raises; and when the
    loop over the steps does raise (an exception that no step turned into
    a StepResult), the run returns all the same, with the status [failed],
    the message of the exception as the error of the Execution, and an end
    time. *)
Theorem dispatch_exception_caught (fuel : nat) (workflow_name : scalar)
    (parameters workflow : value) (st : Engine W) :
  let execution := List.length (executions st) in
  workflows st !! key_of workflow_name = Some workflow →
  (∀ exc st', execute_workflow env fuel workflow_name parameters st ≠ (Raise exc, st'))
  ∧ (quiet env execution →
     ∀ exc st2,
       run_steps env fuel workflow parameters execution
         (created env workflow_name parameters st) = (Raise exc, st2) →
       ∃ st3 e,
         execute_workflow env fuel workflow_name parameters st = (Ret execution, st3)
         ∧ executions st3 !! execution = Some e
         ∧ e_status e = failed
         ∧ e_error e = Some (str_exn exc)
         ∧ is_Some (e_end_time e)).
Proof.
  intros execution Hwf. rewrite (execute_workflow_found _ _ _ _ _ Hwf). split.
  - intros exc st'. unfold try_except.
    destruct (run_steps _ _ _ _ _ _) as [[[]|e|] st1]; try done.
  - intros Hquiet exc st2 Hraise. unfold try_except. fold execution. rewrite Hraise.
    assert (is_Some (executions st2 !! execution)) as [e2 He2].
    { assert (keeps (λ exs, is_Some (exs !! execution))
                (run_steps env fuel workflow parameters execution)) as Hkeeps.
      { apply keeps_run_steps.
        - intros w exs Hsome. rewrite Hquiet; [done|]. by apply lookup_lt_is_Some.
        - intros f exs [e He]. rewrite list_lookup_alter_eq, He. by eexists. }
      specialize (Hkeeps (created env workflow_name parameters st)).
      rewrite Hraise in Hkeeps. apply Hkeeps.
      destruct (created_lookup workflow_name parameters st) as (e & He & _).
      by eexists. }
    eexists _, _. split; [reflexivity|]. simpl.
    rewrite !list_lookup_alter_eq, He2. simpl. split; [reflexivity|]. simpl.
    split; [done|]. split; [done|]. by eexists.
Qed.
End Run.

(** ** The kinds of steps *)

Section Kinds.
Context {W : Type} (env : Env W).

Lemma dispatch_unknown (fuel : nat) (step action : value) (st : Engine W) :
  known_action action = false →
  dispatch env fuel step action st
  = (Raise (ValueError ("Unknown action: " +:+ str env action)), st).
Proof.
  unfold known_action. rewrite !orb_false_iff.
  intros [[[[[H1 H2] H3] H4] H5] H6]. unfold dispatch.
  by rewrite H1, H2, H3, H4, H5, H6.
Qed.

(** C10: a step (a mapping) whose action is none of the six kinds does
    not raise: [execute_step] returns a StepResult with [success] false
    and the error ["Unknown action: "] followed by the action; and the
    loop of the run that reaches the step appends this StepResult to the
    Execution, sets the status [failed] and stops. *)
Theorem unknown_action_fails (fuel : nat) (d : list (string * value))
    (parameters : value) (steps : list value) (execution : nat) (st : Engine W)
    (e : Execution) :
  let action := default VNone (dict_lookup d "action") in
  known_action action = false →
  executions st !! execution = Some e →
  ∃ r st1 st2 e',
    execute_step env fuel (VDict d) parameters execution st = (Ret r, st1)
    ∧ sr_success r = false
    ∧ sr_error r = "Unknown action: " +:+ str env action
    ∧ for_steps env fuel (VDict d :: steps) parameters execution st = (Ret tt, st2)
    ∧ executions st2 !! execution = Some e'
    ∧ e_steps e' = e_steps e ++ [r]
    ∧ e_status e' = failed.
Proof.
  intros action Hunknown He.
  pose proof (execute_step_dict env fuel d parameters execution st) as Hstep.
  cbv zeta in Hstep. fold action in Hstep.
  rewrite (dispatch_unknown _ _ _ _ Hunknown) in Hstep.
  eexists _, _, _, _. split; [exact Hstep|]. split; [done|]. split; [done|].
  split; [by apply (for_steps_failed _ _ _ _ _ _ _ _ _ Hstep)|].
  unfold halted, step_begun. simpl. rewrite !list_lookup_alter_eq, He. simpl.
  split; [reflexivity|]. done.
Qed.


Lemma subprocess_run_run (command : value) (t : Z) (st : Engine W) :
  subprocess_run env command t st
  = match run_command env command t (world st) with
    | (Exited code out err, w) =>
        match decode env out, decode env err with
        | inr out, inr err =>
            (Ret (mkCompletedProcess (universal_newlines out) (universal_newlines err) code),
             (blocked env w st).2)
        | inl exc, _ | inr _, inl exc => (Raise exc, (blocked env w st).2)
        end
    | (TimedOut, w) =>
        (Raise (TimeoutExpired ("Command '" +:+ str env command +:+ "' timed out after "
                                +:+ pretty t +:+ " seconds")),
         (blocked env w st).2)
    | (NotStarted exc, w) => (Raise exc, (blocked env w st).2)
    end.
Proof.
  unfold subprocess_run.
  destruct (run_command env command t (world st)) as [[code out err| |exc] w]; try done.
  unfold bind, lift. simpl.
  destruct (decode env out) as [exc|o]; [done|]. simpl.
  by destruct (decode env err) as [exc|e].
Qed.

Lemma execute_shell_command_run (command : value) (st : Engine W) :
  execute_shell_command env command st
  = match subprocess_run env command 30 st with
    | (Ret p, st') =>
        (Ret (VDict [("stdout", VStr (stdout p)); ("stderr", VStr (stderr p));
                     ("returncode", VInt (returncode p))]), st')
    | (Raise exc, st') =>
        (Raise (if String.eqb (exn_class exc) "TimeoutExpired"
                then Exception "Command timed out" else exc), st')
    | (OutOfFuel, st') => (OutOfFuel, st')
    end.
Proof.
  unfold execute_shell_command, try_except_only, bind.
  destruct (subprocess_run env command 30 st) as [[p|exc|] st']; try done.
  by destruct (String.eqb _ _).
Qed.

End Kinds.


(** ** Waiting for a workflow *)

Lemma alike_filter (target : value) (l l' : list Execution) :
  Forall2 alike l l' →
  Forall2 alike (List.filter (named target) l) (List.filter (named target) l').
Proof.
  induction 1 as [|e e' l l' He _ IH]; simpl; [constructor|].
  assert (named target e' = named target e) as ->.
  { unfold named. destruct He as (-> & _). done. }
  destruct (named target e); [|done]. by constructor.
Qed.

Lemma alike_py_max (best best' : Execution) (rest rest' : list Execution) :
  alike best best' → Forall2 alike rest rest' →
  alike (py_max e_start_time best rest) (py_max e_start_time best' rest').
Proof.
  intros Hbest Hrest. revert best best' Hbest.
  induction Hrest as [|e e' rest rest' He _ IH]; intros best best' Hbest; simpl; [done|].
  destruct Hbest as (Hb1 & Hb2 & Hb3 & Hb4), He as (He1 & He2 & He3 & He4).
  rewrite Hb2, He2.
  destruct (String.ltb (e_start_time best) (e_start_time e)); apply IH; done.
Qed.

Lemma alike_latest_execution (target : value) (l l' : list Execution) (latest : Execution) :
  Forall2 alike l l' → latest_execution l target = Some latest →
  ∃ latest', latest_execution l' target = Some latest' ∧ alike latest latest'.
Proof.
  intros Hl. apply (alike_filter target) in Hl. unfold latest_execution.
  destruct Hl as [|e e' rest rest' He Hrest]; [done|].
  intros [= <-]. eexists. split; [done|]. by apply alike_py_max.
Qed.

Lemma alike_append_log (line : string) (execution : nat) (exs : list Execution) :
  Forall2 alike exs (alter (append_log line) execution exs).
Proof.
  apply Forall2_alter_r.
  - apply Forall_Forall2_diag, Forall_forall. by intros e _.
  - intros e e' _ _ (? & ? & ? & ?). done.
Qed.

Lemma filter_named_append_log (target : value) (line : string) (execution : nat)
    (exs : list Execution) :
  List.filter (named target) exs = [] →
  List.filter (named target) (alter (append_log line) execution exs) = [].
Proof.
  intros Hnone.
  pose proof (alike_filter target _ _ (alike_append_log line execution exs)) as H.
  rewrite Hnone in H. by inversion H.
Qed.

(** Inside the window of a finite timeout is before its end. *)
Lemma micros_lt_window (t : number) (T : Z) :
  window t = Some T → ∀ elapsed, micros_lt elapsed t = true ↔ elapsed < T.
Proof.
  intros HT elapsed. destruct t as [z|[negative|negative|negative m e]]; simpl in *.
  - injection HT as <-. apply Z.ltb_lt.
  - injection HT as <-. apply Z.ltb_lt.
  - done.
  - destruct (0 <=? e) eqn:He.
    + injection HT as <-. apply Z.ltb_lt.
    + injection HT as <-. rewrite Z.ltb_lt.
      assert (0 < 2 ^ (- e)) as Hd by (apply Z.pow_pos_nonneg; lia).
      set (D := 2 ^ (- e)) in *. set (N := signed negative (Z.pos m) * 1000000).
      pose proof (Z.div_mod (N + D - 1) D ltac:(lia)) as Hdiv.
      pose proof (Z.mod_pos_bound (N + D - 1) D Hd) as Hmod.
      split; intros Hlt; nia.
Qed.

Section Wait.
Context {W : Type} (env : Env W).

Lemma dispatch_wait (fuel : nat) (d : list (string * value)) (st : Engine W) :
  dispatch env fuel (VDict d) (VStr "wait_for_workflow") st
  = wait_loop env fuel (default VNone (dict_lookup d "workflow_name"))
      (default (VInt 300) (dict_lookup d "timeout"))
      (default (VInt 5) (dict_lookup d "check_interval"))
      (clock env (world st)) (with_world (tick env (world st)) st).
Proof. done. Qed.

(** One test of the condition of the loop, inside the window. *)
Lemma wait_loop_poll (fuel : nat) (target timeout_seconds check_interval : value)
    (start_time : Z) (t : number) (st : Engine W) :
  as_number timeout_seconds = Some t →
  micros_lt (clock env (world st) - start_time) t = true →
  wait_loop env (S fuel) target timeout_seconds check_interval start_time st
  = let st1 := with_world (tick env (world st)) st in
    match latest_execution (executions st) target with
    | Some latest =>
        match e_status latest with
        | completed =>
            match e_end_time latest with
            | Some end_time =>
                (Ret (VStr ("Workflow '" +:+ str env target
                            +:+ "' completed successfully at " +:+ end_time)), st1)
            | None => (Raise (KeyError (repr_str env "end_time")), st1)
            end
        | failed => (Raise (Exception ("Workflow '" +:+ str env target +:+ "' failed")), st1)
        | running =>
            (time_sleep env check_interval;;;
             wait_loop env fuel target timeout_seconds check_interval start_time) st1
        end
    | None =>
        (time_sleep env check_interval;;;
         wait_loop env fuel target timeout_seconds check_interval start_time) st1
    end.
Proof.
  intros Ht Hin. simpl wait_loop. unfold bind, time_time, elapsed_lt, gets. rewrite Ht.
  simpl. rewrite Hin. simpl.
  destruct (latest_execution (executions st) target) as [latest|]; [|done].
  destruct (e_status latest); [done| |done].
  by destruct (e_end_time latest).
Qed.

(** One test of the condition of the loop, once the window is over. *)
Lemma wait_loop_over (fuel : nat) (target timeout_seconds check_interval : value)
    (start_time : Z) (t : number) (st : Engine W) :
  as_number timeout_seconds = Some t →
  micros_lt (clock env (world st) - start_time) t = false →
  wait_loop env (S fuel) target timeout_seconds check_interval start_time st
  = (Raise (Exception ("Timeout waiting for workflow '" +:+ str env target
                       +:+ "' to complete")),
     with_world (tick env (world st)) st).
Proof.
  intros Ht Hout. simpl wait_loop. unfold bind, time_time, elapsed_lt. rewrite Ht.
  simpl. by rewrite Hout.
Qed.

Lemma time_sleep_rests (check_interval : value) (ns : Z) (st : Engine W) :
  sleeps check_interval ns → (sleep env ns (world st)).1 = None →
  time_sleep env check_interval st = blocked env (sleep env ns (world st)).2 st.
Proof.
  intros (n & Hn & Hns & Hpos) Hrests. unfold time_sleep. rewrite Hn, Hns.
  assert ((ns <? 0) = false) as -> by lia.
  by destruct (sleep env ns (world st)) as [[e|] w].
Qed.

(** A test inside the window that finds the target pending: the loop
    sleeps the interval and tests again. *)
Lemma wait_loop_pending (fuel : nat) (target timeout_seconds check_interval : value)
    (start_time : Z) (t : number) (ns : Z) (st : Engine W) :
  as_number timeout_seconds = Some t → sleeps check_interval ns →
  micros_lt (clock env (world st) - start_time) t = true →
  pending target (executions st) →
  rests env ns st →
  wait_loop env (S fuel) target timeout_seconds check_interval start_time st
  = wait_loop env fuel target timeout_seconds check_interval start_time (next_poll env ns st).
Proof.
  intros Ht Hsleeps Hin Hpending Hrests.
  rewrite (wait_loop_poll _ _ _ _ _ t _ Ht Hin). cbv zeta. unfold pending in Hpending.
  pose proof (time_sleep_rests check_interval ns (with_world (tick env (world st)) st)
                Hsleeps Hrests) as Hsleep.
  destruct (latest_execution (executions st) target) as [latest|].
  - rewrite Hpending. unfold bind. by rewrite Hsleep.
  - unfold bind. by rewrite Hsleep.
Qed.

Lemma wait_loop_rounds (target timeout_seconds check_interval : value) (start_time : Z)
    (t : number) (ns : Z) :
  as_number timeout_seconds = Some t → sleeps check_interval ns →
  ∀ (n fuel : nat) (st : Engine W),
    (∀ k, (k < n)%nat →
       micros_lt (clock env (world (poll_state env ns k st)) - start_time) t = true
       ∧ pending target (executions (poll_state env ns k st))
       ∧ rests env ns (poll_state env ns k st)) →
    wait_loop env (n + fuel) target timeout_seconds check_interval start_time st
    = wait_loop env fuel target timeout_seconds check_interval start_time
        (poll_state env ns n st).
Proof.
  intros Ht Hsleeps. induction n as [|n IH]; intros fuel st Hpolls; [done|].
  destruct (Hpolls 0%nat ltac:(lia)) as (Hin & Hpending & Hrests).
  simpl in Hin, Hpending, Hrests.
  change (S n + fuel)%nat with (S (n + fuel)).
  rewrite (wait_loop_pending _ _ _ _ _ t ns _ Ht Hsleeps Hin Hpending Hrests).
  simpl poll_state. apply IH. intros k Hk. apply (Hpolls (S k)). lia.
Qed.

(** A test inside the window that finds the target pending: the loop
    raises what [time.sleep] raises. *)
Lemma wait_loop_refused (fuel : nat) (target timeout_seconds check_interval : value)
    (start_time : Z) (t : number) (st : Engine W) :
  as_number timeout_seconds = Some t →
  micros_lt (clock env (world st) - start_time) t = true →
  pending target (executions st) →
  wait_loop env (S fuel) target timeout_seconds check_interval start_time st
  = match time_sleep env check_interval (with_world (tick env (world st)) st) with
    | (Ret _, st1) =>
        wait_loop env fuel target timeout_seconds check_interval start_time st1
    | (Raise exc, st1) => (Raise exc, st1)
    | (OutOfFuel, st1) => (OutOfFuel, st1)
    end.
Proof.
  intros Ht Hin Hpending.
  rewrite (wait_loop_poll _ _ _ _ _ t _ Ht Hin). cbv zeta. unfold pending in Hpending.
  destruct (latest_execution (executions st) target) as [latest|].
  - rewrite Hpending. unfold bind. by destruct (time_sleep _ _ _) as [[[]| |] st1].
  - unfold bind. by destruct (time_sleep _ _ _) as [[[]| |] st1].
Qed.

Lemma sleeps_seconds (check_interval : value) (i : Z) :
  as_number check_interval = Some (NInt i) → 0 ≤ i → i ≤ sleep_max →
  sleeps check_interval (i * 1000000000).
Proof.
  intros Hi Hpos Hmax. exists (NInt i). split; [done|]. split; [|lia].
  unfold sleep_nanoseconds.
  assert (((i <? - sleep_max) || (sleep_max <? i)) = false) as ->; [|done].
  apply orb_false_iff. unfold sleep_max in *. split; lia.
Qed.

(** The loop gives up once the window is over, and not before. *)
Lemma wait_loop_times_out (target timeout_seconds check_interval : value)
    (start_time : Z) (t : number) (T ns : Z) :
  steady env → absent env target →
  as_number timeout_seconds = Some t → window t = Some T → sleeps check_interval ns →
  (∀ w, clock env w - start_time < T → (sleep env ns (tick env w)).1 = None) →
  ∀ (n fuel : nat) (st : Engine W),
    (n < fuel)%nat →
    List.filter (named target) (executions st) = [] →
    T - (clock env (world st) - start_time) ≤ Z.of_nat n * (ns `div` 1000) →
    ∃ st',
      wait_loop env fuel target timeout_seconds check_interval start_time st
      = (Raise (Exception ("Timeout waiting for workflow '" +:+ str env target
                           +:+ "' to complete")), st')
      ∧ start_time + T ≤ clock env (world st').
Proof.
  intros [Htick Hsleep] Habsent Ht HT Hsleeps Hrests.
  pose proof (micros_lt_window t T HT) as Hwindow.
  assert (0 ≤ ns) as Hns by (by destruct Hsleeps as (i & _ & _ & Hpos)).
  induction n as [|n IH]; intros [|fuel] st Hfuel Hnone Hleft; try lia.
  - exists (with_world (tick env (world st)) st).
    rewrite (wait_loop_over _ _ _ _ _ t); [|done|].
    + split; [done|]. simpl. specialize (Htick (world st)). lia.
    + apply not_true_is_false. intros Hin. apply Hwindow in Hin. lia.
  - destruct (micros_lt (clock env (world st) - start_time) t) eqn:Hin.
    + pose proof (proj1 (Hwindow _) Hin) as Hlt.
      rewrite (wait_loop_pending _ _ _ _ _ t ns _ Ht Hsleeps Hin).
      * apply IH; [lia|simpl; by apply Habsent|]. simpl world.
        specialize (Htick (world st)).
        specialize (Hsleep ns (tick env (world st)) Hns (Hrests _ Hlt)).
        rewrite Nat2Z.inj_succ, Z.mul_succ_l in Hleft. lia.
      * unfold pending. by rewrite (proj2 (latest_execution_none _ _) Hnone).
      * by apply Hrests.
    + exists (with_world (tick env (world st)) st).
      rewrite (wait_loop_over _ _ _ _ _ t) by done.
      split; [done|]. simpl. specialize (Htick (world st)).
      assert (¬ clock env (world st) - start_time < T) as Hout.
      { intros Hlt. apply Hwindow in Hlt. congruence. }
      lia.
Qed.
End Wait.

Lemma alike_pending (target : value) (l l' : list Execution) :
  Forall2 alike l l' → pending target l → pending target l'.
Proof.
  intros Hl. apply (alike_filter target) in Hl. unfold pending, latest_execution.
  destruct Hl as [|e e' rest rest' He Hrest]; [done|].
  destruct (alike_py_max _ _ _ _ He Hrest) as (_ & _ & Hstatus & _). by rewrite Hstatus.
Qed.

Section WaitStep.
Context {W : Type} (env : Env W).

(** C3, as the code has it.  A wait step whose timeout is a number polls
    only while the time elapsed on the clock, read anew, since the reading
    taken when the wait began is less than the timeout.  When the first
    poll falls inside this window and the latest execution of the target is
    completed (with its end time recorded), the StepResult is a success;
    when that execution is failed, the StepResult is a failure that says
    so.

    As long as a poll inside the window finds the target pending (no
    execution of it, or the latest still running), the step sleeps the
    interval, a number of seconds that [time.sleep] turns into [ns]
    nanoseconds, and when the sleep returns it polls again, on the history
    as the other threads left it: the first poll that finds the latest
    execution completed or failed decides as above, the first test of the
    condition that falls out of the window makes the step a failure that
    reports the timeout, and the first sleep that the system refuses makes
    it a failure with the message of the system's error.

    When the history has no execution of the target and none arrives, the
    clock is steady, the timeout is finite, [n] sleeps of the interval cover
    its window and the system grants the sleeps asked inside the window, the
    step returns, after at most [n + 1] tests, a failed StepResult that
    reports the timeout, and by then the clock is at least the window past
    the reading taken when the wait began.

    When the first poll finds the target pending and [time.sleep] cannot
    make nanoseconds of the interval (it is no number, its nanoseconds
    overflow, or they are negative), the StepResult is a failure at once,
    with the message of [time.sleep].  The defaults are 300 and 5
    seconds. *)
Theorem wait_step_result (fuel : nat) (d : list (string * value)) (parameters : value)
    (execution : nat) (st : Engine W) (t : number) :
  let target := default VNone (dict_lookup d "workflow_name") in
  let timeout_seconds := default (VInt 300) (dict_lookup d "timeout") in
  let check_interval := default (VInt 5) (dict_lookup d "check_interval") in
  let begun :=
    step_begun env (default (VStr "unnamed_step") (dict_lookup d "name")) execution st in
  let first := with_world (tick env (world begun)) begun in
  let inside (s : Engine W) :=
    micros_lt (clock env (world s) - clock env (world begun)) t = true in
  dict_lookup d "action" = Some (VStr "wait_for_workflow") →
  as_number timeout_seconds = Some t →
  (∀ latest,
     (0 < fuel)%nat →
     inside first →
     latest_execution (executions st) target = Some latest →
     (∀ end_time,
        e_status latest = completed → e_end_time latest = Some end_time →
        ∃ r st',
          execute_step env fuel (VDict d) parameters execution st = (Ret r, st')
          ∧ sr_success r = true
          ∧ sr_output r = VStr ("Workflow '" +:+ str env target
                                +:+ "' completed successfully at " +:+ end_time))
     ∧ (e_status latest = failed →
        ∃ r st',
          execute_step env fuel (VDict d) parameters execution st = (Ret r, st')
          ∧ sr_success r = false
          ∧ sr_error r = "Workflow '" +:+ str env target +:+ "' failed"))
  ∧ (∀ ns n,
       sleeps check_interval ns → (n < fuel)%nat →
       (∀ k, (k < n)%nat →
          inside (poll_state env ns k first)
          ∧ pending target (executions (poll_state env ns k first))
          ∧ rests env ns (poll_state env ns k first)) →
       (inside (poll_state env ns n first) →
        ∀ latest,
          latest_execution (executions (poll_state env ns n first)) target = Some latest →
          (∀ end_time,
             e_status latest = completed → e_end_time latest = Some end_time →
             ∃ r st',
               execute_step env fuel (VDict d) parameters execution st = (Ret r, st')
               ∧ sr_success r = true
               ∧ sr_output r = VStr ("Workflow '" +:+ str env target
                                     +:+ "' completed successfully at " +:+ end_time))
          ∧ (e_status latest = failed →
             ∃ r st',
               execute_step env fuel (VDict d) parameters execution st = (Ret r, st')
               ∧ sr_success r = false
               ∧ sr_error r = "Workflow '" +:+ str env target +:+ "' failed"))
       ∧ (¬ inside (poll_state env ns n first) →
          ∃ r,
            execute_step env fuel (VDict d) parameters execution st
            = (Ret r,
               with_world (tick env (tick env (world (poll_state env ns n first))))
                 (poll_state env ns n first))
            ∧ sr_success r = false
            ∧ sr_error r = "Timeout waiting for workflow '" +:+ str env target
                           +:+ "' to complete")
       ∧ (inside (poll_state env ns n first) →
          pending target (executions (poll_state env ns n first)) →
          ∀ exc,
            (sleep env ns (tick env (world (poll_state env ns n first)))).1 = Some exc →
            ∃ r st',
              execute_step env fuel (VDict d) parameters execution st = (Ret r, st')
              ∧ sr_success r = false
              ∧ sr_error r = str_exn exc))
  ∧ (∀ T ns n,
       window t = Some T →
       steady env → absent env target →
       sleeps check_interval ns →
       (∀ w, clock env w - clock env (world begun) < T →
             (sleep env ns (tick env w)).1 = None) →
       List.filter (named target) (executions st) = [] →
       T ≤ Z.of_nat n * (ns `div` 1000) → (n < fuel)%nat →
       ∃ r st',
         execute_step env fuel (VDict d) parameters execution st = (Ret r, st')
         ∧ sr_success r = false
         ∧ sr_error r = "Timeout waiting for workflow '" +:+ str env target
                        +:+ "' to complete"
         ∧ clock env (world begun) + T ≤ clock env (world st'))
  ∧ ((0 < fuel)%nat → inside first → pending target (executions st) →
     (as_number check_interval = None →
      ∃ r st',
        execute_step env fuel (VDict d) parameters execution st = (Ret r, st')
        ∧ sr_success r = false
        ∧ sr_error r = "'" +:+ type_name check_interval
                       +:+ "' object cannot be interpreted as an integer")
     ∧ (∀ i,
          as_number check_interval = Some i → sleep_nanoseconds i = None →
          ∃ r st',
            execute_step env fuel (VDict d) parameters execution st = (Ret r, st')
            ∧ sr_success r = false
            ∧ sr_error r = sleep_overflow env)
     ∧ (∀ i ns,
          as_number check_interval = Some i → sleep_nanoseconds i = Some ns → ns < 0 →
          ∃ r st',
            execute_step env fuel (VDict d) parameters execution st = (Ret r, st')
            ∧ sr_success r = false
            ∧ sr_error r = "sleep length must be non-negative")).
Proof.
  intros target timeout_seconds check_interval begun first inside Haction Ht.
  pose proof (execute_step_dict env fuel d parameters execution st) as Hstep.
  cbv zeta in Hstep. rewrite Haction in Hstep. simpl default in Hstep.
  fold begun in Hstep. rewrite dispatch_wait in Hstep.
  fold target timeout_seconds check_interval first in Hstep.
  pose proof (alike_append_log
                ("Executing step: "
                 +:+ str env (default (VStr "unnamed_step") (dict_lookup d "name")))
                execution (executions st)) as Halike.
  change (alter _ execution (executions st)) with (executions first) in Halike.
  split; [|split; [|split]].
  - intros latest Hfuel Hin Hlatest.
    destruct fuel as [|fuel]; [lia|].
    rewrite (wait_loop_poll env fuel target timeout_seconds check_interval
               (clock env (world begun)) t first Ht Hin) in Hstep.
    cbv zeta in Hstep.
    destruct (alike_latest_execution target _ _ latest Halike Hlatest)
      as (latest' & Hlatest' & _ & _ & Hstatus & Hend).
    rewrite Hlatest', Hstatus, Hend in Hstep. split.
    + intros end_time Hcompleted Hend_time. rewrite Hcompleted, Hend_time in Hstep.
      eexists _, _. split; [exact Hstep|]. done.
    + intros Hfailed. rewrite Hfailed in Hstep.
      eexists _, _. split; [exact Hstep|]. done.
  - intros ns n Hsleeps Hfuel Hpolls.
    pose proof (wait_loop_rounds env target timeout_seconds check_interval
                  (clock env (world begun)) t ns Ht Hsleeps n (S (fuel - S n)) first
                  Hpolls) as Hloop.
    replace (n + S (fuel - S n))%nat with fuel in Hloop by lia.
    rewrite Hloop in Hstep. clear Hloop.
    split; [|split].
    + intros Hin latest Hlatest.
      rewrite (wait_loop_poll env _ target timeout_seconds check_interval
                 (clock env (world begun)) t _ Ht Hin) in Hstep.
      cbv zeta in Hstep. rewrite Hlatest in Hstep. split.
      * intros end_time Hcompleted Hend_time. rewrite Hcompleted, Hend_time in Hstep.
        eexists _, _. split; [exact Hstep|]. done.
      * intros Hfailed. rewrite Hfailed in Hstep.
        eexists _, _. split; [exact Hstep|]. done.
    + intros Hout. apply not_true_is_false in Hout.
      rewrite (wait_loop_over env _ target timeout_seconds check_interval
                 (clock env (world begun)) t _ Ht Hout) in Hstep.
      eexists. split; [exact Hstep|]. done.
    + intros Hin Hpending exc Hrefused.
      rewrite (wait_loop_refused env _ target timeout_seconds check_interval
                 (clock env (world begun)) t _ Ht Hin Hpending) in Hstep.
      unfold time_sleep in Hstep. destruct Hsleeps as (i & Hi & Hns & Hpos).
      rewrite Hi, Hns in Hstep.
      assert ((ns <? 0) = false) as Hb by lia. rewrite Hb in Hstep.
      change (world (with_world ?w _)) with w in Hstep.
      destruct (sleep env ns (tick env (world (poll_state env ns n first))))
        as [[exc'|] w]; [|done].
      simpl in Hrefused. injection Hrefused as ->.
      eexists _, _. split; [exact Hstep|]. done.
  - intros T ns n HT Hsteady Habsent Hsleeps Hrests Hnone Hcover Hfuel.
    destruct (wait_loop_times_out env target timeout_seconds check_interval
                (clock env (world begun)) t T ns Hsteady Habsent Ht HT Hsleeps Hrests
                n fuel first Hfuel)
      as (st' & Hloop & Hclock).
    + by apply filter_named_append_log.
    + destruct Hsteady as [Htick _]. pose proof (Htick (world begun)) as Hb.
      unfold first, begun, step_begun in Hb |- *. simpl in Hb |- *. lia.
    + rewrite Hloop in Hstep. eexists _, _. split; [exact Hstep|].
      split; [done|]. split; [done|].
      destruct Hsteady as [Htick _]. pose proof (Htick (world st')) as Hb.
      unfold begun, step_begun in Hclock |- *. simpl in Hclock |- *. lia.
  - intros Hfuel Hin Hpending.
    destruct fuel as [|fuel]; [lia|].
    apply (alike_pending target _ _ Halike) in Hpending.
    rewrite (wait_loop_refused env fuel target timeout_seconds check_interval
               (clock env (world begun)) t first Ht Hin Hpending) in Hstep.
    unfold time_sleep in Hstep. split; [|split].
    + intros Hi. rewrite Hi in Hstep. eexists _, _. split; [exact Hstep|]. done.
    + intros i Hi Hns. rewrite Hi, Hns in Hstep.
      eexists _, _. split; [exact Hstep|]. done.
    + intros i ns Hi Hns Hneg. rewrite Hi, Hns in Hstep.
      assert ((ns <? 0) = true) as Hb by lia. rewrite Hb in Hstep.
      eexists _, _. split; [exact Hstep|]. done.
Qed.
End WaitStep.

(** C3, the window: a wait step with a timeout of 0 on a history whose
    latest execution of the target is completed; the condition of the loop
    fails at once and the StepResult is a failure. *)
Lemma wait_step_counterexample :
  let history := [Sample.run "deploy" completed "2024-05-01T10:00:00.250000"
                    (Some "2024-05-01T10:00:02.500000")] in
  let st := with_executions history Sample.engine in
  latest_execution (executions st) (VStr "deploy") = nth_error history 0
  ∧ ∃ r st',
      execute_step Sample.env 5 (Sample.wait [("timeout", VInt 0)]) (VDict []) 1 st = (Ret r, st')
      ∧ sr_success r = false
      ∧ sr_error r = "Timeout waiting for workflow 'deploy' to complete".
Proof. split; [done|]. eexists _, _. split; [vm_compute; reflexivity|]. done. Qed.

(** ** The theorems on the sample engine *)

Lemma sample_quiet (execution : nat) : quiet Sample.env execution.
Proof. by intros w exs _. Qed.

Lemma sample_rests (ns w : Z) :
  w * 1000 + ns ≤ 9223372036854775807 → (sleep Sample.env ns w).1 = None.
Proof.
  intros Hend.
  change (sleep Sample.env ns w)
    with (if 9223372036854775807 <? w * 1000 + ns
          then (Some (mkExn "OSError" "[Errno 22] Invalid argument"), w)
          else (None, w + ns / 1000)).
  destruct (Z.ltb_spec 9223372036854775807 (w * 1000 + ns)); [lia|done].
Qed.

Lemma sample_steady : steady Sample.env.
Proof.
  split; [simpl; intros; lia|]. intros ns w Hns.
  change (sleep Sample.env ns w)
    with (if 9223372036854775807 <? w * 1000 + ns
          then (Some (mkExn "OSError" "[Errno 22] Invalid argument"), w)
          else (None, w + ns / 1000)).
  destruct (9223372036854775807 <? w * 1000 + ns); [done|]. intros _. simpl. lia.
Qed.

Lemma sample_absent (target : value) : absent Sample.env target.
Proof. by intros w exs. Qed.

(** C1 on the workflow ["deploy"]: three steps, the second fails; the
    Execution has two StepResults, the second a failure, and no error. *)
Lemma first_failure_stops_witness :
  ∃ rs r st1 st2 e,
    workflows Sample.engine !! key_of (SStr "deploy") = Some Sample.deploy
    ∧ run_prefix Sample.env 1 [Sample.step "announce" "log" [("message", VStr "starting")]]
        (VDict []) 0 (created Sample.env (SStr "deploy") (VDict []) Sample.engine)
      = Some (rs, st1)
    ∧ execute_step Sample.env 1 (Sample.step "build" "compile" []) (VDict []) 0 st1
      = (Ret r, st2)
    ∧ sr_success r = false
    ∧ execute_workflow Sample.env 1 (VStr "deploy") (VDict []) Sample.engine
      = (Ret 0%nat, halted Sample.env 0 r st2)
    ∧ executions (halted Sample.env 0 r st2) !! 0%nat = Some e
    ∧ e_steps e = rs ++ [r]
    ∧ List.length rs = 1%nat
    ∧ e_status e = failed
    ∧ e_error e = None.
Proof.
  assert (workflows Sample.engine !! key_of (SStr "deploy") = Some Sample.deploy) as Hwf
    by (vm_compute; reflexivity).
  assert (∃ rs st1,
            run_prefix Sample.env 1
              [Sample.step "announce" "log" [("message", VStr "starting")]]
              (VDict []) 0 (created Sample.env (SStr "deploy") (VDict []) Sample.engine)
            = Some (rs, st1)) as (rs & st1 & Hprefix)
    by (eexists _, _; vm_compute; reflexivity).
  assert (∃ r st2,
            execute_step Sample.env 1 (Sample.step "build" "compile" []) (VDict []) 0 st1
            = (Ret r, st2) ∧ sr_success r = false) as (r & st2 & Hstep & Hr).
  { injection Hprefix as <- <-. eexists _, _. split; vm_compute; reflexivity. }
  destruct (first_failure_stops Sample.env 1 (SStr "deploy") (VDict []) Sample.deploy
              (VList [Sample.step "announce" "log" [("message", VStr "starting")];
                      Sample.step "build" "compile" []; Sample.step "done" "log" []])
              [Sample.step "announce" "log" [("message", VStr "starting")]]
              [Sample.step "done" "log" []]
              (Sample.step "build" "compile" [])
              Sample.engine st1 st2 rs r Hwf eq_refl eq_refl (sample_quiet 0) Hprefix Hstep Hr)
    as (Hrun & e & He & Hsteps & _ & Hlen & Hstatus & _ & Herror & _).
  exists rs, r, st1, st2, e.
  split; [exact Hwf|]. split; [exact Hprefix|]. split; [exact Hstep|]. split; [exact Hr|].
  split; [exact Hrun|]. split; [exact He|]. split; [exact Hsteps|]. split; [exact Hlen|].
  split; [exact Hstatus|exact Herror].
Defined.

(** C2 on the workflow ["broken"], whose only step is a string: the step
    raises an [AttributeError], the run returns and records it. *)
Lemma dispatch_exception_caught_witness :
  ∃ st2 st3 e,
    workflows Sample.engine !! key_of (SStr "broken") = Some Sample.broken
    ∧ run_steps Sample.env 1 Sample.broken VNone 0
        (created Sample.env (SStr "broken") VNone Sample.engine)
      = (Raise (AttributeError "'str' object has no attribute 'get'"), st2)
    ∧ (∀ exc st', execute_workflow Sample.env 1 (VStr "broken") VNone Sample.engine
                  ≠ (Raise exc, st'))
    ∧ execute_workflow Sample.env 1 (VStr "broken") VNone Sample.engine = (Ret 0%nat, st3)
    ∧ executions st3 !! 0%nat = Some e
    ∧ e_status e = failed
    ∧ e_error e = Some "'str' object has no attribute 'get'"
    ∧ is_Some (e_end_time e).
Proof.
  assert (workflows Sample.engine !! key_of (SStr "broken") = Some Sample.broken) as Hwf
    by (vm_compute; reflexivity).
  assert (∃ st2,
            run_steps Sample.env 1 Sample.broken VNone 0
              (created Sample.env (SStr "broken") VNone Sample.engine)
            = (Raise (AttributeError "'str' object has no attribute 'get'"), st2))
    as (st2 & Hraise) by (eexists; vm_compute; reflexivity).
  destruct (dispatch_exception_caught Sample.env 1 (SStr "broken") VNone Sample.broken
              Sample.engine Hwf) as (Hnever & Hcaught).
  destruct (Hcaught (sample_quiet _) _ _ Hraise)
    as (st3 & e & Hrun & He & Hstatus & Herror & Hend).
  exists st2, st3, e.
  split; [exact Hwf|]. split; [exact Hraise|]. split; [exact Hnever|].
  split; [exact Hrun|]. split; [exact He|]. split; [exact Hstatus|].
  split; [exact Herror|exact Hend].
Defined.

(** C10 on a step of the unknown kind ["compile"], in a run of ["deploy"]. *)
Lemma unknown_action_fails_witness :
  ∃ e r st1 st2 e',
    known_action (VStr "compile") = false
    ∧ executions Sample.started !! 0%nat = Some e
    ∧ execute_step Sample.env 1 (Sample.step "build" "compile" []) (VDict []) 0 Sample.started
      = (Ret r, st1)
    ∧ sr_success r = false
    ∧ sr_error r = "Unknown action: " +:+ str Sample.env (VStr "compile")
    ∧ for_steps Sample.env 1 [Sample.step "build" "compile" []; Sample.step "done" "log" []]
        (VDict []) 0 Sample.started
      = (Ret tt, st2)
    ∧ executions st2 !! 0%nat = Some e'
    ∧ e_steps e' = e_steps e ++ [r]
    ∧ e_status e' = failed.
Proof.
  assert (∃ e, executions Sample.started !! 0%nat = Some e) as (e & He)
    by (eexists; vm_compute; reflexivity).
  destruct (unknown_action_fails Sample.env 1
              [("name", VStr "build"); ("action", VStr "compile")] (VDict [])
              [Sample.step "done" "log" []] 0 Sample.started e eq_refl He)
    as (r & st1 & st2 & e' & Hstep & Hr & Herror & Hloop & He' & Hsteps & Hstatus).
  exists e, r, st1, st2, e'.
  split; [reflexivity|]. split; [exact He|]. split; [exact Hstep|]. split; [exact Hr|].
  split; [exact Herror|]. split; [exact Hloop|]. split; [exact He'|].
  split; [exact Hsteps|exact Hstatus].
Defined.


(** C3 on the sample engine: a wait of at most 2 seconds, polled every
    second, for ["deploy"], once with a completed run of it in the history
    and once with an empty history; a wait of at most 2.5 seconds, polled
    every half second, once for a run that another thread completes during
    the second sleep and once with an empty history; a wait whose interval
    is 10^10 seconds; and a wait whose interval is 9000000000 seconds, a
    sleep that the system refuses. *)
Lemma wait_step_result_witness :
  let d := [("name", VStr "gate"); ("action", VStr "wait_for_workflow");
            ("workflow_name", VStr "deploy"); ("timeout", VInt 2);
            ("check_interval", VInt 1)] in
  let patient := [("name", VStr "gate"); ("action", VStr "wait_for_workflow");
                  ("workflow_name", VStr "deploy");
                  ("timeout", VFloat (FFinite false 5629499534213120 (-51)));
                  ("check_interval", VFloat (FFinite false 4503599627370496 (-53)))] in
  let hasty := [("name", VStr "gate"); ("action", VStr "wait_for_workflow");
                ("workflow_name", VStr "deploy"); ("timeout", VInt 2);
                ("check_interval", VInt 10000000000)] in
  let sleepy := [("name", VStr "gate"); ("action", VStr "wait_for_workflow");
                 ("workflow_name", VStr "deploy"); ("timeout", VInt 2);
                 ("check_interval", VInt 9000000000)] in
  (dict_lookup d "action" = Some (VStr "wait_for_workflow")
   ∧ as_number (default (VInt 300) (dict_lookup d "timeout")) = Some (NInt 2)
   ∧ as_number (default (VInt 300) (dict_lookup patient "timeout"))
     = Some (NFloat (FFinite false 5629499534213120 (-51)))
   ∧ sleeps (default (VInt 5) (dict_lookup patient "check_interval")) 500000000
   ∧ window (NInt 2) = Some 2000000
   ∧ window (NFloat (FFinite false 5629499534213120 (-51))) = Some 2500000)
  ∧ (∃ r st',
       execute_step Sample.env 3 (VDict d) (VDict []) 1 Sample.deployed = (Ret r, st')
       ∧ sr_success r = true
       ∧ sr_output r = VStr ("Workflow '" +:+ str Sample.env (VStr "deploy")
                             +:+ "' completed successfully at "
                             +:+ "2024-05-01T10:00:02.500000"))
  ∧ (∃ r st',
       execute_step Sample.env 3 (VDict d) (VDict []) 0 Sample.engine = (Ret r, st')
       ∧ sr_success r = false
       ∧ sr_error r = "Timeout waiting for workflow '" +:+ str Sample.env (VStr "deploy")
                      +:+ "' to complete"
       ∧ clock Sample.env (world (step_begun Sample.env (VStr "gate") 0 Sample.engine))
         + 2 * 1000000 ≤ clock Sample.env (world st'))
  ∧ (∃ r st',
       execute_step Demo.finishing 4 (VDict patient) (VDict []) 1 Sample.started = (Ret r, st')
       ∧ sr_success r = true
       ∧ sr_output r = VStr ("Workflow '" +:+ str Demo.finishing (VStr "deploy")
                             +:+ "' completed successfully at " +:+ "T+1700000001000000"))
  ∧ (∃ r st',
       execute_step Sample.env 6 (VDict patient) (VDict []) 0 Sample.engine = (Ret r, st')
       ∧ sr_success r = false
       ∧ sr_error r = "Timeout waiting for workflow '" +:+ str Sample.env (VStr "deploy")
                      +:+ "' to complete"
       ∧ clock Sample.env (world (step_begun Sample.env (VStr "gate") 0 Sample.engine))
         + 2500000 ≤ clock Sample.env (world st'))
  ∧ (∃ r st',
       execute_step Sample.env 3 (VDict hasty) (VDict []) 1 Sample.started = (Ret r, st')
       ∧ sr_success r = false
       ∧ sr_error r = sleep_overflow Sample.env)
  ∧ (∃ r st',
       execute_step Sample.env 3 (VDict sleepy) (VDict []) 1 Sample.started = (Ret r, st')
       ∧ sr_success r = false
       ∧ sr_error r = "[Errno 22] Invalid argument").
Proof.
  intros d patient hasty sleepy.
  assert (sleeps (default (VInt 5) (dict_lookup patient "check_interval")) 500000000)
    as Hsleeps.
  { eexists. split; [reflexivity|]. split; [vm_compute; reflexivity|lia]. }
  assert (sleeps (default (VInt 5) (dict_lookup d "check_interval")) 1000000000) as Hsecond.
  { eexists. split; [reflexivity|]. split; [vm_compute; reflexivity|lia]. }
  assert (window (NFloat (FFinite false 5629499534213120 (-51))) = Some 2500000) as Hwindow
    by (vm_compute; reflexivity).
  assert (List.filter (named (VStr "deploy")) (executions Sample.engine) = []) as Hnone
    by (vm_compute; reflexivity).
  assert (clock Sample.env (world (step_begun Sample.env (VStr "gate") 0 Sample.engine))
          = 1700000000000001) as Hstart by (vm_compute; reflexivity).
  split; [split; [reflexivity|split; [reflexivity|split; [reflexivity|
          split; [exact Hsleeps|split; [reflexivity|exact Hwindow]]]]]|].
  split; [|split; [|split; [|split; [|split]]]].
  - destruct (wait_step_result Sample.env 3 d (VDict []) 1 Sample.deployed (NInt 2)
                eq_refl eq_refl) as (Hpoll & _).
    assert (latest_execution (executions Sample.deployed) (VStr "deploy")
            = Some (Sample.run "deploy" completed "2024-05-01T10:00:00.250000"
                      (Some "2024-05-01T10:00:02.500000"))) as Hlatest
      by (vm_compute; reflexivity).
    specialize (Hpoll (Sample.run "deploy" completed "2024-05-01T10:00:00.250000"
                         (Some "2024-05-01T10:00:02.500000")) ltac:(lia)).
    match type of Hpoll with
    | ?A → _ => assert A as Hin by (vm_compute; reflexivity)
    end.
    destruct (Hpoll Hin Hlatest) as (Hcompleted & _).
    exact (Hcompleted _ eq_refl eq_refl).
  - destruct (wait_step_result Sample.env 3 d (VDict []) 0 Sample.engine (NInt 2)
                eq_refl eq_refl) as (_ & _ & Htimeout & _).
    specialize (Htimeout 2000000 1000000000 2%nat eq_refl sample_steady (sample_absent _)
                  Hsecond).
    match type of Htimeout with
    | ?A → _ => assert A as Hrests
    end.
    { intros w Hw. apply sample_rests. change (tick Sample.env w) with (w + 1).
      change (default (VStr "unnamed_step") (dict_lookup d "name")) with (VStr "gate") in Hw.
      rewrite Hstart in Hw. change (clock Sample.env w) with w in Hw. lia. }
    assert (2000000 ≤ Z.of_nat 2 * (1000000000 `div` 1000)) as Hcover
      by (vm_compute; discriminate).
    exact (Htimeout Hrests Hnone Hcover ltac:(lia)).
  - destruct (wait_step_result Demo.finishing 4 patient (VDict []) 1 Sample.started
                (NFloat (FFinite false 5629499534213120 (-51))) eq_refl eq_refl)
      as (_ & Hpolls & _ & _).
    specialize (Hpolls 500000000 2%nat Hsleeps ltac:(lia)).
    match type of Hpolls with
    | ?A → _ => assert A as Hpending
    end.
    { intros k Hk.
      assert (k = 0%nat ∨ k = 1%nat) as [-> | ->] by lia;
        (split; [vm_compute; reflexivity|split; vm_compute; reflexivity]). }
    destruct (Hpolls Hpending) as (Hinside & _).
    match type of Hinside with
    | ?A → _ => assert A as Hin by (vm_compute; reflexivity)
    end.
    specialize (Hinside Hin).
    match type of Hinside with
    | ∀ latest, latest_execution ?X ?T = Some latest → _ =>
        assert (∃ latest, latest_execution X T = Some latest
                          ∧ e_status latest = completed
                          ∧ e_end_time latest = Some "T+1700000001000000")
          as (latest & Hlatest & Hstatus & Hend)
          by (eexists; split; [vm_compute; reflexivity|split; reflexivity])
    end.
    destruct (Hinside latest Hlatest) as (Hcompleted & _).
    exact (Hcompleted _ Hstatus Hend).
  - destruct (wait_step_result Sample.env 6 patient (VDict []) 0 Sample.engine
                (NFloat (FFinite false 5629499534213120 (-51))) eq_refl eq_refl)
      as (_ & _ & Htimeout & _).
    specialize (Htimeout 2500000 500000000 5%nat Hwindow sample_steady (sample_absent _)
                  Hsleeps).
    match type of Htimeout with
    | ?A → _ => assert A as Hrests
    end.
    { intros w Hw. apply sample_rests. change (tick Sample.env w) with (w + 1).
      change (default (VStr "unnamed_step") (dict_lookup patient "name")) with (VStr "gate")
        in Hw.
      rewrite Hstart in Hw. change (clock Sample.env w) with w in Hw. lia. }
    assert (2500000 ≤ Z.of_nat 5 * (500000000 `div` 1000)) as Hcover
      by (vm_compute; discriminate).
    exact (Htimeout Hrests Hnone Hcover ltac:(lia)).
  - destruct (wait_step_result Sample.env 3 hasty (VDict []) 1 Sample.started (NInt 2)
                eq_refl eq_refl) as (_ & _ & _ & Hrefused).
    specialize (Hrefused ltac:(lia)).
    match type of Hrefused with
    | ?A → _ => assert A as Hin by (vm_compute; reflexivity)
    end.
    specialize (Hrefused Hin).
    match type of Hrefused with
    | ?A → _ => assert A as Hpending by (vm_compute; reflexivity)
    end.
    destruct (Hrefused Hpending) as (_ & Hover & _).
    exact (Hover (NInt 10000000000) eq_refl eq_refl).
  - destruct (wait_step_result Sample.env 3 sleepy (VDict []) 1 Sample.started (NInt 2)
                eq_refl eq_refl) as (_ & Hpolls & _ & _).
    assert (sleeps (default (VInt 5) (dict_lookup sleepy "check_interval"))
              9000000000000000000) as Hlong.
    { eexists. split; [reflexivity|]. split; [vm_compute; reflexivity|lia]. }
    specialize (Hpolls 9000000000000000000 0%nat Hlong ltac:(lia)).
    match type of Hpolls with
    | ?A → _ => assert A as Hbefore by (intros k Hk; lia)
    end.
    destruct (Hpolls Hbefore) as (_ & _ & Hrefused).
    match type of Hrefused with
    | ?A → _ => assert A as Hin by (vm_compute; reflexivity)
    end.
    specialize (Hrefused Hin).
    match type of Hrefused with
    | ?A → _ => assert A as Hpending by (vm_compute; reflexivity)
    end.
    specialize (Hrefused Hpending (mkExn "OSError" "[Errno 22] Invalid argument")).
    match type of Hrefused with
    | ?A → _ => assert A as Hsleep by (vm_compute; reflexivity)
    end.
    exact (Hrefused Hsleep).
Defined.

(** ** Execution ids *)

(** Two runs that read the clock in the same second get the same id,
    whatever the workflow, the parameters and the rest of the engine. *)
Lemma new_execution_same_second {W} (env : Env W) (workflow_name : scalar)
    (parameters parameters' : value) (st st' : Engine W) :
  clock env (world st) `quot` 1000000 = clock env (world st') `quot` 1000000 →
  e_id <$> last (executions (created env workflow_name parameters st))
  = e_id <$> last (executions (created env workflow_name parameters' st')).
Proof.
  intros Hsecond. unfold created, new_execution. simpl.
  rewrite !last_snoc. simpl. by rewrite Hsecond.
Qed.

(** C5 at two runs of ["deploy"], one after the other within a second:
    both return, the history holds their two Executions, each with its own
    StepResults, under one and the same id, and a lookup by this id finds
    the first of them only. *)
Theorem execution_ids_collide :
  ∃ st1 st2 first second,
    execute_workflow Sample.env 1 (VStr "deploy") (VDict []) Sample.engine = (Ret 0%nat, st1)
    ∧ execute_workflow Sample.env 1 (VStr "deploy") (VDict [("rerun", VS (SBool true))]) st1
      = (Ret 1%nat, st2)
    ∧ executions st2 = [first; second]
    ∧ e_parameters first ≠ e_parameters second
    ∧ e_id first = "deploy_1700000000"
    ∧ e_id second = "deploy_1700000000"
    ∧ get_execution st2 (e_id second) = Some first.
Proof.
  eexists _, _, _, _.
  split; [vm_compute; reflexivity|]. split; [vm_compute; reflexivity|].
  split; [vm_compute; reflexivity|]. split; [vm_compute; discriminate|].
  split; [vm_compute; reflexivity|]. split; vm_compute; reflexivity.
Qed.

(** * More properties of the engine *)

(** ** How a run ends *)

Section Ends.
Context {W : Type} (env : Env W).

Lemma executions_with_executions (exs : list Execution) (st : Engine W) :
  executions (with_executions exs st) = exs.
Proof. done. Qed.

Lemma executions_with_world (w : W) (st : Engine W) :
  executions (with_world w st) = executions st.
Proof. done. Qed.

Lemma for_steps_done (fuel : nat) (parameters : value) (execution : nat) (st : Engine W) :
  for_steps env fuel [] parameters execution st
  = (Ret tt,
     with_executions
       (alter (set_end_time (isoformat_now env (world st))) execution
          (alter (set_status completed) execution (executions st)))
       (with_world (tick env (world st)) st)).
Proof. done. Qed.

Lemma run_failed_state (execution : nat) (exc : exn) (st : Engine W) :
  run_failed env execution exc st
  = (Ret tt,
     with_executions
       (alter (set_end_time (isoformat_now env (world st))) execution
          (alter (set_error (str_exn exc)) execution
             (alter (set_status failed) execution (executions st))))
       (with_world (tick env (world st)) st)).
Proof. done. Qed.

(** X1: a run whose steps all return successful StepResults returns with
    the status [completed], these StepResults in the order of the steps, one
    for each step, an end time and no error. *)
Theorem all_steps_succeed_completes (fuel : nat) (workflow_name : scalar)
    (parameters workflow steps : value) (items : list value) (st st1 : Engine W)
    (rs : list StepResult) :
  let execution := List.length (executions st) in
  workflows st !! key_of workflow_name = Some workflow →
  py_get workflow "steps" (VList []) = inr steps →
  py_iter steps = inr items →
  quiet env execution →
  run_prefix env fuel items parameters execution (created env workflow_name parameters st)
  = Some (rs, st1) →
  ∃ st2 e,
    execute_workflow env fuel workflow_name parameters st = (Ret execution, st2)
    ∧ executions st2 !! execution = Some e
    ∧ e_steps e = rs
    ∧ List.length rs = List.length items
    ∧ all_succeeded rs
    ∧ e_status e = completed
    ∧ is_Some (e_end_time e)
    ∧ e_error e = None.
Proof.
  intros execution Hwf Hsteps Hitems Hquiet Hprefix.
  destruct (created_lookup env workflow_name parameters st)
    as (e0 & He0 & Herase & Hs0 & Hsteps0 & Hend0 & Herr0).
  assert (erase_logs <$> executions (created env workflow_name parameters st) !! execution
          = Some e0) as Hview0.
  { unfold execution. rewrite He0. simpl. by rewrite Herase. }
  destruct (run_prefix_view env fuel items parameters execution _ _ rs e0 Hquiet
              Hview0 Hprefix) as (Hview & Hall & Hlen).
  destruct (executions st1 !! execution) as [e1|] eqn:He1; [|done].
  simpl in Hview. apply (inj Some) in Hview.
  eexists _, (set_end_time (isoformat_now env (world st1)) (set_status completed e1)).
  split.
  - rewrite (execute_workflow_found _ _ _ _ _ _ Hwf). unfold try_except.
    rewrite (run_steps_for_steps _ _ _ _ _ _ _ _ Hsteps Hitems).
    rewrite <- (app_nil_r items).
    rewrite (for_steps_prefix _ _ _ _ _ _ _ _ _ Hprefix).
    rewrite for_steps_done. reflexivity.
  - split; [simpl; by rewrite !list_lookup_alter_eq, He1|].
    split; [simpl; apply (f_equal e_steps) in Hview; simpl in Hview;
            by rewrite Hview, Hsteps0|].
    split; [done|]. split; [done|]. split; [done|]. split; [by eexists|].
    simpl. apply (f_equal e_error) in Hview. simpl in Hview. by rewrite Hview.
Qed.

(** The loop over the steps, from an Execution whose view is [v]. *)
Lemma for_steps_shape (fuel : nat) (parameters : value) (execution : nat) :
  quiet env execution →
  ∀ (items : list value) (st st' : Engine W) (v : Execution) (o : outcome unit),
    erase_logs <$> executions st !! execution = Some v →
    for_steps env fuel items parameters execution st = (o, st') →
    match o with
    | Ret _ =>
        ∃ e rs,
          executions st' !! execution = Some e
          ∧ e_steps e = e_steps v ++ rs ∧ e_error e = e_error v ∧ is_Some (e_end_time e)
          ∧ (List.length rs ≤ List.length items)%nat
          ∧ ((e_status e = completed ∧ all_succeeded rs
              ∧ List.length rs = List.length items)
             ∨ (e_status e = failed
                ∧ ∃ rs0 r, rs = rs0 ++ [r] ∧ all_succeeded rs0 ∧ sr_success r = false))
    | Raise _ =>
        ∃ e rs,
          executions st' !! execution = Some e
          ∧ e_steps e = e_steps v ++ rs ∧ e_error e = e_error v
          ∧ all_succeeded rs ∧ (List.length rs < List.length items)%nat
    | OutOfFuel => True
    end.
Proof.
  intros Hquiet. induction items as [|step items IH]; intros st st' v o Hv.
  - rewrite for_steps_done. intros [= <- <-].
    destruct (executions st !! execution) as [e|] eqn:He; [|done].
    simpl in Hv. apply (inj Some) in Hv.
    exists (set_end_time (isoformat_now env (world st)) (set_status completed e)), [].
    split; [simpl; by rewrite !list_lookup_alter_eq, He|].
    rewrite app_nil_r. subst v. split; [done|]. split; [done|]. split; [by eexists|].
    split; [done|]. left. split; [done|]. split; [constructor|done].
  - pose proof (execute_step_view env fuel step parameters execution v Hquiet st Hv) as Hv1.
    destruct (execute_step env fuel step parameters execution st) as [[r|exc|] st1] eqn:Hstep.
    + simpl in Hv1. destruct (executions st1 !! execution) as [e1|] eqn:He1; [|done].
      simpl in Hv1. apply (inj Some) in Hv1.
      destruct (sr_success r) eqn:Hr.
      * rewrite (for_steps_succeeded _ _ _ _ _ _ _ _ _ Hstep Hr). intros Hrest.
        assert (erase_logs <$> executions (mutate execution (append_step r) st1).2 !! execution
                = Some (append_step r v)) as Hv2.
        { simpl. rewrite list_lookup_alter_eq, He1. simpl. by rewrite <- Hv1. }
        specialize (IH _ _ _ _ Hv2 Hrest). destruct o as [[]|exc|]; [| |done].
        -- destruct IH as (e & rs & He & Hsteps & Herr & Hend & Hlen & Hcases).
           exists e, (r :: rs). split; [done|].
           split; [rewrite Hsteps; simpl; by rewrite <- app_assoc|].
           split; [done|]. split; [done|]. split; [simpl; lia|].
           destruct Hcases as [(Hs & Hall & Hlen')|(Hs & rs0 & r' & -> & Hall & Hr')].
           ++ left. split; [done|]. split; [by constructor|simpl; lia].
           ++ right. split; [done|]. exists (r :: rs0), r'. split; [done|].
              split; [by constructor|done].
        -- destruct IH as (e & rs & He & Hsteps & Herr & Hall & Hlen).
           exists e, (r :: rs). split; [done|].
           split; [rewrite Hsteps; simpl; by rewrite <- app_assoc|].
           split; [done|]. split; [by constructor|simpl; lia].
      * rewrite (for_steps_failed _ _ _ _ _ _ _ _ _ Hstep Hr). intros [= <- <-].
        exists (set_end_time (isoformat_now env (world st1))
                  (set_status failed (append_step r e1))), [r].
        split; [unfold halted; simpl; by rewrite !list_lookup_alter_eq, He1|].
        subst v. split; [done|]. split; [done|]. split; [by eexists|].
        split; [simpl; lia|]. right. split; [done|]. exists [], r. split; [done|].
        split; [constructor|done].
    + simpl for_steps. rewrite (bind_raise _ _ _ _ _ Hstep). intros [= <- <-].
      simpl in Hv1. destruct (executions st1 !! execution) as [e1|] eqn:He1; [|done].
      simpl in Hv1. apply (inj Some) in Hv1.
      exists e1, []. split; [done|]. rewrite app_nil_r. subst v.
      split; [done|]. split; [done|]. split; [constructor|simpl; lia].
    + simpl for_steps. rewrite (bind_out_of_fuel _ _ _ _ Hstep). by intros [= <- <-].
Qed.

(** X2: a run that returns leaves its Execution finished, with an end time
    and a status that is [completed] or [failed], never [running].  If
    [completed], every StepResult is a success, there is one for each step
    and no error.  If [failed], either the last StepResult is the only
    failure and there is no error, or an exception was recorded as the error
    and every StepResult is a success.  There are never more StepResults
    than steps. *)
Theorem run_ends_finished (fuel : nat) (workflow_name : scalar) (parameters workflow : value)
    (st st' : Engine W) (execution : nat) :
  workflows st !! key_of workflow_name = Some workflow →
  quiet env (List.length (executions st)) →
  execute_workflow env fuel workflow_name parameters st = (Ret execution, st') →
  execution = List.length (executions st)
  ∧ ∃ e,
      executions st' !! execution = Some e
      ∧ is_Some (e_end_time e)
      ∧ match e_status e with
        | running => False
        | completed => all_succeeded (e_steps e) ∧ e_error e = None
        | failed =>
            (e_error e = None
             ∧ ∃ rs r, e_steps e = rs ++ [r] ∧ all_succeeded rs ∧ sr_success r = false)
            ∨ (is_Some (e_error e) ∧ all_succeeded (e_steps e))
        end
      ∧ ∀ steps items,
          py_get workflow "steps" (VList []) = inr steps → py_iter steps = inr items →
          (List.length (e_steps e) ≤ List.length items)%nat
          ∧ (e_status e = completed → List.length (e_steps e) = List.length items).
Proof.
  intros Hwf Hquiet. rewrite (execute_workflow_found _ _ _ _ _ _ Hwf).
  destruct (created_lookup env workflow_name parameters st)
    as (e0 & He0 & Herase & Hs0 & Hsteps0 & Hend0 & Herr0).
  assert (erase_logs <$> executions (created env workflow_name parameters st)
                         !! List.length (executions st) = Some e0) as Hview0.
  { rewrite He0. simpl. by rewrite Herase. }
  remember (created env workflow_name parameters st) as stc eqn:Hstc. clear Hstc.
  unfold try_except, run_steps.
  destruct (py_get workflow "steps" (VList [])) as [exc|steps] eqn:Hsteps.
  { (* [workflow.get] raises *)
    unfold bind at 1. simpl lift. unfold raise at 1. rewrite run_failed_state.
    intros [= <- <-]. split; [done|]. eexists. split.
    { rewrite executions_with_executions. by rewrite !list_lookup_alter_eq, He0. }
    simpl. rewrite Hsteps0. split; [by eexists|]. split.
    - right. split; [by eexists|constructor].
    - intros steps items [=]. }
  unfold bind at 1. simpl lift. unfold ret at 1.
  destruct (py_iter steps) as [exc|items] eqn:Hitems.
  { unfold bind at 1. simpl lift. unfold raise at 1. rewrite run_failed_state.
    intros [= <- <-]. split; [done|]. eexists. split.
    { rewrite executions_with_executions. by rewrite !list_lookup_alter_eq, He0. }
    simpl. rewrite Hsteps0. split; [by eexists|]. split.
    - right. split; [by eexists|constructor].
    - intros steps' items' [= <-] Hitems'. congruence. }
  unfold bind at 1. simpl lift. unfold ret at 1.
  destruct (for_steps env fuel items parameters (List.length (executions st)) stc)
    as [[[]|exc|] st1] eqn:Hloop;
    pose proof (for_steps_shape fuel parameters _ Hquiet items _ _ e0 _ Hview0 Hloop) as Hshape;
    simpl in Hshape.
  - intros [= <- <-]. split; [done|].
    destruct Hshape as (e & rs & He & Hes & Herr & Hend & Hlen & Hcases).
    rewrite Hsteps0 in Hes. simpl in Hes. exists e. split; [done|]. split; [done|].
    rewrite Hes, Herr, Herr0. split.
    + destruct Hcases as [(-> & Hall & _)|(-> & rs0 & r & -> & Hall & Hr)].
      * done.
      * left. split; [done|]. by exists rs0, r.
    + intros steps' items' [= <-] Hitems'. assert (items' = items) as -> by congruence.
      split; [done|]. intros Hs.
      destruct Hcases as [(_ & _ & Hlen')|(Hs' & _)]; [done|congruence].
  - rewrite run_failed_state. intros [= <- <-]. split; [done|].
    destruct Hshape as (e & rs & He & Hes & Herr & Hall & Hlen).
    rewrite Hsteps0 in Hes. simpl in Hes.
    eexists. split; [simpl; by rewrite !list_lookup_alter_eq, He|].
    simpl. rewrite Hes. split; [by eexists|]. split.
    + right. split; [by eexists|done].
    + intros steps' items' [= <-] Hitems'. assert (items' = items) as -> by congruence.
      split; [lia|done].
  - done.
Qed.
End Ends.

Section Edges.
Context {W : Type} (env : Env W).

(** X3: a workflow whose steps are an empty sequence, or that has no
    ['steps'] at all, completes at once with no StepResult; a workflow whose
    ['steps'] cannot be iterated (null, a number) fails, with the message of
    the [TypeError] as the error of the Execution and no StepResult. *)
Theorem run_without_steps (fuel : nat) (workflow_name : scalar)
    (parameters workflow steps : value) (st : Engine W) :
  let execution := List.length (executions st) in
  workflows st !! key_of workflow_name = Some workflow →
  py_get workflow "steps" (VList []) = inr steps →
  (py_iter steps = inr [] →
   ∃ st' e,
     execute_workflow env fuel workflow_name parameters st = (Ret execution, st')
     ∧ executions st' !! execution = Some e
     ∧ e_status e = completed ∧ e_steps e = [] ∧ e_error e = None
     ∧ is_Some (e_end_time e))
  ∧ (∀ exc, py_iter steps = inl exc →
     ∃ st' e,
       execute_workflow env fuel workflow_name parameters st = (Ret execution, st')
       ∧ executions st' !! execution = Some e
       ∧ e_status e = failed ∧ e_steps e = [] ∧ e_error e = Some (str_exn exc)
       ∧ is_Some (e_end_time e)).
Proof.
  intros execution Hwf Hsteps.
  destruct (created_lookup env workflow_name parameters st)
    as (e0 & He0 & Herase & Hs0 & Hsteps0 & Hend0 & Herr0).
  rewrite (execute_workflow_found _ _ _ _ _ _ Hwf). fold execution in He0 |- *.
  remember (created env workflow_name parameters st) as stc eqn:Hstc. clear Hstc.
  unfold try_except. split.
  - intros Hitems. rewrite (run_steps_for_steps _ _ _ _ _ _ _ _ Hsteps Hitems).
    rewrite for_steps_done. eexists _, _. split; [reflexivity|].
    rewrite executions_with_executions, !list_lookup_alter_eq, He0. simpl.
    split; [reflexivity|]. simpl. split; [done|]. split; [done|]. split; [done|].
    by eexists.
  - intros exc Hitems. unfold run_steps, bind, lift. rewrite Hsteps. simpl.
    rewrite Hitems. simpl. eexists _, _. split; [reflexivity|]. simpl.
    rewrite !list_lookup_alter_eq, He0. simpl.
    split; [reflexivity|]. simpl. split; [done|]. split; [done|]. split; [done|].
    by eexists.
Qed.

(** X4: a step that is not a mapping (a string, a number, a list) makes
    the run fail without a StepResult of its own: the StepResults are those
    of the steps before it, the status is [failed], and the error of the
    Execution is the message of the [AttributeError]. *)
Theorem non_mapping_step_fails_run (fuel : nat) (workflow_name : scalar)
    (parameters workflow steps : value) (before after : list value) (step : value)
    (st st1 : Engine W) (rs : list StepResult) :
  let execution := List.length (executions st) in
  workflows st !! key_of workflow_name = Some workflow →
  py_get workflow "steps" (VList []) = inr steps →
  py_iter steps = inr (before ++ step :: after) →
  quiet env execution →
  run_prefix env fuel before parameters execution (created env workflow_name parameters st)
  = Some (rs, st1) →
  (∀ d, step ≠ VDict d) →
  ∃ st2 e,
    execute_workflow env fuel workflow_name parameters st = (Ret execution, st2)
    ∧ executions st2 !! execution = Some e
    ∧ e_steps e = rs
    ∧ e_status e = failed
    ∧ e_error e = Some ("'" +:+ type_name step +:+ "' object has no attribute 'get'")
    ∧ is_Some (e_end_time e).
Proof.
  intros execution Hwf Hsteps Hitems Hquiet Hprefix Hstep.
  destruct (created_lookup env workflow_name parameters st)
    as (e0 & He0 & Herase & Hs0 & Hsteps0 & Hend0 & Herr0).
  assert (erase_logs <$> executions (created env workflow_name parameters st) !! execution
          = Some e0) as Hview0.
  { unfold execution. rewrite He0. simpl. by rewrite Herase. }
  destruct (run_prefix_view env fuel before parameters execution _ _ rs e0 Hquiet
              Hview0 Hprefix) as (Hview & Hall & Hlen).
  destruct (executions st1 !! execution) as [e1|] eqn:He1; [|done].
  simpl in Hview. apply (inj Some) in Hview.
  rewrite (execute_workflow_found _ _ _ _ _ _ Hwf). unfold try_except.
  rewrite (run_steps_for_steps _ _ _ _ _ _ _ _ Hsteps Hitems).
  rewrite (for_steps_prefix _ _ _ _ _ _ _ _ _ Hprefix).
  simpl for_steps.
  rewrite (bind_raise _ _ _ _ _ (execute_step_not_dict env fuel step parameters _ st1 Hstep)).
  rewrite run_failed_state. eexists _, _. split; [reflexivity|].
  rewrite executions_with_executions, !list_lookup_alter_eq. fold execution. rewrite He1.
  simpl. split; [reflexivity|]. simpl.
  apply (f_equal e_steps) in Hview. simpl in Hview. rewrite Hview, Hsteps0.
  split; [done|]. split; [done|]. split; [done|]. by eexists.
Qed.
End Edges.

(** ** The kinds of steps, one by one *)

Lemma substring_0_length (n : nat) (s : string) :
  String.length (substring 0 n s) = (n `min` String.length s)%nat.
Proof.
  revert s. induction n as [|n IH]; intros [|c s]; simpl; try done. by rewrite IH.
Qed.

Lemma substring_0_prefix (n : nat) (s : string) : String.prefix (substring 0 n s) s = true.
Proof.
  revert s. induction n as [|n IH]; intros [|c s]; simpl; try done.
  destruct (ascii_dec c c); [apply IH|done].
Qed.

Lemma substring_0_all (n : nat) (s : string) :
  (String.length s ≤ n)%nat → substring 0 n s = s.
Proof.
  revert s. induction n as [|n IH]; intros [|c s]; simpl; try done; try lia.
  intros Hlen. rewrite IH; [done|lia].
Qed.

Section StepKinds.
Context {W : Type} (env : Env W).

(** X5: whatever the step, a StepResult that [execute_step] returns has
    the name of the step (['unnamed_step'] without one), its action, the
    start time read when the step began and an end time; a success has no
    error, a failure has no output; and the step was a mapping. *)
Theorem execute_step_result_shape (fuel : nat) (step parameters : value) (execution : nat)
    (st st' : Engine W) (r : StepResult) :
  execute_step env fuel step parameters execution st = (Ret r, st') →
  ∃ d,
    step = VDict d
    ∧ sr_name r = default (VStr "unnamed_step") (dict_lookup d "name")
    ∧ sr_action r = default VNone (dict_lookup d "action")
    ∧ sr_start_time r = isoformat_now env (world st)
    ∧ is_Some (sr_end_time r)
    ∧ (if sr_success r then sr_error r = EmptyString else sr_output r = VStr EmptyString).
Proof.
  destruct step as [s|l|d].
  - rewrite execute_step_not_dict; [done|]. by intros d.
  - rewrite execute_step_not_dict; [done|]. by intros d.
  - rewrite execute_step_dict. simpl.
    destruct (dispatch _ _ _ _ _) as [[result|e|] st1]; intros [= <- <-]; simpl.
    + exists d. repeat split. by eexists.
    + exists d. repeat split. by eexists.
Qed.

(** X6: a log step always succeeds: its output is the message of the step,
    or ['Log message'] without one; it blocks on nothing, starts no thread
    and writes nothing but its log line to the history. *)
Theorem log_step_succeeds (fuel : nat) (d : list (string * value)) (parameters : value)
    (execution : nat) (st : Engine W) :
  let begun :=
    step_begun env (default (VStr "unnamed_step") (dict_lookup d "name")) execution st in
  dict_lookup d "action" = Some (VStr "log") →
  ∃ r,
    execute_step env fuel (VDict d) parameters execution st
    = (Ret r, with_world (tick env (world begun)) begun)
    ∧ sr_success r = true
    ∧ sr_output r = default (VStr "Log message") (dict_lookup d "message")
    ∧ sr_error r = EmptyString.
Proof.
  intros begun Haction.
  pose proof (execute_step_dict env fuel d parameters execution st) as Hstep.
  cbv zeta in Hstep. rewrite Haction in Hstep. simpl default in Hstep.
  fold begun in Hstep.
  change (dispatch env fuel (VDict d) (VStr "log") begun)
    with (Ret (default (VStr "Log message") (dict_lookup d "message")), begun) in Hstep.
  eexists. split; [exact Hstep|]. done.
Qed.

(** X7: a delay step asks [time.sleep] for its ['seconds'] (1 without the
    key).  When they are a number whose nanoseconds fit and are not
    negative, and the system grants the sleep, the step succeeds, and on a
    steady clock it ends at least that long after it began.  When the
    nanoseconds overflow, the step fails at once with the message of the
    [OverflowError]; when they are negative, with ['sleep length must be
    non-negative']; when the seconds are no number, with the message of the
    [TypeError]; and when the system refuses the sleep, with the message of
    its error.  For an integer the nanoseconds overflow exactly beyond
    [sleep_max] seconds, in either direction. *)
Theorem delay_step_result (fuel : nat) (d : list (string * value)) (parameters : value)
    (execution : nat) (st : Engine W) :
  let seconds := default (VInt 1) (dict_lookup d "seconds") in
  let begun :=
    step_begun env (default (VStr "unnamed_step") (dict_lookup d "name")) execution st in
  dict_lookup d "action" = Some (VStr "delay") →
  (∃ r st',
     execute_step env fuel (VDict d) parameters execution st = (Ret r, st')
     ∧ match as_number seconds with
       | Some n =>
           match sleep_nanoseconds n with
           | None =>
               sr_success r = false ∧ sr_error r = sleep_overflow env
               ∧ world st' = tick env (world begun)
           | Some ns =>
               if (ns <? 0)%Z then
                 sr_success r = false ∧ sr_error r = "sleep length must be non-negative"
                 ∧ world st' = tick env (world begun)
               else
                 match (sleep env ns (world begun)).1 with
                 | None =>
                     sr_success r = true
                     ∧ sr_output r = VStr ("Delayed for " +:+ str env seconds +:+ " seconds")
                     ∧ world st' = tick env (sleep env ns (world begun)).2
                     ∧ (steady env →
                        clock env (world begun) + ns `div` 1000 ≤ clock env (world st'))
                 | Some exc => sr_success r = false ∧ sr_error r = str_exn exc
                 end
           end
       | None =>
           sr_success r = false
           ∧ sr_error r = "'" +:+ type_name seconds
                          +:+ "' object cannot be interpreted as an integer"
           ∧ world st' = tick env (world begun)
       end)
  ∧ ∀ z, sleep_nanoseconds (NInt z)
         = if decide (- sleep_max ≤ z ≤ sleep_max) then Some (z * 1000000000) else None.
Proof.
  intros seconds begun Haction. split.
  - pose proof (execute_step_dict env fuel d parameters execution st) as Hstep.
    cbv zeta in Hstep. rewrite Haction in Hstep. simpl default in Hstep.
    fold begun in Hstep.
    change (dispatch env fuel (VDict d) (VStr "delay") begun)
      with ((time_sleep env seconds;;;
             ret (VStr ("Delayed for " +:+ str env seconds +:+ " seconds"))) begun) in Hstep.
    unfold bind, time_sleep in Hstep.
    destruct (as_number seconds) as [n|].
    + destruct (sleep_nanoseconds n) as [ns|].
      * destruct (ns <? 0)%Z eqn:Hns.
        { eexists _, _. split; [exact Hstep|]. done. }
        pose proof (λ Hsteady : steady env, proj2 Hsteady ns (world begun)) as Hsleep.
        pose proof (λ Hsteady : steady env, proj1 Hsteady) as Htick.
        destruct (sleep env ns (world begun)) as [[exc|] w].
        { eexists _, _. split; [exact Hstep|]. done. }
        eexists _, _. split; [exact Hstep|]. split; [done|]. split; [done|].
        split; [done|]. intros Hsteady. apply Z.ltb_ge in Hns. clear Hstep.
        specialize (Hsleep Hsteady Hns eq_refl). specialize (Htick Hsteady w).
        simpl in *. lia.
      * eexists _, _. split; [exact Hstep|]. done.
    + eexists _, _. split; [exact Hstep|]. done.
  - intros z. unfold sleep_nanoseconds. case_decide as Hz.
    + assert (((z <? - sleep_max) || (sleep_max <? z)) = false) as ->; [|done].
      apply orb_false_iff. split; lia.
    + assert (((z <? - sleep_max) || (sleep_max <? z)) = true) as ->; [|done].
      apply orb_true_iff. destruct (decide (z < - sleep_max)); [left|right]; lia.
Qed.

(** X8: a trigger step looks its target up in the catalog before it starts
    anything.  With a target of the catalog it starts a thread for that
    target with the ['parameters'] of the step ([{}] without the key); when
    the thread starts, the step succeeds with exactly this one thread more,
    and returns without waiting for the run of the target: the history is
    then what the other threads, the new one among them, made of it during
    the start, so it is unchanged when no other thread writes.  When the
    thread cannot be started the step fails with the message of the
    exception.  With any other target the step fails (['Target workflow ...
    not found'], or the [TypeError] of an unhashable target), starts no
    thread and leaves the history as it was.  The catalog is never
    changed. *)
Theorem trigger_step_result (fuel : nat) (d : list (string * value)) (parameters : value)
    (execution : nat) (st : Engine W) :
  let target := default VNone (dict_lookup d "workflow_name") in
  let given := default (VDict []) (dict_lookup d "parameters") in
  let begun :=
    step_begun env (default (VStr "unnamed_step") (dict_lookup d "name")) execution st in
  dict_lookup d "action" = Some (VStr "trigger_workflow") →
  ∃ r st',
    execute_step env fuel (VDict d) parameters execution st = (Ret r, st')
    ∧ workflows st' = workflows st
    ∧ match py_hash target with
      | inr name =>
          match workflows st !! key_of name with
          | Some _ =>
              executions st'
              = concurrently env (thread_start env (world begun)).2 (executions begun)
              ∧ (alone env → executions st' = executions begun)
              ∧ match (thread_start env (world begun)).1 with
                | None =>
                    sr_success r = true
                    ∧ sr_output r = VStr ("Triggered workflow '" +:+ str env target
                                          +:+ "' with parameters: " +:+ str env given)
                    ∧ threads st' = threads st ++ [(target, given)]
                | Some exc =>
                    sr_success r = false ∧ sr_error r = str_exn exc
                    ∧ threads st' = threads st
                end
          | None =>
              sr_success r = false
              ∧ sr_error r = "Target workflow '" +:+ str env target +:+ "' not found"
              ∧ threads st' = threads st
              ∧ executions st' = executions begun
          end
      | inl exc =>
          sr_success r = false ∧ sr_error r = str_exn exc ∧ threads st' = threads st
          ∧ executions st' = executions begun
      end.
Proof.
  intros target given begun Haction.
  pose proof (execute_step_dict env fuel d parameters execution st) as Hstep.
  cbv zeta in Hstep. rewrite Haction in Hstep. simpl default in Hstep.
  fold begun in Hstep.
  change (dispatch env fuel (VDict d) (VStr "trigger_workflow") begun)
    with ((name <- lift (py_hash target);;
           ws <- gets workflows;;
           match ws !! key_of name with
           | None =>
               raise (ValueError ("Target workflow '" +:+ str env target +:+ "' not found"))
           | Some _ =>
               start_thread env target given;;;
               ret (VStr ("Triggered workflow '" +:+ str env target
                          +:+ "' with parameters: " +:+ str env given))
           end) begun) in Hstep.
  unfold bind, lift, gets in Hstep.
  destruct (py_hash target) as [exc|name]; simpl in Hstep.
  - eexists _, _. split; [exact Hstep|]. done.
  - change (workflows begun) with (workflows st) in Hstep.
    destruct (workflows st !! key_of name); simpl in Hstep.
    + unfold start_thread in Hstep.
      destruct (thread_start env (world begun)) as [[exc|] w]; simpl in Hstep.
      * eexists _, _. split; [exact Hstep|]. split; [done|]. split; [done|].
        split; [|done]. intros Halone. simpl. apply Halone.
      * eexists _, _. split; [exact Hstep|]. split; [done|]. split; [done|].
        split; [|done]. intros Halone. simpl. apply Halone.
    + eexists _, _. split; [exact Hstep|]. done.
Qed.
End StepKinds.

Section Http.
Context {W : Type} (env : Env W).

Lemma execute_http_request_run (d : list (string * value)) (m : string) (st : Engine W) :
  default (VStr "GET") (dict_lookup d "method") = VStr m →
  let method := str_upper env m in
  let json :=
    if existsb (String.eqb method) ["POST"; "PUT"; "PATCH"]
    then default (VDict []) (dict_lookup d "data") else VNone in
  execute_http_request env (VDict d) st
  = match requests_request env method (default VNone (dict_lookup d "url"))
            (default (VDict []) (dict_lookup d "headers")) json 30 (world st) with
    | (inr response, w) =>
        (Ret (VDict [("status_code", VInt (status_code response));
                     ("headers",
                      VDict (map (λ kv, (fst kv, VStr (snd kv))) (headers response)));
                     ("body", VStr (substring 0 1000 (text response)))]),
         (blocked env w st).2)
    | (inl e, w) => (Raise e, (blocked env w st).2)
    end.
Proof.
  intros Hm method json. subst method json.
  unfold execute_http_request, bind, lift, py_get.
  rewrite Hm. change (VStr m) with (VS (SStr m)). unfold ret. cbv beta iota.
  by destruct (requests_request env _ _ _ _ 30 (world st)) as [[e|response] w].
Qed.

(** X9: an HTTP step whose method is a string (['GET'] without the key)
    sends one request, with the method in upper case, a timeout of 30
    seconds, and the ['data'] of the step as the JSON body for POST, PUT and
    PATCH only.  When the peer answers, the step succeeds whatever the status
    code, and the body it captures is the first 1000 characters of the
    answer: the prefix of the answer whose length is the smaller of 1000 and
    the length of the answer, so all of it when it is shorter; when the
    request raises, the step fails with the message of the exception. *)
Theorem http_step_result (fuel : nat) (d : list (string * value)) (parameters : value)
    (execution : nat) (st : Engine W) (m : string) :
  let method := str_upper env m in
  let json :=
    if existsb (String.eqb method) ["POST"; "PUT"; "PATCH"]
    then default (VDict []) (dict_lookup d "data") else VNone in
  let begun :=
    step_begun env (default (VStr "unnamed_step") (dict_lookup d "name")) execution st in
  dict_lookup d "action" = Some (VStr "http_request") →
  default (VStr "GET") (dict_lookup d "method") = VStr m →
  ∃ r st',
    execute_step env fuel (VDict d) parameters execution st = (Ret r, st')
    ∧ match (requests_request env method (default VNone (dict_lookup d "url"))
               (default (VDict []) (dict_lookup d "headers")) json 30 (world begun)).1 with
      | inr response =>
          sr_success r = true
          ∧ ∃ body,
              sr_output r
              = VDict [("status_code", VInt (status_code response));
                       ("headers",
                        VDict (map (λ kv, (fst kv, VStr (snd kv))) (headers response)));
                       ("body", VStr body)]
              ∧ String.length body = (1000 `min` String.length (text response))%nat
              ∧ String.prefix body (text response) = true
              ∧ ((String.length (text response) ≤ 1000)%nat → body = text response)
      | inl exc => sr_success r = false ∧ sr_error r = str_exn exc
      end.
Proof.
  intros method json begun Haction Hm.
  pose proof (execute_step_dict env fuel d parameters execution st) as Hstep.
  cbv zeta in Hstep. rewrite Haction in Hstep. simpl default in Hstep.
  fold begun in Hstep.
  change (dispatch env fuel (VDict d) (VStr "http_request") begun)
    with (execute_http_request env (VDict d) begun) in Hstep.
  rewrite (execute_http_request_run d m begun Hm) in Hstep. cbv zeta in Hstep.
  fold method in Hstep. fold json in Hstep.
  destruct (requests_request env method _ _ json 30 (world begun)) as [[exc|response] w];
    simpl in Hstep; eexists _, _; (split; [exact Hstep|]); simpl; [done|].
  split; [done|]. eexists. split; [reflexivity|].
  split; [apply substring_0_length|].
  split; [apply substring_0_prefix|apply substring_0_all].
Qed.

(** X10: an HTTP step whose ['method'] is not a string fails before any
    request is sent: the world has only seen the clock read. *)
Theorem http_step_bad_method (fuel : nat) (d : list (string * value)) (parameters : value)
    (execution : nat) (st : Engine W) (method : value) :
  let begun :=
    step_begun env (default (VStr "unnamed_step") (dict_lookup d "name")) execution st in
  dict_lookup d "action" = Some (VStr "http_request") →
  dict_lookup d "method" = Some method →
  (∀ m, method ≠ VStr m) →
  ∃ r,
    execute_step env fuel (VDict d) parameters execution st
    = (Ret r, with_world (tick env (world begun)) begun)
    ∧ sr_success r = false
    ∧ sr_error r = "'" +:+ type_name method +:+ "' object has no attribute 'upper'".
Proof.
  intros begun Haction Hmethod Hm.
  pose proof (execute_step_dict env fuel d parameters execution st) as Hstep.
  cbv zeta in Hstep. rewrite Haction in Hstep. simpl default in Hstep.
  fold begun in Hstep.
  change (dispatch env fuel (VDict d) (VStr "http_request") begun)
    with (execute_http_request env (VDict d) begun) in Hstep.
  unfold execute_http_request, bind, lift, py_get in Hstep. rewrite Hmethod in Hstep.
  simpl in Hstep.
  destruct method as [[| | |m|f]| |]; simpl in Hstep;
    try (eexists; split; [exact Hstep|]; done).
  by destruct (Hm m).
Qed.
End Http.

(** ** The catalog *)

Section Catalog.
Context {W : Type} (env : Env W).

Lemma last_loaded_app (k : pykey) (files1 files2 : list (exn + value)) :
  last_loaded env k (files1 ++ files2)
  = match last_loaded env k files2 with
    | Some d => Some d
    | None => last_loaded env k files1
    end.
Proof.
  induction files1 as [|file files1 IH]; simpl.
  - by destruct (last_loaded env k files2).
  - rewrite IH. by destruct (last_loaded env k files2).
Qed.

Lemma last_loaded_Some (k : pykey) (files : list (exn + value)) (d : value) :
  last_loaded env k files = Some d → inr d ∈ files ∧ loads_as env (inr d) = Some k.
Proof.
  induction files as [|file files IH]; simpl; [done|].
  destruct (last_loaded env k files) as [d'|].
  - intros [= ->]. destruct (IH eq_refl) as [Hin Hk]. split; [by right|done].
  - destruct file as [e|d0]; [done|]. case_decide as Hk; [|done].
    intros [= <-]. split; [by left|done].
Qed.

Lemma last_loaded_None (k : pykey) (files : list (exn + value)) :
  last_loaded env k files = None ↔ ∀ file, file ∈ files → loads_as env file ≠ Some k.
Proof.
  induction files as [|file files IH]; simpl.
  - split; [|done]. intros _ file Hin. by apply elem_of_nil in Hin.
  - destruct (last_loaded env k files) as [d'|].
    + split; [done|]. intros Hall. destruct IH as [_ IH].
      discriminate IH. intros file' Hin. apply Hall. by right.
    + destruct IH as [IH _]. specialize (IH eq_refl).
      destruct file as [e|d0].
      * split; [|done]. intros _ file' [->|Hin]%elem_of_cons; [done|by apply IH].
      * case_decide as Hk.
        -- split; [done|]. intros Hall. destruct (Hall (inr d0)); [by left|done].
        -- split; [|done]. intros _ file' [->|Hin]%elem_of_cons; [done|by apply IH].
Qed.

Lemma for_files_lookup (files : list (exn + value)) (st : Engine W) (k : pykey) :
  workflows (for_files env files st).2 !! k
  = match last_loaded env k files with
    | Some d => Some d
    | None => workflows st !! k
    end.
Proof.
  revert st. induction files as [|file files IH]; intros st; [done|].
  rewrite for_files_cons, IH. simpl last_loaded.
  destruct (last_loaded env k files) as [d'|]; [done|].
  destruct (loads_as env file) as [k'|] eqn:Hk'.
  - destruct file as [e|d0]; [done|].
    rewrite (load_workflow_file_loaded env (inr d0) d0 k') by done. simpl.
    case_decide as Hk.
    + injection Hk as ->. apply lookup_insert_eq.
    + apply lookup_insert_ne. congruence.
  - rewrite load_workflow_file_skipped by done.
    destruct file as [e|d0]; [done|]. by case_decide.
Qed.

(** X11: after [load_workflows] in a directory that could be made, the
    catalog holds, under a name, the document of the last of the files with
    that name: a later file replaces an earlier one of the same name,
    whatever the catalog held before and however the [glob] ends.  A name of
    none of the files keeps the entry it had: loading never removes an
    entry. *)
Theorem load_workflows_last_wins (before after : list (exn + value)) (d : value)
    (ending : option exn) (st : Engine W) (k : pykey) :
  let dir := mkDirectory None (before ++ inr d :: after) ending in
  loads_as env (inr d) = Some k →
  (∀ file, file ∈ after → loads_as env file ≠ Some k) →
  workflows (load_workflows env dir st).2 !! k = Some d
  ∧ ∀ k', (∀ file, file ∈ before ++ inr d :: after → loads_as env file ≠ Some k') →
          workflows (load_workflows env dir st).2 !! k' = workflows st !! k'.
Proof.
  intros dir Hk Hafter. rewrite (load_workflows_made env dir st eq_refl). simpl. split.
  - rewrite for_files_lookup, last_loaded_app. simpl last_loaded.
    apply last_loaded_None in Hafter. rewrite Hafter. by case_decide.
  - intros k' Hnone. rewrite for_files_lookup.
    apply last_loaded_None in Hnone. by rewrite Hnone.
Qed.

(** X12: loading the same directory again changes nothing of the
    catalog, whether or not [mkdir] or the [glob] raise. *)
Theorem load_workflows_again (dir : Directory) (st : Engine W) :
  workflows (load_workflows env dir (load_workflows env dir st).2).2
  = workflows (load_workflows env dir st).2.
Proof.
  destruct (mkdir_raises dir) as [e|] eqn:Hmade.
  - by rewrite !(load_workflows_not_made env dir e).
  - rewrite !load_workflows_made by done. simpl.
    apply map_eq. intros k. rewrite !for_files_lookup.
    by destruct (last_loaded env k (yielded dir)).
Qed.

Lemma loads_as_string (doc : value) (name : string) :
  loads_as env (inr doc) = Some (KStr name) →
  ∃ d, doc = VDict d ∧ dict_lookup d "name" = Some (VStr name).
Proof.
  unfold loads_as, py_getitem. destruct doc as [[| | |s|f]|l|d]; try done.
  destruct (dict_lookup d "name") as [x|] eqn:Hx; [|done].
  destruct x as [[|b|z|s|f]|l|d']; simpl; try done.
  - intros [= ->]. by exists d.
  - unfold float_key. destruct f as [negative|negative|negative m e]; try done.
    destruct (odd_part m e) as [m' e']. by destruct (0 <=? e')%Z.
Qed.

(** X13: on an engine fresh from an [__init__] that returned, the
    definition that [get_workflow] serves under a name is the document of
    one of the files, and its ['name'] is that very string; it serves one
    exactly when some file loads under the string.  So a document whose name
    is not a string (a number, say) is in the catalog but out of the reach
    of the URL. *)
Theorem get_workflow_serves_own_name (dir : Directory) (w : W) (engine : Engine W)
    (name : string) :
  init env dir w = (Ret tt, engine) →
  (∀ doc, get_workflow engine name = Some doc →
     inr doc ∈ yielded dir
     ∧ ∃ d, doc = VDict d ∧ dict_lookup d "name" = Some (VStr name))
  ∧ (is_Some (get_workflow engine name)
     ↔ ∃ file, file ∈ yielded dir ∧ loads_as env file = Some (KStr name)).
Proof.
  unfold init. destruct (mkdir_raises dir) as [e|] eqn:Hmade.
  { by rewrite (load_workflows_not_made env dir e). }
  rewrite load_workflows_made by done. intros [= _ <-].
  unfold get_workflow. rewrite for_files_lookup. simpl workflows.
  rewrite lookup_empty. split.
  - intros doc Hdoc.
    destruct (last_loaded env (KStr name) (yielded dir)) as [d'|] eqn:Hlast; [|done].
    injection Hdoc as ->. apply last_loaded_Some in Hlast as [Hin Hk].
    split; [done|]. by apply loads_as_string.
  - destruct (last_loaded env (KStr name) (yielded dir)) as [d'|] eqn:Hlast.
    + split; [|by eexists]. intros _. apply last_loaded_Some in Hlast as [Hin Hk].
      by exists (inr d').
    + split; [by intros [? ?]|]. intros (file & Hin & Hk).
      by destruct (proj1 (last_loaded_None _ _) Hlast file Hin).
Qed.
End Catalog.

(** ** What a run leaves alone *)

Section KeepsIdentity.
Context {W : Type} (env : Env W).
Variable P : list Execution → Prop.
Variable execution : nat.

(** [P] survives what other threads do, and every write that keeps the
    identity of the Execution it writes to. *)
Hypothesis P_concurrently : ∀ w exs, P exs → P (concurrently env w exs).
Hypothesis P_edit :
  ∀ f exs, (∀ e, identity (f e) = identity e) → P exs → P (alter f execution exs).

Lemma keeps_for_steps_identity (fuel : nat) (steps : list value) (parameters : value) :
  keeps P (for_steps env fuel steps parameters execution).
Proof.
  induction steps as [|step steps IH]; simpl.
  - intros st HP. simpl. by repeat apply P_edit.
  - apply keeps_bind; [apply keeps_execute_step; [done|]|intros r].
    { intros line exs. by apply P_edit. }
    apply keeps_bind; [intros st HP; simpl; by apply P_edit|intros _].
    destruct (sr_success r); [done|].
    intros st HP. simpl. by repeat apply P_edit.
Qed.

Lemma keeps_run_identity (fuel : nat) (workflow parameters : value) :
  keeps P (try_except (run_steps env fuel workflow parameters execution)
             (run_failed env execution)).
Proof.
  apply keeps_try_except.
  - unfold run_steps.
    apply keeps_bind; [apply keeps_lift|intros steps].
    apply keeps_bind; [apply keeps_lift|intros items]. apply keeps_for_steps_identity.
  - intros exc st HP. simpl. by repeat apply P_edit.
Qed.
End KeepsIdentity.

Section KeepsCatalog.
Context {W : Type} (env : Env W).

Lemma keeps_catalog_bind {A B} (m : M W A) (k : A → M W B) :
  keeps_catalog m → (∀ a, keeps_catalog (k a)) → keeps_catalog (bind m k).
Proof.
  intros Hm Hk st. unfold bind. specialize (Hm st).
  destruct (m st) as [[a|e|] st1]; simpl in *; [by rewrite Hk|done..].
Qed.

Lemma keeps_catalog_try_except {A} (m : M W A) (h : exn → M W A) :
  keeps_catalog m → (∀ e, keeps_catalog (h e)) → keeps_catalog (try_except m h).
Proof.
  intros Hm Hh st. unfold try_except. specialize (Hm st).
  destruct (m st) as [[a|e|] st1]; simpl in *; [done|by rewrite Hh|done].
Qed.

Lemma keeps_catalog_lift {A} (r : exn + A) : keeps_catalog (lift (W:=W) r).
Proof. by destruct r; intros st. Qed.

Lemma keeps_catalog_time_sleep (d : value) : keeps_catalog (time_sleep env d).
Proof.
  unfold time_sleep. destruct (as_number d) as [n|]; [|by intros st].
  destruct (sleep_nanoseconds n) as [ns|]; [|by intros st].
  destruct (ns <? 0); [by intros st|]. intros st.
  by destruct (sleep env ns (world st)) as [[e|] w].
Qed.

Lemma keeps_catalog_wait_loop (fuel : nat) (target timeout_seconds check_interval : value)
    (start_time : Z) :
  keeps_catalog (wait_loop env fuel target timeout_seconds check_interval start_time).
Proof.
  induction fuel as [|fuel IH]; simpl; [by intros st|].
  apply keeps_catalog_bind; [by intros st|intros now].
  apply keeps_catalog_bind; [apply keeps_catalog_lift|intros [|]]; [|by intros st].
  apply keeps_catalog_bind; [by intros st|intros exs].
  apply keeps_catalog_bind.
  - destruct (latest_execution exs target) as [latest|]; [|by intros st].
    destruct (e_status latest); [by intros st| |by intros st].
    destruct (e_end_time latest); by intros st.
  - intros [result|]; [by intros st|].
    apply keeps_catalog_bind; [apply keeps_catalog_time_sleep|intros _; apply IH].
Qed.

Lemma keeps_catalog_dispatch (fuel : nat) (step action : value) :
  keeps_catalog (dispatch env fuel step action).
Proof.
  unfold dispatch.
  repeat match goal with |- keeps_catalog (if ?b then _ else _) => destruct b end.
  - apply keeps_catalog_bind; [apply keeps_catalog_lift|intros command].
    intros st. rewrite execute_shell_command_run, subprocess_run_run.
    destruct (run_command env command 30 (world st)) as [[code out err| |e] w];
      [|done|done].
    destruct (decode env out); [done|]. by destruct (decode env err).
  - unfold execute_http_request.
    repeat (apply keeps_catalog_bind; [try apply keeps_catalog_lift|intros ?]).
    + destruct a0 as [[]| |]; by intros st.
    + intros st. cbv beta.
      by destruct (requests_request env _ _ _ _ _ (world st)) as [[e|response] w].
    + by intros st.
  - apply keeps_catalog_lift.
  - apply keeps_catalog_bind; [apply keeps_catalog_lift|intros ?].
    apply keeps_catalog_bind; [apply keeps_catalog_time_sleep|by intros ? st].
  - unfold wait_for_workflow_completion.
    repeat (apply keeps_catalog_bind; [try apply keeps_catalog_lift|intros ?]).
    + by intros st.
    + apply keeps_catalog_wait_loop.
  - unfold trigger_workflow.
    repeat (apply keeps_catalog_bind; [try apply keeps_catalog_lift|intros ?]).
    + by intros st.
    + destruct (_ !! _); [|by intros st].
      apply keeps_catalog_bind; [|by intros ? st].
      intros st. unfold start_thread.
      by destruct (thread_start env (world st)) as [[e|] w].
  - by intros st.
Qed.

Lemma keeps_catalog_execute_step (fuel : nat) (step parameters : value) (execution : nat) :
  keeps_catalog (execute_step env fuel step parameters execution).
Proof.
  unfold execute_step.
  repeat (apply keeps_catalog_bind; [try apply keeps_catalog_lift|intros ?]).
  - by intros st.
  - by intros st.
  - apply keeps_catalog_try_except; [|by intros e st].
    apply keeps_catalog_bind; [apply keeps_catalog_dispatch|by intros result st].
  - by intros st.
  - by intros st.
Qed.

Lemma keeps_catalog_for_steps (fuel : nat) (steps : list value) (parameters : value)
    (execution : nat) :
  keeps_catalog (for_steps env fuel steps parameters execution).
Proof.
  induction steps as [|step steps IH]; simpl; [by intros st|].
  apply keeps_catalog_bind; [apply keeps_catalog_execute_step|intros r].
  apply keeps_catalog_bind; [by intros st|intros _].
  destruct (sr_success r); [done|]. by intros st.
Qed.

Lemma keeps_catalog_execute_workflow (fuel : nat) (workflow_name parameters : value) :
  keeps_catalog (execute_workflow env fuel workflow_name parameters).
Proof.
  unfold execute_workflow.
  apply keeps_catalog_bind; [apply keeps_catalog_lift|intros name].
  apply keeps_catalog_bind; [by intros st|intros ws].
  destruct (ws !! key_of name) as [workflow|]; [|by intros st].
  apply keeps_catalog_bind; [by intros st|intros execution].
  apply keeps_catalog_bind; [|by intros ? st].
  apply keeps_catalog_try_except; [|by intros e st].
  unfold run_steps.
  apply keeps_catalog_bind; [apply keeps_catalog_lift|intros steps].
  apply keeps_catalog_bind; [apply keeps_catalog_lift|intros items].
  apply keeps_catalog_for_steps.
Qed.
End KeepsCatalog.

Lemma find_app {A} (f : A → bool) (l1 l2 : list A) :
  List.find f (l1 ++ l2)
  = match List.find f l1 with
    | Some x => Some x
    | None => List.find f l2
    end.
Proof. induction l1 as [|x l1 IH]; simpl; [done|]. by destruct (f x). Qed.

Lemma find_none_forall {A} (f : A → bool) (l : list A) :
  Forall (λ x, f x = false) l → List.find f l = None.
Proof. induction 1 as [|x l Hx _ IH]; simpl; [done|]. by rewrite Hx. Qed.

Lemma string_app_inv_head (s a b : string) : s +:+ a = s +:+ b → a = b.
Proof. induction s as [|c s IH]; simpl; [done|]. intros [= H]. by apply IH. Qed.

Section Frame.
Context {W : Type} (env : Env W).

Lemma execute_workflow_appends (fuel : nat) (workflow_name : scalar)
    (parameters workflow : value) (st st' : Engine W) (o : outcome nat) :
  alone env →
  workflows st !! key_of workflow_name = Some workflow →
  execute_workflow env fuel workflow_name parameters st = (o, st') →
  ∃ e,
    executions st' = executions st ++ [e]
    ∧ e_id e = str env workflow_name +:+ "_"
               +:+ pretty (clock env (world st) `quot` 1000000)
    ∧ e_workflow_name e = workflow_name
    ∧ e_parameters e = (if py_truthy parameters then parameters else VDict []).
Proof.
  intros Halone Hwf Hrun.
  rewrite (execute_workflow_found _ _ _ _ _ _ Hwf) in Hrun.
  destruct (new_execution_appends env workflow_name parameters st)
    as (e0 & _ & Hexs & Hname & _ & _ & _ & _ & Hid).
  assert (e_parameters e0 = (if py_truthy parameters then parameters else VDict []))
    as Hparameters.
  { unfold created, new_execution in Hexs. simpl in Hexs.
    apply app_inv_head in Hexs. by injection Hexs as <-. }
  pose proof (keeps_run_identity env
                (λ exs, ∃ e, exs = executions st ++ [e] ∧ identity e = identity e0)
                (List.length (executions st))) as Hkeeps.
  cbv beta in Hkeeps.
  specialize (Hkeeps ltac:(by intros w exs; rewrite Halone)).
  assert (∀ f exs, (∀ e, identity (f e) = identity e) →
            (∃ e, exs = executions st ++ [e] ∧ identity e = identity e0) →
            ∃ e, alter f (List.length (executions st)) exs = executions st ++ [e]
                 ∧ identity e = identity e0) as Hedit.
  { intros f exs Hf (e & -> & He). exists (f e).
    rewrite alter_app_r_alt by lia. rewrite Nat.sub_diag. simpl.
    split; [done|]. by rewrite Hf. }
  specialize (Hkeeps Hedit fuel workflow parameters (created env workflow_name parameters st)
                ltac:(by exists e0)).
  destruct (try_except _ _ _) as [o1 st1]. simpl in Hkeeps.
  destruct Hkeeps as (e & He & Hident). unfold identity in Hident.
  injection Hident as Hid' Hname' _ Hparameters'.
  assert (st' = st1) as -> by (destruct o1 as [[]| |]; congruence).
  exists e. split; [done|]. split; [congruence|]. split; congruence.
Qed.

(** X14: when no other thread runs, a run of a workflow of the catalog,
    however it ends, appends exactly one Execution to the history and leaves
    the Executions that were there, and the catalog, as they were; the new
    Execution keeps the id, the workflow name and the parameters ([{}] for an
    empty or missing payload) it was created with. *)
Theorem run_appends_one_execution (fuel : nat) (workflow_name : scalar)
    (parameters workflow : value) (st st' : Engine W) (o : outcome nat) :
  alone env →
  workflows st !! key_of workflow_name = Some workflow →
  execute_workflow env fuel workflow_name parameters st = (o, st') →
  workflows st' = workflows st
  ∧ ∃ e,
      executions st' = executions st ++ [e]
      ∧ e_id e = str env workflow_name +:+ "_"
                 +:+ pretty (clock env (world st) `quot` 1000000)
      ∧ e_workflow_name e = workflow_name
      ∧ e_parameters e = (if py_truthy parameters then parameters else VDict []).
Proof.
  intros Halone Hwf Hrun. split.
  - pose proof (keeps_catalog_execute_workflow env fuel workflow_name parameters st) as Hk.
    by rewrite Hrun in Hk.
  - by eapply execute_workflow_appends.
Qed.

(** X15: when no other thread runs, a lookup by the id of a run that has
    returned finds an Execution with that id; it finds the Execution of the
    run itself when no earlier Execution has the id. *)
Theorem get_execution_after_run (fuel : nat) (workflow_name : scalar)
    (parameters workflow : value) (st st' : Engine W) (execution : nat) :
  let execution_id :=
    str env workflow_name +:+ "_" +:+ pretty (clock env (world st) `quot` 1000000) in
  alone env →
  workflows st !! key_of workflow_name = Some workflow →
  execute_workflow env fuel workflow_name parameters st = (Ret execution, st') →
  (∃ e, get_execution st' execution_id = Some e ∧ e_id e = execution_id)
  ∧ (Forall (λ e, e_id e ≠ execution_id) (executions st) →
     get_execution st' execution_id = executions st' !! execution
     ∧ is_Some (executions st' !! execution)).
Proof.
  intros execution_id Halone Hwf Hrun.
  destruct (execute_workflow_appends fuel workflow_name parameters workflow st st' _
              Halone Hwf Hrun) as (e & Hexs & Hid & _).
  fold execution_id in Hid.
  assert (execution = List.length (executions st)) as ->.
  { rewrite (execute_workflow_found _ _ _ _ _ _ Hwf) in Hrun.
    destruct (try_except _ _ _) as [[[]| |] st1]; congruence. }
  unfold get_execution. rewrite Hexs, find_app. split.
  - destruct (List.find _ (executions st)) as [e'|] eqn:Hfind.
    + exists e'. split; [done|]. apply List.find_some in Hfind as [_ Heq].
      by apply String.eqb_eq in Heq.
    + exists e. simpl. rewrite Hid, String.eqb_refl. done.
  - intros Hfresh. rewrite find_none_forall.
    + simpl. rewrite Hid, String.eqb_refl, list_lookup_middle by done. split; [done|].
      by eexists.
    + eapply Forall_impl; [exact Hfresh|]. intros e' He'. by apply String.eqb_neq.
Qed.

(** X16: two runs of one workflow get the same id exactly when their
    readings of the clock fall in the same second. *)
Theorem execution_id_same_second_iff (workflow_name : scalar) (parameters parameters' : value)
    (st st' : Engine W) :
  e_id <$> last (executions (created env workflow_name parameters st))
  = e_id <$> last (executions (created env workflow_name parameters' st'))
  ↔ clock env (world st) `quot` 1000000 = clock env (world st') `quot` 1000000.
Proof.
  split; [|apply new_execution_same_second].
  unfold created, new_execution. simpl. rewrite !last_snoc. simpl.
  intros [= Hid]. apply string_app_inv_head in Hid.
  apply (string_app_inv_head "_") in Hid. by apply (inj pretty) in Hid.
Qed.
End Frame.

(** ** The properties on the samples *)

Lemma sample_alone : alone Sample.env.
Proof. by intros w exs. Qed.

(** X1 on the workflow ["notify"]: two log steps, both succeed. *)
Lemma all_steps_succeed_completes_witness :
  ∃ rs st1 st2 e,
    workflows Demo.engine !! key_of (SStr "notify") = Some Demo.notify
    ∧ run_prefix Sample.env 1
        [Sample.step "hello" "log" [("message", VStr "build started")];
         Sample.step "bye" "log" []]
        (VDict []) 0 (created Sample.env (SStr "notify") (VDict []) Demo.engine)
      = Some (rs, st1)
    ∧ execute_workflow Sample.env 1 (VStr "notify") (VDict []) Demo.engine = (Ret 0%nat, st2)
    ∧ executions st2 !! 0%nat = Some e
    ∧ e_steps e = rs
    ∧ List.length rs = 2%nat
    ∧ e_status e = completed
    ∧ e_error e = None.
Proof.
  assert (workflows Demo.engine !! key_of (SStr "notify") = Some Demo.notify) as Hwf
    by (vm_compute; reflexivity).
  assert (∃ rs st1,
            run_prefix Sample.env 1
              [Sample.step "hello" "log" [("message", VStr "build started")];
               Sample.step "bye" "log" []]
              (VDict []) 0 (created Sample.env (SStr "notify") (VDict []) Demo.engine)
            = Some (rs, st1)) as (rs & st1 & Hprefix)
    by (eexists _, _; vm_compute; reflexivity).
  destruct (all_steps_succeed_completes Sample.env 1 (SStr "notify") (VDict []) Demo.notify
              (VList [Sample.step "hello" "log" [("message", VStr "build started")];
                      Sample.step "bye" "log" []])
              [Sample.step "hello" "log" [("message", VStr "build started")];
               Sample.step "bye" "log" []]
              Demo.engine st1 rs Hwf eq_refl eq_refl (sample_quiet 0) Hprefix)
    as (st2 & e & Hrun & He & Hsteps & Hlen & _ & Hstatus & _ & Herror).
  exists rs, st1, st2, e.
  split; [exact Hwf|]. split; [exact Hprefix|]. split; [exact Hrun|]. split; [exact He|].
  split; [exact Hsteps|]. split; [exact Hlen|]. split; [exact Hstatus|exact Herror].
Defined.

(** X2 on a run of ["deploy"], whose second step fails. *)
Lemma run_ends_finished_witness :
  ∃ st' e,
    workflows Demo.engine !! key_of (SStr "deploy") = Some Sample.deploy
    ∧ execute_workflow Sample.env 1 (VStr "deploy") (VDict []) Demo.engine = (Ret 0%nat, st')
    ∧ executions st' !! 0%nat = Some e
    ∧ is_Some (e_end_time e)
    ∧ match e_status e with
      | running => False
      | completed => all_succeeded (e_steps e) ∧ e_error e = None
      | failed =>
          (e_error e = None
           ∧ ∃ rs r, e_steps e = rs ++ [r] ∧ all_succeeded rs ∧ sr_success r = false)
          ∨ (is_Some (e_error e) ∧ all_succeeded (e_steps e))
      end.
Proof.
  assert (workflows Demo.engine !! key_of (SStr "deploy") = Some Sample.deploy) as Hwf
    by (vm_compute; reflexivity).
  assert (∃ st', execute_workflow Sample.env 1 (VStr "deploy") (VDict []) Demo.engine
                 = (Ret 0%nat, st')) as (st' & Hrun)
    by (eexists; vm_compute; reflexivity).
  destruct (run_ends_finished Sample.env 1 (SStr "deploy") (VDict []) Sample.deploy
              Demo.engine st' 0 Hwf (sample_quiet _) Hrun)
    as (_ & e & He & Hend & Hstatus & _).
  exists st', e.
  split; [exact Hwf|]. split; [exact Hrun|]. split; [exact He|]. split; [exact Hend|].
  exact Hstatus.
Defined.

(** X3 on the workflows ["bare"], without steps, and ["hollow"], whose
    steps are null. *)
Lemma run_without_steps_witness :
  (workflows Demo.engine !! key_of (SStr "bare") = Some Demo.bare
   ∧ ∃ st' e,
       execute_workflow Sample.env 0 (VStr "bare") VNone Demo.engine = (Ret 0%nat, st')
       ∧ executions st' !! 0%nat = Some e
       ∧ e_status e = completed ∧ e_steps e = [] ∧ e_error e = None
       ∧ is_Some (e_end_time e))
  ∧ (workflows Demo.engine !! key_of (SStr "hollow") = Some Demo.hollow
     ∧ ∃ st' e,
         execute_workflow Sample.env 0 (VStr "hollow") VNone Demo.engine = (Ret 0%nat, st')
         ∧ executions st' !! 0%nat = Some e
         ∧ e_status e = failed ∧ e_steps e = []
         ∧ e_error e = Some (str_exn (TypeError "'NoneType' object is not iterable"))
         ∧ is_Some (e_end_time e)).
Proof.
  assert (workflows Demo.engine !! key_of (SStr "bare") = Some Demo.bare) as Hbare
    by (vm_compute; reflexivity).
  assert (workflows Demo.engine !! key_of (SStr "hollow") = Some Demo.hollow) as Hhollow
    by (vm_compute; reflexivity).
  split; (split; [assumption|]).
  - destruct (run_without_steps Sample.env 0 (SStr "bare") VNone Demo.bare (VList [])
                Demo.engine Hbare eq_refl) as (Hempty & _).
    exact (Hempty eq_refl).
  - destruct (run_without_steps Sample.env 0 (SStr "hollow") VNone Demo.hollow VNone
                Demo.engine Hhollow eq_refl) as (_ & Hraise).
    exact (Hraise _ eq_refl).
Defined.

(** X4 on the workflow ["broken"], whose only step is a string. *)
Lemma non_mapping_step_fails_run_witness :
  ∃ st2 e,
    workflows Demo.engine !! key_of (SStr "broken") = Some Sample.broken
    ∧ execute_workflow Sample.env 0 (VStr "broken") VNone Demo.engine = (Ret 0%nat, st2)
    ∧ executions st2 !! 0%nat = Some e
    ∧ e_steps e = []
    ∧ e_status e = failed
    ∧ e_error e = Some ("'" +:+ type_name (VStr "echo hello")
                        +:+ "' object has no attribute 'get'")
    ∧ is_Some (e_end_time e).
Proof.
  assert (workflows Demo.engine !! key_of (SStr "broken") = Some Sample.broken) as Hwf
    by (vm_compute; reflexivity).
  destruct (non_mapping_step_fails_run Sample.env 0 (SStr "broken") VNone Sample.broken
              (VList [VStr "echo hello"]) [] [] (VStr "echo hello") Demo.engine
              (created Sample.env (SStr "broken") VNone Demo.engine) []
              Hwf eq_refl eq_refl (sample_quiet _) eq_refl ltac:(by intros d))
    as (st2 & e & Hrun & He & Hsteps & Hstatus & Herror & Hend).
  exists st2, e.
  split; [exact Hwf|]. split; [exact Hrun|]. split; [exact He|]. split; [exact Hsteps|].
  split; [exact Hstatus|]. split; [exact Herror|exact Hend].
Defined.

(** X5 on a log step without a name. *)
Lemma execute_step_result_shape_witness :
  ∃ r st',
    execute_step Sample.env 0 (VDict [("action", VStr "log")]) VNone 0 Sample.started
    = (Ret r, st')
    ∧ sr_name r = VStr "unnamed_step"
    ∧ sr_action r = VStr "log"
    ∧ is_Some (sr_end_time r).
Proof.
  assert (∃ r st',
            execute_step Sample.env 0 (VDict [("action", VStr "log")]) VNone 0 Sample.started
            = (Ret r, st')) as (r & st' & Hstep)
    by (eexists _, _; vm_compute; reflexivity).
  destruct (execute_step_result_shape Sample.env 0 _ VNone 0 Sample.started st' r Hstep)
    as (d & Hd & Hname & Haction & _ & Hend & _).
  injection Hd as <-.
  exists r, st'. split; [exact Hstep|]. split; [exact Hname|]. split; [exact Haction|].
  exact Hend.
Defined.

(** X6 on a log step with a message. *)
Lemma log_step_succeeds_witness :
  dict_lookup [("name", VStr "hello"); ("action", VStr "log");
               ("message", VStr "build started")] "action" = Some (VStr "log")
  ∧ ∃ r st',
      execute_step Sample.env 0
        (Sample.step "hello" "log" [("message", VStr "build started")]) VNone 0 Sample.started
      = (Ret r, st')
      ∧ sr_success r = true
      ∧ sr_output r = VStr "build started".
Proof.
  split; [reflexivity|].
  destruct (log_step_succeeds Sample.env 0
              [("name", VStr "hello"); ("action", VStr "log");
               ("message", VStr "build started")] VNone 0 Sample.started eq_refl)
    as (r & Hstep & Hr & Houtput & _).
  exists r. eexists. split; [exact Hstep|]. split; [exact Hr|exact Houtput].
Defined.

(** X7 on delays of 2 seconds, of half a second, of -1 second, of 10^10
    seconds, of 9000000000 seconds, which the system refuses, and of
    ["soon"]. *)
Lemma delay_step_result_witness :
  (∃ r st',
     execute_step Sample.env 0 (Sample.step "pause" "delay" [("seconds", VInt 2)]) VNone 0
       Sample.started = (Ret r, st')
     ∧ sr_success r = true
     ∧ sr_output r = VStr "Delayed for 2 seconds"
     ∧ clock Sample.env (world (step_begun Sample.env (VStr "pause") 0 Sample.started))
       + 2000000 ≤ clock Sample.env (world st'))
  ∧ (∃ r st',
       execute_step Sample.env 0
         (Sample.step "blink" "delay" [("seconds", VFloat (FFinite false 4503599627370496 (-53)))])
         VNone 0 Sample.started = (Ret r, st')
       ∧ sr_success r = true
       ∧ sr_output r = VStr "Delayed for 0.5 seconds"
       ∧ clock Sample.env (world (step_begun Sample.env (VStr "blink") 0 Sample.started))
         + 500000 ≤ clock Sample.env (world st'))
  ∧ (∃ r st',
       execute_step Sample.env 0 (Sample.step "rewind" "delay" [("seconds", VInt (-1))]) VNone
         0 Sample.started = (Ret r, st')
       ∧ sr_success r = false
       ∧ sr_error r = "sleep length must be non-negative")
  ∧ (∃ r st',
       execute_step Sample.env 0
         (Sample.step "ages" "delay" [("seconds", VInt 10000000000)]) VNone 0 Sample.started
       = (Ret r, st')
       ∧ sr_success r = false
       ∧ sr_error r = "timestamp too large to convert to C _PyTime_t"
       ∧ world st'
         = tick Sample.env (world (step_begun Sample.env (VStr "ages") 0 Sample.started)))
  ∧ (∃ r st',
       execute_step Sample.env 0
         (Sample.step "long" "delay" [("seconds", VInt 9000000000)]) VNone 0 Sample.started
       = (Ret r, st')
       ∧ sr_success r = false
       ∧ sr_error r = "[Errno 22] Invalid argument")
  ∧ (∃ r st',
       execute_step Sample.env 0
         (Sample.step "soon" "delay" [("seconds", VStr "soon")]) VNone 0 Sample.started
       = (Ret r, st')
       ∧ sr_success r = false
       ∧ sr_error r = "'str' object cannot be interpreted as an integer")
  ∧ sleep_nanoseconds (NInt 9223372036) = Some 9223372036000000000
  ∧ sleep_nanoseconds (NInt 9223372037) = None.
Proof.
  pose proof (proj1 (delay_step_result Sample.env 0
                       [("name", VStr "pause"); ("action", VStr "delay"); ("seconds", VInt 2)]
                       VNone 0 Sample.started eq_refl)) as Hpause.
  pose proof (proj1 (delay_step_result Sample.env 0
                       [("name", VStr "blink"); ("action", VStr "delay");
                        ("seconds", VFloat (FFinite false 4503599627370496 (-53)))]
                       VNone 0 Sample.started eq_refl)) as Hblink.
  pose proof (proj1 (delay_step_result Sample.env 0
                       [("name", VStr "rewind"); ("action", VStr "delay");
                        ("seconds", VInt (-1))]
                       VNone 0 Sample.started eq_refl)) as Hrewind.
  pose proof (proj1 (delay_step_result Sample.env 0
                       [("name", VStr "ages"); ("action", VStr "delay");
                        ("seconds", VInt 10000000000)]
                       VNone 0 Sample.started eq_refl)) as Hages.
  pose proof (proj1 (delay_step_result Sample.env 0
                       [("name", VStr "long"); ("action", VStr "delay");
                        ("seconds", VInt 9000000000)]
                       VNone 0 Sample.started eq_refl)) as Hlong.
  pose proof (proj1 (delay_step_result Sample.env 0
                       [("name", VStr "soon"); ("action", VStr "delay");
                        ("seconds", VStr "soon")]
                       VNone 0 Sample.started eq_refl)) as Hsoon.
  pose proof (proj2 (delay_step_result Sample.env 0
                       [("name", VStr "pause"); ("action", VStr "delay"); ("seconds", VInt 2)]
                       VNone 0 Sample.started eq_refl)) as Hint.
  cbv zeta in Hpause, Hblink, Hrewind, Hages, Hlong, Hsoon.
  destruct Hpause as (r1 & st1 & Hstep1 & Hr1).
  destruct Hblink as (r2 & st2 & Hstep2 & Hr2).
  destruct Hrewind as (r3 & st3 & Hstep3 & Hr3).
  destruct Hages as (r4 & st4 & Hstep4 & Hr4).
  destruct Hlong as (r5 & st5 & Hstep5 & Hr5).
  destruct Hsoon as (r6 & st6 & Hstep6 & Hr6).
  simpl default in Hr1, Hr2, Hr3, Hr4, Hr5, Hr6.
  change (as_number (VInt 2)) with (Some (NInt 2)) in Hr1.
  cbv beta iota in Hr1.
  change (sleep_nanoseconds (NInt 2)) with (Some 2000000000) in Hr1.
  cbv beta iota in Hr1.
  change (2000000000 <? 0) with false in Hr1. cbv beta iota in Hr1.
  assert ((sleep Sample.env 2000000000
             (world (step_begun Sample.env (VStr "pause") 0 Sample.started))).1 = None)
    as Hgranted1 by (vm_compute; reflexivity).
  rewrite Hgranted1 in Hr1. cbv beta iota in Hr1. destruct Hr1 as (Hs1 & Ho1 & _ & Hclock1).
  assert (as_number (VFloat (FFinite false 4503599627370496 (-53)))
          = Some (NFloat (FFinite false 4503599627370496 (-53)))) as Hn2 by reflexivity.
  assert (sleep_nanoseconds (NFloat (FFinite false 4503599627370496 (-53))) = Some 500000000)
    as Hns2 by (vm_compute; reflexivity).
  rewrite Hn2 in Hr2. cbv beta iota in Hr2. rewrite Hns2 in Hr2. cbv beta iota in Hr2.
  change (500000000 <? 0) with false in Hr2. cbv beta iota in Hr2.
  assert ((sleep Sample.env 500000000
             (world (step_begun Sample.env (VStr "blink") 0 Sample.started))).1 = None)
    as Hgranted2 by (vm_compute; reflexivity).
  rewrite Hgranted2 in Hr2. cbv beta iota in Hr2. destruct Hr2 as (Hs2 & Ho2 & _ & Hclock2).
  change (as_number (VInt (-1))) with (Some (NInt (-1))) in Hr3.
  cbv beta iota in Hr3.
  change (sleep_nanoseconds (NInt (-1))) with (Some (-1000000000)) in Hr3.
  cbv beta iota in Hr3.
  change (-1000000000 <? 0) with true in Hr3. cbv beta iota in Hr3.
  destruct Hr3 as (Hs3 & He3 & _).
  change (as_number (VInt 10000000000)) with (Some (NInt 10000000000)) in Hr4.
  cbv beta iota in Hr4.
  change (sleep_nanoseconds (NInt 10000000000)) with (@None Z) in Hr4.
  cbv beta iota in Hr4.
  destruct Hr4 as (Hs4 & He4 & Hw4).
  change (as_number (VInt 9000000000)) with (Some (NInt 9000000000)) in Hr5.
  cbv beta iota in Hr5.
  change (sleep_nanoseconds (NInt 9000000000)) with (Some 9000000000000000000) in Hr5.
  cbv beta iota in Hr5.
  change (9000000000000000000 <? 0) with false in Hr5. cbv beta iota in Hr5.
  assert ((sleep Sample.env 9000000000000000000
             (world (step_begun Sample.env (VStr "long") 0 Sample.started))).1
          = Some (mkExn "OSError" "[Errno 22] Invalid argument"))
    as Hrefused5 by (vm_compute; reflexivity).
  rewrite Hrefused5 in Hr5. cbv beta iota in Hr5. destruct Hr5 as (Hs5 & He5).
  change (as_number (VStr "soon")) with (@None number) in Hr6.
  cbv beta iota in Hr6.
  destruct Hr6 as (Hs6 & He6 & _).
  split; [exists r1, st1; split; [exact Hstep1|]; split; [exact Hs1|]; split; [exact Ho1|];
          exact (Hclock1 sample_steady)|].
  split; [exists r2, st2; split; [exact Hstep2|]; split; [exact Hs2|]; split; [exact Ho2|];
          exact (Hclock2 sample_steady)|].
  split; [exists r3, st3; split; [exact Hstep3|]; split; [exact Hs3|exact He3]|].
  split; [exists r4, st4; split; [exact Hstep4|]; split; [exact Hs4|];
          split; [exact He4|exact Hw4]|].
  split; [exists r5, st5; split; [exact Hstep5|]; split; [exact Hs5|exact He5]|].
  split; [exists r6, st6; split; [exact Hstep6|]; split; [exact Hs6|exact He6]|].
  split; [exact (Hint 9223372036)|exact (Hint 9223372037)].
Defined.

(** X8 on a trigger of ["notify"], which is in the catalog, and of
    ["nightly"], which is not. *)
Lemma trigger_step_result_witness :
  (∃ r st',
     execute_step Sample.env 0
       (Sample.step "fan out" "trigger_workflow"
          [("workflow_name", VStr "notify"); ("parameters", VDict [("stage", VStr "qa")])])
       VNone 0 Demo.engine = (Ret r, st')
     ∧ sr_success r = true
     ∧ threads st' = threads Demo.engine ++ [(VStr "notify", VDict [("stage", VStr "qa")])]
     ∧ executions st' = executions (step_begun Sample.env (VStr "fan out") 0 Demo.engine))
  ∧ ∃ r st',
      execute_step Sample.env 0
        (Sample.step "fan out" "trigger_workflow" [("workflow_name", VStr "nightly")])
        VNone 0 Demo.engine = (Ret r, st')
      ∧ sr_success r = false
      ∧ sr_error r = "Target workflow '" +:+ str Sample.env (VStr "nightly") +:+ "' not found"
      ∧ threads st' = threads Demo.engine.
Proof.
  assert (workflows Demo.engine !! key_of (SStr "notify") = Some Demo.notify) as Hnotify
    by (vm_compute; reflexivity).
  assert (workflows Demo.engine !! key_of (SStr "nightly") = None) as Hnightly
    by (vm_compute; reflexivity).
  split.
  - destruct (trigger_step_result Sample.env 0
                [("name", VStr "fan out"); ("action", VStr "trigger_workflow");
                 ("workflow_name", VStr "notify");
                 ("parameters", VDict [("stage", VStr "qa")])]
                VNone 0 Demo.engine eq_refl) as (r & st' & Hstep & _ & Hcase).
    change (py_hash _) with (@inr exn scalar (SStr "notify")) in Hcase.
    cbv beta iota in Hcase. rewrite Hnotify in Hcase.
    destruct Hcase as (_ & Halone & Hr & _ & Hthreads).
    exists r, st'. split; [exact Hstep|]. split; [exact Hr|]. split; [exact Hthreads|].
    exact (Halone sample_alone).
  - destruct (trigger_step_result Sample.env 0
                [("name", VStr "fan out"); ("action", VStr "trigger_workflow");
                 ("workflow_name", VStr "nightly")]
                VNone 0 Demo.engine eq_refl) as (r & st' & Hstep & _ & Hcase).
    change (py_hash _) with (@inr exn scalar (SStr "nightly")) in Hcase.
    cbv beta iota in Hcase. rewrite Hnightly in Hcase.
    destruct Hcase as (Hr & Herror & Hthreads & _).
    exists r, st'. split; [exact Hstep|]. split; [exact Hr|]. split; [exact Herror|].
    exact Hthreads.
Defined.

(** X9 on a POST, written in lower case, to a peer that answers 404, and on
    a GET of an answer of 1200 characters. *)
Lemma http_step_result_witness :
  (∃ r st',
     execute_step Demo.online 0
       (Sample.step "ping" "http_request"
          [("method", VStr "post"); ("url", VStr "http://localhost:9101/health");
           ("data", VDict [("probe", VS (SBool true))])])
       VNone 0 Sample.started = (Ret r, st')
     ∧ sr_success r = true
     ∧ sr_output r
       = VDict [("status_code", VInt 404);
                ("headers", VDict [("Content-Type", VStr "text/plain")]);
                ("body", VStr "no such page")])
  ∧ ∃ r st' body,
      execute_step Demo.online 0
        (Sample.step "fetch" "http_request" [("url", VStr "http://localhost:9101/flood")])
        VNone 0 Sample.started = (Ret r, st')
      ∧ sr_success r = true
      ∧ sr_output r
        = VDict [("status_code", VInt 200);
                 ("headers", VDict [("Content-Type", VStr "text/plain")]);
                 ("body", VStr body)]
      ∧ String.length Demo.flood = 1200%nat
      ∧ String.length body = 1000%nat
      ∧ String.prefix body Demo.flood = true.
Proof.
  split.
  - destruct (http_step_result Demo.online 0
                [("name", VStr "ping"); ("action", VStr "http_request");
                 ("method", VStr "post"); ("url", VStr "http://localhost:9101/health");
                 ("data", VDict [("probe", VS (SBool true))])]
                VNone 0 Sample.started "post" eq_refl eq_refl)
      as (r & st' & Hstep & Hr & body & Houtput & _ & _ & Hbody).
    assert (String.length "no such page" ≤ 1000)%nat as Hlength by (vm_compute; lia).
    rewrite (Hbody Hlength) in Houtput.
    exists r, st'. split; [exact Hstep|]. split; [exact Hr|exact Houtput].
  - destruct (http_step_result Demo.online 0
                [("name", VStr "fetch"); ("action", VStr "http_request");
                 ("url", VStr "http://localhost:9101/flood")]
                VNone 0 Sample.started "GET" eq_refl eq_refl)
      as (r & st' & Hstep & Hr & body & Houtput & Hlength & Hprefix & _).
    assert (String.length Demo.flood = 1200%nat) as Hflood by (vm_compute; reflexivity).
    change (String.length body = (1000 `min` String.length Demo.flood)%nat) in Hlength.
    rewrite Hflood in Hlength.
    assert ((1000 `min` 1200)%nat = 1000%nat) as Hmin by (vm_compute; reflexivity).
    rewrite Hmin in Hlength.
    exists r, st', body. split; [exact Hstep|]. split; [exact Hr|]. split; [exact Houtput|].
    split; [exact Hflood|]. split; [exact Hlength|exact Hprefix].
Defined.

(** X10 on a step whose method is the number 5. *)
Lemma http_step_bad_method_witness :
  ∃ r st',
    execute_step Sample.env 0
      (Sample.step "ping" "http_request" [("method", VInt 5)]) VNone 0 Sample.started
    = (Ret r, st')
    ∧ sr_success r = false
    ∧ sr_error r = "'int' object has no attribute 'upper'".
Proof.
  assert (∀ m, VInt 5 ≠ VStr m) as Hmethod by (by intros m).
  destruct (http_step_bad_method Sample.env 0
              [("name", VStr "ping"); ("action", VStr "http_request"); ("method", VInt 5)]
              VNone 0 Sample.started (VInt 5) eq_refl eq_refl Hmethod)
    as (r & Hstep & Hr & Herror).
  exists r. eexists. split; [exact Hstep|]. split; [exact Hr|exact Herror].
Defined.

(** X11 on two files with the name ["bare"], in a directory whose
    [glob] ends with an error. *)
Lemma load_workflows_last_wins_witness :
  loads_as Sample.env
    (inr (VDict [("name", VStr "bare"); ("steps", VList [Sample.step "s" "log" []])]))
  = Some (KStr "bare")
  ∧ workflows
      (load_workflows Sample.env
         (mkDirectory None
            ([inr Demo.bare]
             ++ inr (VDict [("name", VStr "bare");
                            ("steps", VList [Sample.step "s" "log" []])])
                :: [inr Demo.numbered])
            (Some (mkExn "OSError" "[Errno 5] Input/output error")))
         Sample.empty).2
    !! KStr "bare"
    = Some (VDict [("name", VStr "bare"); ("steps", VList [Sample.step "s" "log" []])]).
Proof.
  assert (∀ file, file ∈ [inr Demo.numbered : exn + value] →
                  loads_as Sample.env file ≠ Some (KStr "bare")) as Hafter.
  { intros file Hin. apply list_elem_of_singleton in Hin. by rewrite Hin. }
  destruct (load_workflows_last_wins Sample.env [inr Demo.bare] [inr Demo.numbered]
              (VDict [("name", VStr "bare"); ("steps", VList [Sample.step "s" "log" []])])
              (Some (mkExn "OSError" "[Errno 5] Input/output error"))
              Sample.empty (KStr "bare") eq_refl Hafter) as [Hlast _].
  split; [reflexivity|exact Hlast].
Defined.

(** X13 on the engine of the samples and the name ["notify"]. *)
Lemma get_workflow_serves_own_name_witness :
  init Sample.env Demo.directory 1700000000000000 = (Ret tt, Demo.engine)
  ∧ (∀ doc, get_workflow Demo.engine "notify" = Some doc →
       inr doc ∈ yielded Demo.directory
       ∧ ∃ d, doc = VDict d ∧ dict_lookup d "name" = Some (VStr "notify"))
  ∧ (is_Some (get_workflow Demo.engine "notify")
     ↔ ∃ file, file ∈ yielded Demo.directory
               ∧ loads_as Sample.env file = Some (KStr "notify")).
Proof.
  assert (init Sample.env Demo.directory 1700000000000000 = (Ret tt, Demo.engine)) as Hinit
    by (vm_compute; reflexivity).
  split; [exact Hinit|].
  exact (get_workflow_serves_own_name Sample.env Demo.directory 1700000000000000
           Demo.engine "notify" Hinit).
Defined.

(** X14 on a run of ["notify"]. *)
Lemma run_appends_one_execution_witness :
  ∃ st' e,
    execute_workflow Sample.env 1 (VStr "notify") VNone Demo.engine = (Ret 0%nat, st')
    ∧ workflows st' = workflows Demo.engine
    ∧ executions st' = executions Demo.engine ++ [e]
    ∧ e_workflow_name e = SStr "notify"
    ∧ e_parameters e = VDict [].
Proof.
  assert (workflows Demo.engine !! key_of (SStr "notify") = Some Demo.notify) as Hwf
    by (vm_compute; reflexivity).
  assert (∃ st', execute_workflow Sample.env 1 (VStr "notify") VNone Demo.engine
                 = (Ret 0%nat, st')) as (st' & Hrun)
    by (eexists; vm_compute; reflexivity).
  destruct (run_appends_one_execution Sample.env 1 (SStr "notify") VNone Demo.notify
              Demo.engine st' (Ret 0%nat) sample_alone Hwf Hrun)
    as (Hcatalog & e & Hexs & _ & Hname & Hparameters).
  exists st', e. split; [exact Hrun|]. split; [exact Hcatalog|]. split; [exact Hexs|].
  split; [exact Hname|exact Hparameters].
Defined.

(** X15 on a run of ["notify"] on an engine without history. *)
Lemma get_execution_after_run_witness :
  ∃ st',
    execute_workflow Sample.env 1 (VStr "notify") VNone Demo.engine = (Ret 0%nat, st')
    ∧ get_execution st'
        (str Sample.env (SStr "notify") +:+ "_"
         +:+ pretty (clock Sample.env (world Demo.engine) `quot` 1000000))
      = executions st' !! 0%nat
    ∧ is_Some (executions st' !! 0%nat).
Proof.
  assert (workflows Demo.engine !! key_of (SStr "notify") = Some Demo.notify) as Hwf
    by (vm_compute; reflexivity).
  assert (∃ st', execute_workflow Sample.env 1 (VStr "notify") VNone Demo.engine
                 = (Ret 0%nat, st')) as (st' & Hrun)
    by (eexists; vm_compute; reflexivity).
  assert (executions Demo.engine = []) as Hexs by (vm_compute; reflexivity).
  assert (Forall (λ e, e_id e ≠ str Sample.env (SStr "notify") +:+ "_"
                        +:+ pretty (clock Sample.env (world Demo.engine) `quot` 1000000))
            (executions Demo.engine)) as Hfresh
    by (rewrite Hexs; constructor).
  destruct (get_execution_after_run Sample.env 1 (SStr "notify") VNone Demo.notify
              Demo.engine st' 0 sample_alone Hwf Hrun) as (_ & Hfound).
  destruct (Hfound Hfresh) as (Hget & Hsome).
  exists st'. split; [exact Hrun|]. split; [exact Hget|exact Hsome].
Defined.
